(** * Tuteliq CLI: command dispatch and response rendering

    A shallow embedding of [src/index.ts], the command-line client of the
    Tuteliq (SafeNest) child-safety API, together with the properties its
    specification states about it.

    Conventions of the embedding.
    - A JavaScript string is a Rocq [string].  The string operations below
      ([slice], [toUpperCase], [trim], [padStart], ...) are those of
      ECMAScript on strings of ASCII characters, where a character, a UTF-16
      code unit and a byte coincide; literals of the source that hold other
      characters are kept as their UTF-8 bytes.
    - A JavaScript number that the code does arithmetic on (a confidence, a
      risk score, a duration) is an IEEE-754 binary64 value, [spec_float] with
      precision 53 and maximal exponent 1024.  Counters that the code only
      prints are integers ([Z]).
    - The terminal is a trace of events; text printed through chalk keeps its
      style as data.
    - The process is a state-and-exit monad over the configuration store, the
      file system and the trace.  [process.exit] ends the run and cannot be
      caught; a thrown value can.
    - A result of the SDK is a record that has every field its TypeScript
      type declares, an optional field as an [option].  The program reads
      these fields unguarded; what it does with a response that lacks a
      declared field is outside the embedding, and the properties below that
      speak of a result speak of such a record.
    - A JSON value ([json]) holds its numbers as exact decimals and its
      objects as lists of members.  [js_value] tells the values that a
      JavaScript value stands for: numbers that a double keeps apart, keys
      that are distinct and in the order of an object's own keys. *)

From Stdlib Require Import ZArith QArith Qpower Lia Lqa Ascii String List.
From Stdlib Require Import Floats.SpecFloat.
From stdpp Require Import base gmap strings list.

Set Warnings "-register-all".
Close Scope Q_scope.
Local Open Scope Z_scope.

(** ** JavaScript strings *)

Definition chars (s : string) : list ascii := list_ascii_of_string s.
Definition str (l : list ascii) : string := string_of_list_ascii l.

Definition strlen (s : string) : nat := length (chars s).

(** The relative index of [String.prototype.slice]: a negative index counts
    from the end, and both ends are clamped to the string. *)
Definition clamp_index (len : nat) (i : Z) : nat :=
  if i <? 0 then Z.to_nat (Z.max (Z.of_nat len + i) 0)
  else Nat.min (Z.to_nat i) len.

(** [s.slice(start, end)]; [end] is [None] when the argument is left out. *)
Definition slice (s : string) (start : Z) (end_ : option Z) : string :=
  let l := chars s in
  let len := length l in
  let from := clamp_index len start in
  let to := match end_ with
            | None => len
            | Some e => clamp_index len e
            end in
  str (take (to - from) (drop from l)).

Definition is_lower (c : ascii) : bool :=
  let n := nat_of_ascii c in (97 <=? n)%nat && (n <=? 122)%nat.

Definition upper_char (c : ascii) : ascii :=
  if is_lower c then ascii_of_nat (nat_of_ascii c - 32) else c.

(** [s.toUpperCase()] on ASCII letters; other characters are kept. *)
Definition toUpperCase (s : string) : string := str (map upper_char (chars s)).

(** [arr.join(sep)] on an array of strings. *)
Fixpoint join (sep : string) (arr : list string) : string :=
  match arr with
  | [] => ""
  | [x] => x
  | x :: rest => x +:+ sep +:+ join sep rest
  end.

Definition is_js_space (c : ascii) : bool := Ascii.is_space c.

Fixpoint trimStart_chars (l : list ascii) : list ascii :=
  match l with
  | c :: l' => if is_js_space c then trimStart_chars l' else l
  | [] => []
  end.

(** [s.trim()] *)
Definition trim (s : string) : string :=
  str (rev (trimStart_chars (rev (trimStart_chars (chars s))))).

Fixpoint split_go (sep : ascii) (cur : list ascii) (l : list ascii) : list string :=
  match l with
  | [] => [str (rev cur)]
  | c :: l' =>
      if Ascii.eqb c sep then str (rev cur) :: split_go sep [] l'
      else split_go sep (c :: cur) l'
  end.

(** [s.split(sep)] for a separator of one character. *)
Definition split (sep : ascii) (s : string) : list string := split_go sep [] (chars s).

(** [s.repeat(n)] *)
Fixpoint repeat_string (s : string) (n : nat) : string :=
  match n with
  | O => ""
  | S n' => s +:+ repeat_string s n'
  end.

(** [s.padStart(n)] and [s.padEnd(n)] with the default filler, a space. *)
Definition padStart (s : string) (n : nat) : string :=
  repeat_string " " (n - strlen s) +:+ s.

Definition padEnd (s : string) (n : nat) : string :=
  s +:+ repeat_string " " (n - strlen s).

(** A string is truthy when it is not empty. *)
Definition truthy (s : string) : bool :=
  match s with
  | EmptyString => false
  | String _ _ => true
  end.

(** ** Numbers *)

Definition digit_char (d : Z) : ascii := ascii_of_nat (48 + Z.to_nat d).

(** The decimal digits of [n], most significant first, in front of [acc]. *)
Fixpoint digits_fuel (fuel : nat) (n : Z) (acc : list ascii) : list ascii :=
  match fuel with
  | O => acc
  | S fuel' =>
      if n <? 10 then digit_char n :: acc
      else digits_fuel fuel' (n / 10) (digit_char (n mod 10) :: acc)
  end.

(** The decimal numeral of a natural number; a number has fewer decimal than
    binary digits, so the fuel is never used up. *)
Definition digits (n : Z) : list ascii :=
  digits_fuel (S (Z.to_nat (Z.log2 n))) n [].

(** [String(z)] for an integer below 10^21 in magnitude: its decimal numeral. *)
Definition Z_to_string (z : Z) : string :=
  if z <? 0 then "-" +:+ str (digits (- z)) else str (digits z).

Definition digit_value (radix : Z) (c : ascii) : option Z :=
  let n := Z.of_nat (nat_of_ascii c) in
  let v := if (48 <=? n) && (n <=? 57) then Some (n - 48)
           else if (97 <=? n) && (n <=? 122) then Some (n - 87)
           else if (65 <=? n) && (n <=? 90) then Some (n - 55)
           else None in
  match v with
  | Some d => if d <? radix then Some d else None
  | None => None
  end.

(** The longest prefix of digits of the radix, read as a number; [None] when
    there is no digit. *)
Fixpoint read_digits (radix : Z) (acc : option Z) (l : list ascii) : option Z :=
  match l with
  | c :: l' =>
      match digit_value radix c with
      | Some d => read_digits radix (Some (from_option id 0 acc * radix + d)) l'
      | None => acc
      end
  | [] => acc
  end.

(** [parseInt(s, radix)]: [None] is NaN.  Without a radix the prefix [0x]
    selects base 16, as it does with radix 16. *)
Definition parseInt (s : string) (radix : option Z) : option Z :=
  let l := trimStart_chars (chars s) in
  let '(neg, l) := match l with
                   | "-"%char :: l' => (true, l')
                   | "+"%char :: l' => (false, l')
                   | _ => (false, l)
                   end in
  let strip := match radix with
               | None => true
               | Some r => r =? 16
               end in
  let '(r, l) := match l with
                 | "0"%char :: x :: l' =>
                     if strip && (Ascii.eqb x "x" || Ascii.eqb x "X")
                     then (16, l') else (from_option id 10 radix, l)
                 | _ => (from_option id 10 radix, l)
                 end in
  match read_digits r None l with
  | Some v => Some (if neg then - v else v)
  | None => None
  end.

(** *** binary64 *)

Definition binary64 := spec_float.

Definition prec64 : Z := 53.
Definition emax64 : Z := 1024.

Definition valid64 (x : binary64) : bool := valid_binary prec64 emax64 x.

(** The product of two doubles, rounded to nearest even: [x * y]. *)
Definition mul64 (x y : binary64) : binary64 := SFmul prec64 emax64 x y.

Definition leb64 (x y : binary64) : bool := SFleb x y.

(** The doubles 0, 1 and 100. *)
Definition zero64 : binary64 := S754_zero false.
Definition one64 : binary64 := S754_finite false 4503599627370496 (-52).
Definition hundred64 : binary64 := S754_finite false 7036874417766400 (-46).

(** The real number a finite double stands for. *)
Definition SF2Q (x : binary64) : Q :=
  match x with
  | S754_finite s m e =>
      ((if s then Zneg m else Zpos m) # 1) * Qpower 2 e
  | _ => 0%Q
  end.

(** The magnitude of a finite double as a fraction [num / den] of naturals. *)
Definition magnitude (m : positive) (e : Z) : Z * Z :=
  if 0 <=? e then (Zpos m * 2 ^ e, 1) else (Zpos m, 2 ^ (- e)).

(** The integer nearest to [num / den], the larger one of two. *)
Definition nearest_int (num den : Z) : Z := (2 * num + den) / (2 * den).

(** The digits of [n] with a decimal point before the last [f] of them, padded
    with zeros on the left so that one digit precedes the point. *)
Definition place_point (digits : string) (f : nat) : string :=
  match f with
  | O => digits
  | _ =>
      let k := strlen digits in
      let padded := repeat_string "0" (S f - k) +:+ digits in
      let k := strlen padded in
      str (take (k - f) (chars padded)) +:+ "." +:+ str (drop (k - f) (chars padded))
  end.

(** ** JSON *)

(** A JSON value.  A number is the decimal [m * 10^e] that its numeral
    denotes; an object lists its members in order. *)
Inductive json : Type :=
| JNull
| JBool (b : bool)
| JNumber (m e : Z)
| JString (s : string)
| JArray (items : list json)
| JObject (members : list (string * json)).

(** The canonical form of a decimal: no trailing zero in the significand. *)
Fixpoint strip10 (fuel : nat) (m e : Z) : Z * Z :=
  match fuel with
  | O => (m, e)
  | S fuel' => if m mod 10 =? 0 then strip10 fuel' (m / 10) (e + 1) else (m, e)
  end.

Definition norm10 (m e : Z) : Z * Z :=
  if m =? 0 then (0, 0) else strip10 (Z.to_nat (Z.log2 (Z.abs m))) m e.

Module JSON.

Definition is_ws (c : ascii) : bool :=
  match c with
  | " "%char | "009"%char | "010"%char | "013"%char => true
  | _ => false
  end.

Fixpoint skip_ws (l : list ascii) : list ascii :=
  match l with
  | c :: l' => if is_ws c then skip_ws l' else l
  | [] => []
  end.

Definition dec_digit (c : ascii) : option Z := digit_value 10 c.

(** A run of decimal digits: its value on top of [acc], its length, the rest. *)
Fixpoint read_run (acc : Z) (cnt : nat) (l : list ascii) : Z * nat * list ascii :=
  match l with
  | c :: l' =>
      match dec_digit c with
      | Some d => read_run (acc * 10 + d) (S cnt) l'
      | None => (acc, cnt, l)
      end
  | [] => (acc, cnt, l)
  end.

Definition starts_with (c : ascii) (l : list ascii) : bool :=
  match l with
  | x :: _ => Ascii.eqb x c
  | [] => false
  end.

(** The integer part of a numeral: a single [0], or a run that does not
    start with [0]. *)
Definition read_int (l : list ascii) : option (Z * list ascii) :=
  if starts_with "0" l then Some (0, tail l)
  else
    match read_run 0 0 l with
    | (_, O, _) => None
    | (v, S _, l') => Some (v, l')
    end.

(** The fraction: a point and at least one digit, appended to [v]. *)
Definition read_frac (v : Z) (l : list ascii) : option (Z * nat * list ascii) :=
  if starts_with "." l then
    match read_run v 0 (tail l) with
    | (_, O, _) => None
    | (v', S n, l') => Some (v', S n, l')
    end
  else Some (v, O, l).

(** The exponent: [e] or [E], a sign, and at least one digit. *)
Definition read_exp (l : list ascii) : option (Z * list ascii) :=
  if starts_with "e" l || starts_with "E" l then
    let l' := tail l in
    let neg := starts_with "-" l' in
    let l'' := if neg || starts_with "+" l' then tail l' else l' in
    match read_run 0 0 l'' with
    | (_, O, _) => None
    | (v, S _, r) => Some (if neg then - v else v, r)
    end
  else Some (0, l).

(** An unsigned numeral: the digits of its integer part and fraction read
    as one integer, and the power of ten that goes with them. *)
Definition read_decimal (l : list ascii) : option (Z * Z * list ascii) :=
  match read_int l with
  | None => None
  | Some (i, l) =>
      match read_frac i l with
      | None => None
      | Some (v, nfrac, l) =>
          match read_exp l with
          | None => None
          | Some (x, l) => Some (v, x - Z.of_nat nfrac, l)
          end
      end
  end.

Definition parse_number (l : list ascii) : option (json * list ascii) :=
  let neg := starts_with "-" l in
  match read_decimal (if neg then tail l else l) with
  | None => None
  | Some (v, x, l) =>
      let '(m, e) := norm10 (if neg then - v else v) x in
      Some (JNumber m e, l)
  end.

Definition hex_digit (c : ascii) : option Z := digit_value 16 c.

(** A code unit as the bytes that print it: itself below 128, its UTF-8
    encoding above. *)
Definition code_unit_bytes (u : Z) : list ascii :=
  let byte (z : Z) := ascii_of_nat (Z.to_nat z) in
  if u <? 128 then [byte u]
  else if u <? 2048 then [byte (192 + u / 64); byte (128 + u mod 64)]
  else [byte (224 + u / 4096); byte (128 + (u / 64) mod 64); byte (128 + u mod 64)].

(** The characters of a string literal after its opening quote, up to the
    closing one. *)
Fixpoint parse_string (l : list ascii) : option (list ascii * list ascii) :=
  match l with
  | [] => None
  | "034"%char :: r => Some ([], r)
  | "\"%char :: r =>
      match r with
      | "u"%char :: a :: b :: c :: d :: r' =>
          match hex_digit a, hex_digit b, hex_digit c, hex_digit d with
          | Some x3, Some x2, Some x1, Some x0 =>
              match parse_string r' with
              | Some (s, r'') =>
                  Some (code_unit_bytes (((x3 * 16 + x2) * 16 + x1) * 16 + x0) ++ s, r'')
              | None => None
              end
          | _, _, _, _ => None
          end
      | e :: r' =>
          let plain := match e with
                       | "034"%char => Some "034"%char
                       | "\"%char => Some "\"%char
                       | "/"%char => Some "/"%char
                       | "b"%char => Some "008"%char
                       | "f"%char => Some "012"%char
                       | "n"%char => Some "010"%char
                       | "r"%char => Some "013"%char
                       | "t"%char => Some "009"%char
                       | _ => None
                       end in
          match plain with
          | Some c =>
              match parse_string r' with
              | Some (s, r'') => Some (c :: s, r'')
              | None => None
              end
          | None => None
          end
      | [] => None
      end
  | c :: r =>
      if (nat_of_ascii c <? 32)%nat then None
      else match parse_string r with
           | Some (s, r') => Some (c :: s, r')
           | None => None
           end
  end.

Fixpoint strip_prefix (p l : list ascii) : option (list ascii) :=
  match p, l with
  | [], _ => Some l
  | a :: p', b :: l' => if Ascii.eqb a b then strip_prefix p' l' else None
  | _ :: _, [] => None
  end.

Definition literal (word : string) (v : json) (l : list ascii)
  : option (json * list ascii) :=
  match strip_prefix (chars word) l with
  | Some r => Some (v, r)
  | None => None
  end.

Definition is_digit (c : ascii) : bool :=
  match dec_digit c with
  | Some _ => true
  | None => false
  end.

(** A value, the elements of an array after the first, a member of an
    object, and the members after the first; each call uses one unit of fuel
    and consumes at least one character. *)
Fixpoint parse_value (fuel : nat) (l : list ascii) : option (json * list ascii) :=
  match fuel with
  | O => None
  | S fuel' =>
      match skip_ws l with
      | [] => None
      | c :: r =>
          if Ascii.eqb c "n" then literal "null" JNull (c :: r)
          else if Ascii.eqb c "t" then literal "true" (JBool true) (c :: r)
          else if Ascii.eqb c "f" then literal "false" (JBool false) (c :: r)
          else if Ascii.eqb c "034" then
            match parse_string r with
            | Some (s, r') => Some (JString (str s), r')
            | None => None
            end
          else if Ascii.eqb c "[" then
            if starts_with "]" (skip_ws r) then Some (JArray [], tail (skip_ws r))
            else
              match parse_value fuel' r with
              | Some (v, r') =>
                  match parse_elements fuel' r' with
                  | Some (vs, r'') => Some (JArray (v :: vs), r'')
                  | None => None
                  end
              | None => None
              end
          else if Ascii.eqb c "{" then
            if starts_with "}" (skip_ws r) then Some (JObject [], tail (skip_ws r))
            else
              match parse_member fuel' r with
              | Some (kv, r') =>
                  match parse_members fuel' r' with
                  | Some (kvs, r'') => Some (JObject (kv :: kvs), r'')
                  | None => None
                  end
              | None => None
              end
          else if Ascii.eqb c "-" || is_digit c then parse_number (c :: r)
          else None
      end
  end
with parse_elements (fuel : nat) (l : list ascii) : option (list json * list ascii) :=
  match fuel with
  | O => None
  | S fuel' =>
      match skip_ws l with
      | [] => None
      | c :: r =>
          if Ascii.eqb c "]" then Some ([], r)
          else if Ascii.eqb c "," then
            match parse_value fuel' r with
            | Some (v, r') =>
                match parse_elements fuel' r' with
                | Some (vs, r'') => Some (v :: vs, r'')
                | None => None
                end
            | None => None
            end
          else None
      end
  end
with parse_member (fuel : nat) (l : list ascii) : option ((string * json) * list ascii) :=
  match fuel with
  | O => None
  | S fuel' =>
      if starts_with "034" (skip_ws l) then
        match parse_string (tail (skip_ws l)) with
        | Some (k, r') =>
            if starts_with ":" (skip_ws r') then
              match parse_value fuel' (tail (skip_ws r')) with
              | Some (v, r3) => Some ((str k, v), r3)
              | None => None
              end
            else None
        | None => None
        end
      else None
  end
with parse_members (fuel : nat) (l : list ascii) : option (list (string * json) * list ascii) :=
  match fuel with
  | O => None
  | S fuel' =>
      match skip_ws l with
      | [] => None
      | c :: r =>
          if Ascii.eqb c "}" then Some ([], r)
          else if Ascii.eqb c "," then
            match parse_member fuel' r with
            | Some (kv, r') =>
                match parse_members fuel' r' with
                | Some (kvs, r'') => Some (kv :: kvs, r'')
                | None => None
                end
            | None => None
            end
          else None
      end
  end.

(** [JSON.parse(text)]: one value between optional white space; [None] is
    the SyntaxError. *)
Definition parse (text : string) : option json :=
  let l := chars text in
  match parse_value (S (length l)) l with
  | Some (v, r) =>
      match skip_ws r with
      | [] => Some v
      | _ => None
      end
  | None => None
  end.

Definition hex_char (d : Z) : ascii :=
  if d <? 10 then digit_char d else ascii_of_nat (Z.to_nat (87 + d)).

(** QuoteJSONString, one character at a time. *)
Definition quote_char (c : ascii) : list ascii :=
  let n := Z.of_nat (nat_of_ascii c) in
  if n =? 34 then ["\"%char; "034"%char]
  else if n =? 92 then chars "\\"
  else if n =? 8 then chars "\b"
  else if n =? 9 then chars "\t"
  else if n =? 10 then chars "\n"
  else if n =? 12 then chars "\f"
  else if n =? 13 then chars "\r"
  else if n <? 32 then chars "\u00" ++ [hex_char (n / 16); hex_char (n mod 16)]
  else [c].

Definition quote (s : string) : list ascii :=
  ("034"%char :: flat_map quote_char (chars s) ++ ["034"%char]).

(** Number::toString on a positive decimal: its [k] digits [ds] and the
    position [n] of the decimal point select one of the five shapes. *)
Definition decimal_chars (ds : list ascii) (n : Z) : list ascii :=
  let k := Z.of_nat (length ds) in
  if (k <=? n) && (n <=? 21) then ds ++ replicate (Z.to_nat (n - k)) "0"%char
  else if (0 <? n) && (n <=? 21) then
    take (Z.to_nat n) ds ++ "."%char :: drop (Z.to_nat n) ds
  else if (-6 <? n) && (n <=? 0) then
    chars "0." ++ replicate (Z.to_nat (- n)) "0"%char ++ ds
  else
    let x := n - 1 in
    let exponent := chars (if x <? 0 then "e-" else "e+") ++ digits (Z.abs x) in
    match ds with
    | [] => exponent
    | [d] => d :: exponent
    | d :: rest => d :: "."%char :: rest ++ exponent
    end.

(** Number::toString on the decimal [m * 10^e]. *)
Definition number_chars (m e : Z) : list ascii :=
  let '(m, e) := norm10 m e in
  if m =? 0 then ["0"%char]
  else
    let ds := digits (Z.abs m) in
    (if m <? 0 then ["-"%char] else []) ++ decimal_chars ds (Z.of_nat (length ds) + e).

Section Stringify.
(** The third argument of [JSON.stringify]: the width of one indentation
    step; 0 gives the compact form. *)
Variable gap : nat.

Definition line_break (indent : nat) : list ascii :=
  if (gap =? 0)%nat then [] else "010"%char :: replicate indent " "%char.

Definition colon : list ascii :=
  if (gap =? 0)%nat then chars ":" else chars ": ".

(** SerializeJSONProperty: the members of an array or object stand on lines
    of their own, indented one step more than the brackets around them. *)
Fixpoint stringify_chars (indent : nat) (v : json) : list ascii :=
  match v with
  | JNull => chars "null"
  | JBool true => chars "true"
  | JBool false => chars "false"
  | JNumber m e => number_chars m e
  | JString s => quote s
  | JArray [] => chars "[]"
  | JArray (x :: xs) =>
      "["%char :: line_break (indent + gap)
        ++ stringify_chars (indent + gap) x
        ++ flat_map (fun y => ","%char :: line_break (indent + gap)
                                ++ stringify_chars (indent + gap) y) xs
        ++ line_break indent ++ ["]"%char]
  | JObject [] => chars "{}"
  | JObject (kx :: kvs) =>
      "{"%char :: line_break (indent + gap)
        ++ quote (fst kx) ++ colon ++ stringify_chars (indent + gap) (snd kx)
        ++ flat_map (fun ky => ","%char :: line_break (indent + gap)
                                 ++ quote (fst ky) ++ colon
                                 ++ stringify_chars (indent + gap) (snd ky)) kvs
        ++ line_break indent ++ ["}"%char]
  end.
End Stringify.

(** [JSON.stringify(value, null, space)] *)
Definition stringify (v : json) (space : nat) : string :=
  str (stringify_chars space 0 v).

End JSON.

(** ** Terminal output *)

(** The chalk styles the program uses; [chalk.red.bold] is [[red; bold]]. *)
Inductive chalk_style : Type :=
| red | green | yellow | cyan | white | dim | bold | bgRed
| hex (color : string).

Record Span : Type := { span_style : list chalk_style; span_text : string }.

(** One printed line: plain and styled pieces side by side. *)
Definition Text : Type := list Span.

Definition plain (s : string) : Text := [{| span_style := []; span_text := s |}].
Definition chalk (style : list chalk_style) (s : string) : Text :=
  [{| span_style := style; span_text := s |}].

(** The characters of a line, without their styles. *)
Definition text_string (t : Text) : string :=
  fold_right (fun sp acc => span_text sp +:+ acc) "" t.

(** ** Thrown values *)

Inductive Thrown : Type :=
| JsError (name message : string)
| JsValue (shown : string).

(** [error instanceof Error ? error.message : error] *)
Definition error_text (error : Thrown) : string :=
  match error with
  | JsError _ message => message
  | JsValue shown => shown
  end.

(** ** Object literals used as lookup tables *)

(** The properties an object literal inherits from [Object.prototype]. *)
Definition Object_prototype_keys : list string :=
  ["constructor"; "__defineGetter__"; "__defineSetter__"; "hasOwnProperty";
   "__lookupGetter__"; "__lookupSetter__"; "isPrototypeOf";
   "propertyIsEnumerable"; "toString"; "valueOf"; "__proto__";
   "toLocaleString"].

Inductive Property (A : Type) : Type :=
| Own (a : A)
| Inherited (key : string)
| Undefined.
Arguments Own {A} a.
Arguments Inherited {A} key.
Arguments Undefined {A}.

Fixpoint assoc {A : Type} (key : string) (l : list (string * A)) : option A :=
  match l with
  | [] => None
  | (k, a) :: l' => if String.eqb k key then Some a else assoc key l'
  end.

(** [literal[key]] for an object literal with the given own properties. *)
Definition property {A : Type} (own : list (string * A)) (key : string) : Property A :=
  match assoc key own with
  | Some a => Own a
  | None =>
      if existsb (String.eqb key) Object_prototype_keys then Inherited key
      else Undefined
  end.

(** What a member of [Object.prototype] gives when it is called as a plain
    function (no receiver) on one string and the result is printed:
    [__proto__] is an object and cannot be called, [Object(s)] wraps [s],
    [toString] and [isPrototypeOf] answer without a receiver, and the others
    need one; the messages are those of V8, which names [toLocaleString] in
    its own. *)
Definition call_inherited (callee : string) (key arg : string) : Thrown + string :=
  if String.eqb key "__proto__" then
    inl (JsError "TypeError" (callee +:+ " is not a function"))
  else if String.eqb key "constructor" then inr arg
  else if String.eqb key "toString" then inr "[object Undefined]"
  else if String.eqb key "isPrototypeOf" then inr "false"
  else if String.eqb key "toLocaleString" then
    inl (JsError "TypeError"
           "Object.prototype.toLocaleString called on null or undefined")
  else inl (JsError "TypeError" "Cannot convert undefined or null to object").

(** ** The formatters *)

(** [formatSeverity]: [(colors[severity] || chalk.white)(severity.toUpperCase())] *)
Definition formatSeverity (severity : string) : Thrown + Text :=
  let colors := [("low", [yellow]); ("medium", [hex "#FFA500"]);
                 ("high", [red]); ("critical", [bgRed; white])] in
  match property colors severity with
  | Own style => inr (chalk style (toUpperCase severity))
  | Undefined => inr (chalk [white] (toUpperCase severity))
  | Inherited key =>
      match call_inherited "(colors[severity] || chalk.white)" key (toUpperCase severity) with
      | inl error => inl error
      | inr s => inr (plain s)
      end
  end.

(** [formatRisk]: [(colors[risk] || chalk.white)(risk.toUpperCase())] *)
Definition formatRisk (risk : string) : Thrown + Text :=
  let colors := [("none", [green]); ("safe", [green]); ("low", [yellow]);
                 ("medium", [hex "#FFA500"]); ("high", [red]);
                 ("critical", [bgRed; white])] in
  match property colors risk with
  | Own style => inr (chalk style (toUpperCase risk))
  | Undefined => inr (chalk [white] (toUpperCase risk))
  | Inherited key =>
      match call_inherited "(colors[risk] || chalk.white)" key (toUpperCase risk) with
      | inl error => inl error
      | inr s => inr (plain s)
      end
  end.

(** [apiKey.slice(0, 8) + '...' + apiKey.slice(-4)] *)
Definition masked (apiKey : string) : string :=
  slice apiKey 0 (Some 8) +:+ "..." +:+ slice apiKey (-4) None.

(** ** The results of the remote operations

    One record per result of the SDK, with the fields the program reads.  An
    optional field is an [option]; a number the program only prints is an
    integer, and a field it only concatenates is the text it prints.  Every
    field the type declares is present: a response without one of them has
    no record here. *)

Module BullyingResult.
Record t : Type := {
  is_bullying : bool;
  severity : string;
  confidence : binary64;
  risk_score : binary64;
  bullying_type : option (list string);
  rationale : string;
  recommended_action : string }.
End BullyingResult.

Module GroomingResult.
Record t : Type := {
  grooming_risk : string;
  confidence : binary64;
  risk_score : binary64;
  flags : option (list string);
  rationale : string;
  recommended_action : string }.
End GroomingResult.

Module UnsafeResult.
Record t : Type := {
  unsafe : bool;
  severity : string;
  confidence : binary64;
  risk_score : binary64;
  categories : option (list string);
  rationale : string;
  recommended_action : string }.
End UnsafeResult.

Module AnalyzeResult.
Record t : Type := {
  risk_level : string;
  risk_score : binary64;
  summary : string;
  recommended_action : string }.
End AnalyzeResult.

Module EmotionsResult.
Record t : Type := {
  dominant_emotions : list string;
  trend : string;
  summary : string;
  recommended_followup : string }.
End EmotionsResult.

Module ActionPlanResult.
Record t : Type := {
  audience : string;
  tone : string;
  steps : list string }.
End ActionPlanResult.

Module Consent.
Record t : Type := {
  consent_type : string;
  status : string;
  version : string }.
End Consent.

Module AuditLog.
Record t : Type := {
  created_at : string;
  action : string;
  id : string }.
End AuditLog.

Module Breach.
Record t : Type := {
  id : string;
  title : string;
  description : string;
  severity : string;
  status : string;
  notification_status : string;
  reported_by : string;
  notification_deadline : string;
  created_at : string;
  updated_at : string;
  affected_user_ids : list string;
  data_categories : list string }.
End Breach.

Module Transcription.
Record t : Type := {
  language : string;
  duration : binary64;
  text : string }.
End Transcription.

Module VoiceAnalysis.
Record t : Type := {
  bullying : option BullyingResult.t;
  unsafe : option UnsafeResult.t;
  grooming : option GroomingResult.t;
  emotions : option EmotionsResult.t }.
End VoiceAnalysis.

Module VoiceResult.
Record t : Type := {
  overall_severity : string;
  overall_risk_score : binary64;
  transcription : Transcription.t;
  analysis : VoiceAnalysis.t }.
End VoiceResult.

Module Vision.
Record t : Type := {
  visual_description : string;
  visual_severity : string;
  contains_text : bool;
  contains_faces : bool;
  extracted_text : option string }.
End Vision.

Module TextAnalysis.
Record t : Type := {
  bullying : option BullyingResult.t;
  unsafe : option UnsafeResult.t }.
End TextAnalysis.

Module ImageResult.
Record t : Type := {
  overall_severity : string;
  overall_risk_score : binary64;
  vision : Vision.t;
  text_analysis : option TextAnalysis.t }.
End ImageResult.

Module Webhook.
Record t : Type := {
  id : string;
  name : string;
  url : string;
  events : list string;
  is_active : bool }.
End Webhook.

Module WebhookSecret.
Record t : Type := {
  webhook : Webhook.t;
  secret : string }.
End WebhookSecret.

Module WebhookTest.
Record t : Type := {
  success : bool;
  status_code : Z;
  latency_ms : Z;
  error : option string }.
End WebhookTest.

Module Plan.
Record t : Type := {
  name : string;
  price : string;
  features : list string }.
End Plan.

Module PlanDetails.
Record t : Type := {
  name : string;
  price_monthly : string;
  price_yearly : string;
  api_calls_per_month : Z;
  rate_limit : Z;
  features : list string }.
End PlanDetails.

Module Recommendations.
Record t : Type := {
  should_upgrade : bool;
  reason : string;
  suggested_tier : string }.
End Recommendations.

Module UsageMonthly.
Record t : Type := {
  tier_display_name : string;
  used : Z;
  limit : Z;
  percent_used : binary64;
  remaining : Z;
  requests_per_minute : Z;
  current_period_start : string;
  current_period_end : string;
  days_remaining : Z;
  recommendations : option Recommendations.t }.
End UsageMonthly.

Module UsageDay.
Record t : Type := {
  date : string;
  total_requests : Z;
  success_requests : Z;
  error_requests : Z }.
End UsageDay.

Module UsageByTool.
Record t : Type := {
  date : string;
  tools : list (string * Z) }.
End UsageByTool.

(** ** The remote operations *)

(** [limit: options.limit ? parseInt(options.limit, 10) : undefined]: the outer
    [option] is [undefined], the inner one NaN. *)
Definition OptionalInt : Type := option (option Z).

(** A call of the SDK with its arguments, indexed by the type of its result. *)
Inductive Request : Type -> Type :=
| detectBullying (content : string) : Request BullyingResult.t
| detectGrooming (messages : json) (childAge : OptionalInt) : Request GroomingResult.t
| detectUnsafe (content : string) : Request UnsafeResult.t
| analyze (content : string) : Request AnalyzeResult.t
| analyzeEmotions (content : string) : Request EmotionsResult.t
| getActionPlan (situation : string) (childAge : OptionalInt)
    (audience : string) (severity : option string) : Request ActionPlanResult.t
| deleteAccountData : Request Z
| exportAccountData : Request json
| recordConsent (consent_type version : string) : Request Consent.t
| getConsentStatus (type : option string) : Request (list Consent.t)
| withdrawConsent (type : string) : Request Consent.t
| getAuditLogs (action : option string) (limit : OptionalInt) : Request (list AuditLog.t)
| logBreach (title description severity : string)
    (affected_user_ids data_categories : list string) (reported_by : string)
    : Request Breach.t
| listBreaches (status : option string) (limit : OptionalInt) : Request (list Breach.t)
| getBreach (id : string) : Request Breach.t
| updateBreachStatus (id status : string) (notification_status notes : option string)
    : Request Breach.t
| analyzeVoice (file filename analysisType : string) (language : option string)
    (childAge : OptionalInt) : Request VoiceResult.t
| analyzeImage (file filename analysisType : string) : Request ImageResult.t
| listWebhooks : Request (list Webhook.t)
| createWebhook (name url : string) (events : list string) : Request WebhookSecret.t
| updateWebhook (id : string) (name url : option string)
    (events : option (list string)) (isActive : option bool) : Request Webhook.t
| deleteWebhook (id : string) : Request unit
| testWebhook (id : string) : Request WebhookTest.t
| regenerateWebhookSecret (id : string) : Request string
| getPricing : Request (list Plan.t)
| getPricingDetails : Request (list PlanDetails.t)
| getUsageMonthly : Request UsageMonthly.t
| getUsageHistory (days : option Z) : Request (list UsageDay.t)
| getUsageByTool (date : option string) : Request UsageByTool.t.

(** What the program does not define itself: the SDK with the service behind
    it, the place of the configuration file, and the part of the JavaScript
    engine that is not modelled. *)
Class Host : Type := {
  (** [config.path] *)
  config_path : string;
  (** [new Tuteliq(apiKey)]: the constructor may reject the key. *)
  new_Tuteliq : string -> option Thrown;
  (** A method of the client: the result, or the value it throws. *)
  remote : forall R : Type, string -> Request R -> Thrown + R;
  (** [fs.writeFileSync(path, data)]: the value it throws, if any. *)
  write_error : string -> option Thrown;
  (** Number::toString on a double of magnitude 10^21 or more. *)
  Number_toString : binary64 -> string;
  (** The message of the SyntaxError that [JSON.parse] throws on a text. *)
  syntax_message : string -> string }.

(** [x.toFixed(f)] *)
Definition toFixed `{Host} (x : binary64) (f : nat) : string :=
  match x with
  | S754_nan => "NaN"
  | S754_infinity s => if s then "-Infinity" else "Infinity"
  | S754_zero _ => place_point "0" f
  | S754_finite s m e =>
      let '(num, den) := magnitude m e in
      (if s then "-" else "") +:+
      (if 10 ^ 21 * den <=? num then Number_toString (S754_finite false m e)
       else place_point (str (digits (nearest_int (num * 10 ^ Z.of_nat f) den))) f)
  end.

(** [(r * 100).toFixed(0) + '%'] *)
Definition percent `{Host} (r : binary64) : string :=
  toFixed (mul64 r hundred64) 0 +:+ "%".

(** ** The process *)

Inductive Event : Type :=
| SpinnerStart (text : string)
| SpinnerStop
| Log (line : Text)
| LogError (line : Text)
| Remote (R : Type) (apiKey : string) (request : Request R).

(** The configuration store of [Conf], the files, and what happened so far. *)
Record World : Type := {
  config : gmap string string;
  files : gmap string string;
  trace : list Event }.

Inductive Outcome (A : Type) : Type :=
| Done (a : A)
| Threw (error : Thrown)
| Exited (code : Z).
Arguments Done {A} a.
Arguments Threw {A} error.
Arguments Exited {A} code.

Definition Run (A : Type) : Type := World -> Outcome A * World.

Definition ret {A : Type} (a : A) : Run A := fun w => (Done a, w).

Definition bind {A B : Type} (m : Run A) (k : A -> Run B) : Run B :=
  fun w =>
    match m w with
    | (Done a, w') => k a w'
    | (Threw error, w') => (Threw error, w')
    | (Exited code, w') => (Exited code, w')
    end.

Notation "x <- m ;; k" := (bind m (fun x => k))
  (at level 100, m at next level, right associativity).
Notation "m ;; k" := (bind m (fun _ => k))
  (at level 100, right associativity).

Definition throw {A : Type} (error : Thrown) : Run A := fun w => (Threw error, w).

(** [process.exit(code)] *)
Definition process_exit {A : Type} (code : Z) : Run A := fun w => (Exited code, w).

(** [try { body } catch (error) { handler }]: an exit is not caught. *)
Definition try_catch {A : Type} (body : Run A) (handler : Thrown -> Run A) : Run A :=
  fun w =>
    match body w with
    | (Threw error, w') => handler error w'
    | other => other
    end.

Definition lift {A : Type} (r : Thrown + A) : Run A :=
  match r with
  | inl error => throw error
  | inr a => ret a
  end.

Definition emit (e : Event) : Run unit :=
  fun w => (Done tt, {| config := config w; files := files w; trace := trace w ++ [e] |}).

Definition console_log (line : Text) : Run unit := emit (Log line).
Definition console_error (line : Text) : Run unit := emit (LogError line).

Fixpoint for_each {A : Type} (l : list A) (f : A -> Run unit) : Run unit :=
  match l with
  | [] => ret tt
  | x :: l' => f x ;; for_each l' f
  end.

(** [arr.forEach((x, i) => ...)] counting from [i]. *)
Fixpoint for_each_from {A : Type} (i : Z) (l : list A) (f : A -> Z -> Run unit) : Run unit :=
  match l with
  | [] => ret tt
  | x :: l' => f x i ;; for_each_from (i + 1) l' f
  end.

Definition config_get (key : string) : Run (option string) :=
  fun w => (Done (config w !! key), w).

Definition config_set (key value : string) : Run unit :=
  fun w => (Done tt, {| config := <[key := value]> (config w);
                        files := files w; trace := trace w |}).

Definition config_delete (key : string) : Run unit :=
  fun w => (Done tt, {| config := delete key (config w);
                        files := files w; trace := trace w |}).

(** [fs.readFileSync(path)] *)
Definition readFileSync (path : string) : Run string :=
  fun w =>
    match files w !! path with
    | Some data => (Done data, w)
    | None =>
        (Threw (JsError "Error"
                  ("ENOENT: no such file or directory, open '" +:+ path +:+ "'")), w)
    end.

(** [fs.writeFileSync(path, data)] *)
Definition writeFileSync `{Host} (path data : string) : Run unit :=
  fun w =>
    match write_error path with
    | Some error => (Threw error, w)
    | None => (Done tt, {| config := config w; files := <[path := data]> (files w);
                           trace := trace w |})
    end.

Fixpoint drop_slashes (l : list ascii) : list ascii :=
  match l with
  | c :: l' => if Ascii.eqb c "/" then drop_slashes l' else l
  | [] => []
  end.

Fixpoint until_slash (l : list ascii) : list ascii :=
  match l with
  | c :: l' => if Ascii.eqb c "/" then [] else c :: until_slash l'
  | [] => []
  end.

(** [path.basename(p)] on POSIX: the last segment, trailing slashes apart. *)
Definition basename (p : string) : string :=
  str (rev (until_slash (drop_slashes (rev (chars p))))).

Record Client : Type := { client_key : string }.

(** A method of the client: one remote operation. *)
Definition call `{Host} {R : Type} (client : Client) (request : Request R) : Run R :=
  emit (Remote R (client_key client) request) ;;
  lift (remote R (client_key client) request).

(** [getClient] *)
Definition getClient `{Host} : Run Client :=
  apiKey <- config_get "apiKey" ;;
  match apiKey with
  | Some key =>
      if truthy key then
        match new_Tuteliq key with
        | Some error => throw error
        | None => ret {| client_key := key |}
        end
      else
        console_error (chalk [red] "Not logged in. Run: tuteliq login <api-key>") ;;
        process_exit 1
  | None =>
      console_error (chalk [red] "Not logged in. Run: tuteliq login <api-key>") ;;
      process_exit 1
  end.

(** The frame every command with a spinner shares:
    [const spinner = ora(text).start(); try { body } catch (error) { ... }] *)
Definition error_line (error : Thrown) : Text :=
  chalk [red] "Error:" ++ plain " " ++ plain (error_text error).

Definition report_error (error : Thrown) : Run unit :=
  emit SpinnerStop ;;
  console_error (error_line error) ;;
  process_exit 1.

Definition with_spinner (text : string) (body : Run unit) : Run unit :=
  emit (SpinnerStart text) ;;
  try_catch body report_error.

Definition spinner_stop : Run unit := emit SpinnerStop.

(** [options.age ? parseInt(options.age) : undefined] *)
Definition optional_int (option_ : option string) (radix : option Z) : OptionalInt :=
  match option_ with
  | Some s => if truthy s then Some (parseInt s radix) else None
  | None => None
  end.

(** [s.split(',').map(s => s.trim())] *)
Definition comma_list (s : string) : list string := map trim (split "," s).

(** A string option is truthy when it is present and not empty. *)
Definition given (o : option string) : option string :=
  match o with
  | Some s => if truthy s then Some s else None
  | None => None
  end.

(** [list?.length > 0] *)
Definition non_empty {A : Type} (o : option (list A)) : option (list A) :=
  match o with
  | Some (x :: l) => Some (x :: l)
  | _ => None
  end.

(** What a template literal prints for [table[key] || ''] when the table
    holds strings. *)
Definition lookup_shown (own : list (string * string)) (key : string) : string :=
  match property own key with
  | Own s => s
  | Undefined => ""
  | Inherited k =>
      if String.eqb k "__proto__" then "[object Object]"
      else if String.eqb k "constructor" then "function Object() { [native code] }"
      else "function " +:+ k +:+ "() { [native code] }"
  end.

(** ** The commands *)

(** A parsed invocation.  An option without a default is an [option]; an
    option with a default always has a value ([audience] is ["parent"],
    [type] is ["all"] and [days] is ["7"] when left out). *)
Inductive Command : Type :=
| login (apiKey : string)
| logout
| whoami
| detect_bullying (text : string)
| detect_grooming (messages : string) (age : option string)
| detect_unsafe (text : string)
| analyze_text (text : string)
| emotions (text : string)
| action_plan (situation : string) (age : option string) (audience : string)
    (severity : option string)
| account_delete (confirm : bool)
| account_export (output : option string)
| account_consent_record (type version : string)
| account_consent_status (type : option string)
| account_consent_withdraw (type : string)
| account_audit_logs (action limit : option string)
| breach_log (title description severity users categories reportedBy : string)
| breach_list (status limit : option string)
| breach_get (id : string)
| breach_update (id status : string) (notification notes : option string)
| voice (file type : string) (language age : option string)
| image (file type : string)
| webhook_list
| webhook_create (name url events : string)
| webhook_update (id : string) (name url events : option string) (enable disable : bool)
| webhook_delete (id : string)
| webhook_test (id : string)
| webhook_regenerate_secret (id : string)
| pricing (details : bool)
| usage_monthly
| usage_history (days : string)
| usage_by_tool (date : option string).

(** The commands that need the API key: all but [login], [logout], [whoami]. *)
Definition authenticated (c : Command) : bool :=
  match c with
  | login _ | logout | whoami => false
  | _ => true
  end.

Section Actions.
Context `{Host}.

Definition login_action (apiKey : string) : Run unit :=
  config_set "apiKey" apiKey ;;
  console_log (chalk [green] "✓ API key saved successfully!") ;;
  console_log (chalk [dim] ("Your key is stored locally at: " +:+ config_path)).

Definition logout_action : Run unit :=
  config_delete "apiKey" ;;
  console_log (chalk [green] "✓ Logged out successfully!").

Definition whoami_action : Run unit :=
  apiKey <- config_get "apiKey" ;;
  match given apiKey with
  | Some key =>
      console_log (chalk [green] "✓ Logged in") ;;
      console_log (chalk [dim] ("API Key: " +:+ masked key))
  | None =>
      console_log (chalk [yellow] "Not logged in") ;;
      console_log (chalk [dim] "Run: tuteliq login <api-key>")
  end.

(** The lines every detection result ends with. *)
Definition print_rationale (rationale recommended_action : string) : Run unit :=
  console_log [] ;;
  console_log (chalk [dim] "Rationale:") ;;
  console_log (plain rationale) ;;
  console_log [] ;;
  console_log (plain "Action: " ++ chalk [yellow] recommended_action).

Definition detect_bullying_action (text : string) : Run unit :=
  with_spinner "Analyzing..."
    (client <- getClient ;;
     result <- call client (detectBullying text) ;;
     spinner_stop ;;
     console_log [] ;;
     console_log (if BullyingResult.is_bullying result
                  then chalk [red; bold] "⚠ BULLYING DETECTED"
                  else chalk [green; bold] "✓ No bullying detected") ;;
     console_log [] ;;
     severity <- lift (formatSeverity (BullyingResult.severity result)) ;;
     console_log (plain "Severity:    " ++ severity) ;;
     console_log (plain "Confidence:  "
                    ++ chalk [cyan] (percent (BullyingResult.confidence result))) ;;
     console_log (plain "Risk Score:  "
                    ++ chalk [cyan] (percent (BullyingResult.risk_score result))) ;;
     match non_empty (BullyingResult.bullying_type result) with
     | Some types => console_log (plain ("Types:       " +:+ join ", " types))
     | None => ret tt
     end ;;
     print_rationale (BullyingResult.rationale result)
       (BullyingResult.recommended_action result)).

Definition detect_grooming_action (messages : string) (age : option string) : Run unit :=
  with_spinner "Analyzing..."
    (client <- getClient ;;
     messages <- match JSON.parse messages with
                 | Some v => ret v
                 | None => throw (JsError "SyntaxError" (syntax_message messages))
                 end ;;
     result <- call client (detectGrooming messages (optional_int age None)) ;;
     spinner_stop ;;
     console_log [] ;;
     console_log (if String.eqb (GroomingResult.grooming_risk result) "none"
                  then chalk [green; bold] "✓ No grooming detected"
                  else chalk [red; bold] "⚠ GROOMING RISK DETECTED") ;;
     console_log [] ;;
     risk <- lift (formatRisk (GroomingResult.grooming_risk result)) ;;
     console_log (plain "Risk Level:  " ++ risk) ;;
     console_log (plain "Confidence:  "
                    ++ chalk [cyan] (percent (GroomingResult.confidence result))) ;;
     console_log (plain "Risk Score:  "
                    ++ chalk [cyan] (percent (GroomingResult.risk_score result))) ;;
     match non_empty (GroomingResult.flags result) with
     | Some flags =>
         console_log [] ;;
         console_log (chalk [dim] "Warning Flags:") ;;
         for_each flags (fun flag => console_log (chalk [yellow] ("  • " +:+ flag)))
     | None => ret tt
     end ;;
     print_rationale (GroomingResult.rationale result)
       (GroomingResult.recommended_action result)).

Definition detect_unsafe_action (text : string) : Run unit :=
  with_spinner "Analyzing..."
    (client <- getClient ;;
     result <- call client (detectUnsafe text) ;;
     spinner_stop ;;
     console_log [] ;;
     console_log (if UnsafeResult.unsafe result
                  then chalk [red; bold] "⚠ UNSAFE CONTENT DETECTED"
                  else chalk [green; bold] "✓ Content is safe") ;;
     console_log [] ;;
     severity <- lift (formatSeverity (UnsafeResult.severity result)) ;;
     console_log (plain "Severity:    " ++ severity) ;;
     console_log (plain "Confidence:  "
                    ++ chalk [cyan] (percent (UnsafeResult.confidence result))) ;;
     console_log (plain "Risk Score:  "
                    ++ chalk [cyan] (percent (UnsafeResult.risk_score result))) ;;
     match non_empty (UnsafeResult.categories result) with
     | Some categories =>
         console_log (plain ("Categories:  " +:+ join ", " categories))
     | None => ret tt
     end ;;
     print_rationale (UnsafeResult.rationale result)
       (UnsafeResult.recommended_action result)).

Definition analyze_action (text : string) : Run unit :=
  with_spinner "Analyzing..."
    (client <- getClient ;;
     result <- call client (analyze text) ;;
     spinner_stop ;;
     console_log [] ;;
     console_log (if String.eqb (AnalyzeResult.risk_level result) "safe"
                  then chalk [green; bold] "✓ Content appears safe"
                  else chalk [red; bold] "⚠ SAFETY CONCERNS DETECTED") ;;
     console_log [] ;;
     risk <- lift (formatRisk (AnalyzeResult.risk_level result)) ;;
     console_log (plain "Risk Level:  " ++ risk) ;;
     console_log (plain "Risk Score:  "
                    ++ chalk [cyan] (percent (AnalyzeResult.risk_score result))) ;;
     console_log [] ;;
     console_log (chalk [dim] "Summary:") ;;
     console_log (plain (AnalyzeResult.summary result)) ;;
     console_log [] ;;
     console_log (plain "Action: "
                    ++ chalk [yellow] (AnalyzeResult.recommended_action result))).

Definition emotions_action (text : string) : Run unit :=
  with_spinner "Analyzing..."
    (client <- getClient ;;
     result <- call client (analyzeEmotions text) ;;
     spinner_stop ;;
     let trendEmoji := [("improving", "📈"); ("stable", "➡️"); ("worsening", "📉")] in
     console_log [] ;;
     console_log (chalk [bold] "Emotion Analysis") ;;
     console_log [] ;;
     console_log (plain "Dominant:  "
                    ++ chalk [cyan] (join ", " (EmotionsResult.dominant_emotions result))) ;;
     console_log (plain ("Trend:     "
                           +:+ lookup_shown trendEmoji (EmotionsResult.trend result)
                           +:+ " " +:+ EmotionsResult.trend result)) ;;
     console_log [] ;;
     console_log (chalk [dim] "Summary:") ;;
     console_log (plain (EmotionsResult.summary result)) ;;
     console_log [] ;;
     console_log (chalk [dim] "Recommended Follow-up:") ;;
     console_log (plain (EmotionsResult.recommended_followup result))).

Definition action_plan_action (situation : string) (age : option string)
    (audience : string) (severity : option string) : Run unit :=
  with_spinner "Generating action plan..."
    (client <- getClient ;;
     result <- call client
                 (getActionPlan situation (optional_int age None) audience severity) ;;
     spinner_stop ;;
     console_log [] ;;
     console_log (chalk [bold] "Action Plan") ;;
     console_log (chalk [dim] ("For: " +:+ ActionPlanResult.audience result
                                 +:+ " | Tone: " +:+ ActionPlanResult.tone result)) ;;
     console_log [] ;;
     console_log (chalk [dim] "Steps:") ;;
     for_each_from 0 (ActionPlanResult.steps result)
       (fun step i =>
          console_log (chalk [cyan] ("  " +:+ Z_to_string (i + 1) +:+ ". ")
                         ++ plain step))).

Definition account_delete_action (confirm : bool) : Run unit :=
  (if confirm then ret tt
   else
     console_log (chalk [red; bold]
                    "⚠ WARNING: This will permanently delete ALL your account data.") ;;
     console_log (chalk [dim] "Run with --confirm to proceed.") ;;
     process_exit 0) ;;
  with_spinner "Deleting account data..."
    (client <- getClient ;;
     deleted_count <- call client deleteAccountData ;;
     spinner_stop ;;
     console_log [] ;;
     console_log (chalk [green; bold] "✓ Account data deleted") ;;
     console_log (plain "Deleted records: "
                    ++ chalk [cyan] (Z_to_string deleted_count))).

Definition account_export_action (output : option string) : Run unit :=
  with_spinner "Exporting account data..."
    (client <- getClient ;;
     result <- call client exportAccountData ;;
     spinner_stop ;;
     let json := JSON.stringify result 2 in
     match given output with
     | Some path =>
         writeFileSync path json ;;
         console_log (chalk [green; bold] ("✓ Data exported to " +:+ path))
     | None => console_log (plain json)
     end).

Definition consent_record_action (type version : string) : Run unit :=
  with_spinner "Recording consent..."
    (client <- getClient ;;
     consent <- call client (recordConsent type version) ;;
     spinner_stop ;;
     console_log [] ;;
     console_log (chalk [green; bold] "✓ Consent recorded") ;;
     console_log (plain "Type: " ++ chalk [cyan] (Consent.consent_type consent)) ;;
     console_log (plain "Status: " ++ chalk [cyan] (Consent.status consent)) ;;
     console_log (plain "Version: " ++ chalk [cyan] (Consent.version consent))).

Definition consent_status_action (type : option string) : Run unit :=
  with_spinner "Fetching consent status..."
    (client <- getClient ;;
     consents <- call client (getConsentStatus type) ;;
     spinner_stop ;;
     match consents with
     | [] => console_log (chalk [dim] "No consent records found.")
     | _ =>
         console_log [] ;;
         for_each consents
           (fun consent =>
              let statusColor :=
                if String.eqb (Consent.status consent) "granted" then [green] else [red] in
              console_log (chalk [bold] (Consent.consent_type consent) ++ plain ": "
                             ++ chalk statusColor (Consent.status consent)
                             ++ plain (" (v" +:+ Consent.version consent +:+ ")")))
     end).

Definition consent_withdraw_action (type : string) : Run unit :=
  with_spinner "Withdrawing consent..."
    (client <- getClient ;;
     consent <- call client (withdrawConsent type) ;;
     spinner_stop ;;
     console_log [] ;;
     console_log (chalk [yellow; bold] "✓ Consent withdrawn") ;;
     console_log (plain "Type: " ++ chalk [cyan] (Consent.consent_type consent))).

Definition audit_logs_action (action limit : option string) : Run unit :=
  with_spinner "Fetching audit logs..."
    (client <- getClient ;;
     audit_logs <- call client (getAuditLogs action (optional_int limit (Some 10))) ;;
     spinner_stop ;;
     match audit_logs with
     | [] => console_log (chalk [dim] "No audit logs found.")
     | _ =>
         console_log [] ;;
         for_each audit_logs
           (fun log =>
              console_log (chalk [dim] (AuditLog.created_at log) ++ plain " "
                             ++ chalk [bold] (AuditLog.action log) ++ plain " "
                             ++ chalk [dim] ("(" +:+ AuditLog.id log +:+ ")")))
     end).

Definition breach_log_action
    (title description severity users categories reportedBy : string) : Run unit :=
  with_spinner "Logging breach..."
    (client <- getClient ;;
     breach <- call client
                 (logBreach title description severity (comma_list users)
                    (comma_list categories) reportedBy) ;;
     spinner_stop ;;
     console_log [] ;;
     console_log (chalk [red; bold] "⚠ Breach logged") ;;
     console_log (plain "ID:       " ++ chalk [cyan] (Breach.id breach)) ;;
     console_log (plain ("Title:    " +:+ Breach.title breach)) ;;
     severity <- lift (formatSeverity (Breach.severity breach)) ;;
     console_log (plain "Severity: " ++ severity) ;;
     console_log (plain "Status:   " ++ chalk [yellow] (Breach.status breach)) ;;
     console_log (plain "Deadline: "
                    ++ chalk [dim] (Breach.notification_deadline breach))).

Definition breach_list_action (status limit : option string) : Run unit :=
  with_spinner "Fetching breaches..."
    (client <- getClient ;;
     breaches <- call client (listBreaches status (optional_int limit (Some 10))) ;;
     spinner_stop ;;
     match breaches with
     | [] => console_log (chalk [dim] "No breaches found.")
     | _ =>
         console_log [] ;;
         for_each breaches
           (fun b =>
              severity <- lift (formatSeverity (Breach.severity b)) ;;
              console_log (severity ++ plain " " ++ chalk [bold] (Breach.title b)
                             ++ plain " " ++ chalk [dim] ("(" +:+ Breach.id b +:+ ")")) ;;
              console_log (plain "  Status: " ++ chalk [yellow] (Breach.status b)
                             ++ plain " | Notification: "
                             ++ chalk [yellow] (Breach.notification_status b)
                             ++ plain " | " ++ chalk [dim] (Breach.created_at b)))
     end).

Definition breach_get_action (id : string) : Run unit :=
  with_spinner "Fetching breach..."
    (client <- getClient ;;
     b <- call client (getBreach id) ;;
     spinner_stop ;;
     console_log [] ;;
     console_log (chalk [bold] (Breach.title b)) ;;
     console_log [] ;;
     console_log (plain "ID:            " ++ chalk [cyan] (Breach.id b)) ;;
     severity <- lift (formatSeverity (Breach.severity b)) ;;
     console_log (plain "Severity:      " ++ severity) ;;
     console_log (plain "Status:        " ++ chalk [yellow] (Breach.status b)) ;;
     console_log (plain "Notification:  "
                    ++ chalk [yellow] (Breach.notification_status b)) ;;
     console_log (plain ("Reported By:   " +:+ Breach.reported_by b)) ;;
     console_log (plain "Deadline:      "
                    ++ chalk [dim] (Breach.notification_deadline b)) ;;
     console_log (plain "Created:       " ++ chalk [dim] (Breach.created_at b)) ;;
     console_log (plain "Updated:       " ++ chalk [dim] (Breach.updated_at b)) ;;
     console_log [] ;;
     console_log (chalk [dim] "Description:") ;;
     console_log (plain (Breach.description b)) ;;
     console_log [] ;;
     console_log (plain ("Affected Users:   "
                           +:+ join ", " (Breach.affected_user_ids b))) ;;
     console_log (plain ("Data Categories:  "
                           +:+ join ", " (Breach.data_categories b)))).

Definition breach_update_action (id status : string)
    (notification notes : option string) : Run unit :=
  with_spinner "Updating breach..."
    (client <- getClient ;;
     breach <- call client (updateBreachStatus id status notification notes) ;;
     spinner_stop ;;
     console_log [] ;;
     console_log (chalk [green; bold] "✓ Breach updated") ;;
     console_log (plain "Status:        " ++ chalk [yellow] (Breach.status breach)) ;;
     console_log (plain "Notification:  "
                    ++ chalk [yellow] (Breach.notification_status breach))).

Definition detected (flag : bool) : Text :=
  if flag then chalk [red] "DETECTED" else chalk [green] "Clear".

Definition voice_action (file type : string) (language age : option string)
    : Run unit :=
  with_spinner "Analyzing audio..."
    (client <- getClient ;;
     buffer <- readFileSync file ;;
     let filename := basename file in
     result <- call client
                 (analyzeVoice buffer filename type language (optional_int age None)) ;;
     spinner_stop ;;
     let transcription := VoiceResult.transcription result in
     let analysis := VoiceResult.analysis result in
     console_log [] ;;
     console_log (chalk [bold] "Voice Analysis") ;;
     console_log [] ;;
     severity <- lift (formatSeverity (VoiceResult.overall_severity result)) ;;
     console_log (plain "Severity:    " ++ severity) ;;
     console_log (plain "Risk Score:  "
                    ++ chalk [cyan] (percent (VoiceResult.overall_risk_score result))) ;;
     console_log (plain "Language:    "
                    ++ chalk [cyan] (Transcription.language transcription)) ;;
     console_log (plain "Duration:    "
                    ++ chalk [cyan]
                         (toFixed (Transcription.duration transcription) 1 +:+ "s")) ;;
     console_log [] ;;
     console_log (chalk [dim] "Transcript:") ;;
     console_log (plain (Transcription.text transcription)) ;;
     match VoiceAnalysis.bullying analysis with
     | Some bullying =>
         console_log [] ;;
         console_log (plain "Bullying: "
                        ++ detected (BullyingResult.is_bullying bullying))
     | None => ret tt
     end ;;
     match VoiceAnalysis.unsafe analysis with
     | Some unsafe =>
         console_log (plain "Unsafe:   " ++ detected (UnsafeResult.unsafe unsafe))
     | None => ret tt
     end ;;
     match VoiceAnalysis.grooming analysis with
     | Some grooming =>
         console_log (plain "Grooming: "
                        ++ (if String.eqb (GroomingResult.grooming_risk grooming) "none"
                            then chalk [green] "Clear"
                            else chalk [red]
                                   (toUpperCase (GroomingResult.grooming_risk grooming))))
     | None => ret tt
     end ;;
     match VoiceAnalysis.emotions analysis with
     | Some emotion =>
         console_log (plain "Emotions: "
                        ++ chalk [cyan]
                             (join ", " (EmotionsResult.dominant_emotions emotion)))
     | None => ret tt
     end).

Definition yes_no (flag : bool) : string := if flag then "Yes" else "No".

Definition image_action (file type : string) : Run unit :=
  with_spinner "Analyzing image..."
    (client <- getClient ;;
     buffer <- readFileSync file ;;
     let filename := basename file in
     result <- call client (analyzeImage buffer filename type) ;;
     spinner_stop ;;
     let vision := ImageResult.vision result in
     console_log [] ;;
     console_log (chalk [bold] "Image Analysis") ;;
     console_log [] ;;
     severity <- lift (formatSeverity (ImageResult.overall_severity result)) ;;
     console_log (plain "Severity:    " ++ severity) ;;
     console_log (plain "Risk Score:  "
                    ++ chalk [cyan] (percent (ImageResult.overall_risk_score result))) ;;
     console_log [] ;;
     console_log (chalk [dim] "Vision:") ;;
     console_log (plain ("Description:  " +:+ Vision.visual_description vision)) ;;
     visual <- lift (formatSeverity (Vision.visual_severity vision)) ;;
     console_log (plain "Visual Sev.:  " ++ visual) ;;
     console_log (plain ("Has Text:     " +:+ yes_no (Vision.contains_text vision))) ;;
     console_log (plain ("Has Faces:    " +:+ yes_no (Vision.contains_faces vision))) ;;
     match given (Vision.extracted_text vision) with
     | Some extracted =>
         console_log [] ;;
         console_log (chalk [dim] "Extracted Text:") ;;
         console_log (plain extracted)
     | None => ret tt
     end ;;
     match ImageResult.text_analysis result ≫= TextAnalysis.bullying with
     | Some bullying =>
         console_log [] ;;
         console_log (plain "Bullying: "
                        ++ detected (BullyingResult.is_bullying bullying))
     | None => ret tt
     end ;;
     match ImageResult.text_analysis result ≫= TextAnalysis.unsafe with
     | Some unsafe =>
         console_log (plain "Unsafe:   " ++ detected (UnsafeResult.unsafe unsafe))
     | None => ret tt
     end).

Definition webhook_list_action : Run unit :=
  with_spinner "Fetching webhooks..."
    (client <- getClient ;;
     webhooks <- call client listWebhooks ;;
     spinner_stop ;;
     match webhooks with
     | [] => console_log (chalk [dim] "No webhooks configured.")
     | _ =>
         console_log [] ;;
         for_each webhooks
           (fun w =>
              let status := if Webhook.is_active w then chalk [green] "active"
                            else chalk [dim] "inactive" in
              console_log (chalk [bold] (Webhook.name w) ++ plain " " ++ status
                             ++ plain " " ++ chalk [dim] ("(" +:+ Webhook.id w +:+ ")")) ;;
              console_log (plain "  URL:    " ++ chalk [cyan] (Webhook.url w)) ;;
              console_log (plain ("  Events: " +:+ join ", " (Webhook.events w))))
     end).

Definition webhook_create_action (name url events : string) : Run unit :=
  with_spinner "Creating webhook..."
    (client <- getClient ;;
     result <- call client (createWebhook name url (comma_list events)) ;;
     spinner_stop ;;
     console_log [] ;;
     console_log (chalk [green; bold] "✓ Webhook created") ;;
     console_log (plain "ID:   "
                    ++ chalk [cyan] (Webhook.id (WebhookSecret.webhook result))) ;;
     console_log (plain ("Name: " +:+ Webhook.name (WebhookSecret.webhook result))) ;;
     console_log [] ;;
     console_log (chalk [yellow; bold] "Secret (save this — shown only once):") ;;
     console_log (chalk [yellow] (WebhookSecret.secret result))).

Definition webhook_update_action (id : string) (name url events : option string)
    (enable disable : bool) : Run unit :=
  with_spinner "Updating webhook..."
    (client <- getClient ;;
     webhook <- call client
                  (updateWebhook id name url (comma_list <$> given events)
                     (if enable then Some true
                      else if disable then Some false else None)) ;;
     spinner_stop ;;
     console_log [] ;;
     console_log (chalk [green; bold] "✓ Webhook updated") ;;
     console_log (plain ("Name:   " +:+ Webhook.name webhook)) ;;
     console_log (plain "Active: "
                    ++ (if Webhook.is_active webhook then chalk [green] "Yes"
                        else chalk [dim] "No"))).

Definition webhook_delete_action (id : string) : Run unit :=
  with_spinner "Deleting webhook..."
    (client <- getClient ;;
     call client (deleteWebhook id) ;;
     spinner_stop ;;
     console_log (chalk [green; bold] "✓ Webhook deleted")).

Definition webhook_test_action (id : string) : Run unit :=
  with_spinner "Testing webhook..."
    (client <- getClient ;;
     result <- call client (testWebhook id) ;;
     spinner_stop ;;
     console_log [] ;;
     console_log (if WebhookTest.success result
                  then chalk [green; bold] "✓ Webhook test passed"
                  else chalk [red; bold] "✗ Webhook test failed") ;;
     console_log (plain "Status:  "
                    ++ chalk [cyan] (Z_to_string (WebhookTest.status_code result))) ;;
     console_log (plain "Latency: "
                    ++ chalk [cyan] (Z_to_string (WebhookTest.latency_ms result) +:+ "ms")) ;;
     match given (WebhookTest.error result) with
     | Some error => console_log (plain "Error:   " ++ chalk [red] error)
     | None => ret tt
     end).

Definition webhook_regenerate_secret_action (id : string) : Run unit :=
  with_spinner "Regenerating secret..."
    (client <- getClient ;;
     secret <- call client (regenerateWebhookSecret id) ;;
     spinner_stop ;;
     console_log [] ;;
     console_log (chalk [green; bold] "✓ Secret regenerated") ;;
     console_log (chalk [yellow; bold] "New Secret (save this — shown only once):") ;;
     console_log (chalk [yellow] secret)).

Definition print_features (features : list string) : Run unit :=
  for_each features (fun f => console_log (plain ("  - " +:+ f))).

Definition pricing_action (details : bool) : Run unit :=
  with_spinner "Fetching pricing..."
    (client <- getClient ;;
     if details then
       plans <- call client getPricingDetails ;;
       spinner_stop ;;
       console_log [] ;;
       for_each plans
         (fun p =>
            console_log (chalk [bold] (PlanDetails.name p)) ;;
            console_log (plain "  Monthly: "
                           ++ chalk [cyan] (PlanDetails.price_monthly p +:+ "/mo")
                           ++ plain " | Yearly: "
                           ++ chalk [cyan] (PlanDetails.price_yearly p +:+ "/mo")) ;;
            console_log (plain "  API Calls: "
                           ++ chalk [cyan]
                                (Z_to_string (PlanDetails.api_calls_per_month p) +:+ "/mo")
                           ++ plain " | Rate Limit: "
                           ++ chalk [cyan]
                                (Z_to_string (PlanDetails.rate_limit p) +:+ "/min")) ;;
            print_features (PlanDetails.features p) ;;
            console_log [])
     else
       plans <- call client getPricing ;;
       spinner_stop ;;
       console_log [] ;;
       for_each plans
         (fun p =>
            console_log (chalk [bold] (Plan.name p) ++ plain " — "
                           ++ chalk [cyan] (Plan.price p)) ;;
            print_features (Plan.features p) ;;
            console_log [])).

Definition usage_monthly_action : Run unit :=
  with_spinner "Fetching usage..."
    (client <- getClient ;;
     result <- call client getUsageMonthly ;;
     spinner_stop ;;
     console_log [] ;;
     console_log (chalk [bold] (UsageMonthly.tier_display_name result +:+ " Plan")) ;;
     console_log [] ;;
     console_log (plain "Used:       "
                    ++ chalk [cyan] (Z_to_string (UsageMonthly.used result))
                    ++ plain (" / " +:+ Z_to_string (UsageMonthly.limit result)
                                +:+ " (" +:+ toFixed (UsageMonthly.percent_used result) 1
                                +:+ "%)")) ;;
     console_log (plain "Remaining:  "
                    ++ chalk [cyan] (Z_to_string (UsageMonthly.remaining result))) ;;
     console_log (plain "Rate Limit: "
                    ++ chalk [cyan]
                         (Z_to_string (UsageMonthly.requests_per_minute result)
                            +:+ "/min")) ;;
     console_log (plain "Period:     "
                    ++ chalk [dim] (UsageMonthly.current_period_start result +:+ " → "
                                      +:+ UsageMonthly.current_period_end result)) ;;
     console_log (plain "Days Left:  "
                    ++ chalk [cyan] (Z_to_string (UsageMonthly.days_remaining result))) ;;
     match UsageMonthly.recommendations result with
     | Some r =>
         if Recommendations.should_upgrade r then
           console_log [] ;;
           console_log (chalk [yellow]
                          ("Recommendation: " +:+ Recommendations.reason r)) ;;
           console_log (chalk [yellow]
                          ("Suggested: " +:+ Recommendations.suggested_tier r))
         else ret tt
     | None => ret tt
     end).

Definition usage_history_action (days : string) : Run unit :=
  with_spinner "Fetching history..."
    (client <- getClient ;;
     history <- call client (getUsageHistory (parseInt days None)) ;;
     spinner_stop ;;
     match history with
     | [] => console_log (chalk [dim] "No usage data available.")
     | _ =>
         console_log [] ;;
         console_log (chalk [bold] "Date          Total  Success  Errors") ;;
         console_log (chalk [dim] (repeat_string "─" 45)) ;;
         for_each history
           (fun d =>
              console_log
                (plain (UsageDay.date d +:+ "  "
                          +:+ padStart (Z_to_string (UsageDay.total_requests d)) 5 +:+ "  "
                          +:+ padStart (Z_to_string (UsageDay.success_requests d)) 7 +:+ "  "
                          +:+ padStart (Z_to_string (UsageDay.error_requests d)) 6)))
     end).

Definition usage_by_tool_action (date : option string) : Run unit :=
  with_spinner "Fetching usage..."
    (client <- getClient ;;
     result <- call client (getUsageByTool date) ;;
     spinner_stop ;;
     console_log [] ;;
     console_log (chalk [bold] ("Usage by Tool — " +:+ UsageByTool.date result)) ;;
     console_log [] ;;
     match UsageByTool.tools result with
     | [] => console_log (chalk [dim] "  No data for this date.")
     | tools =>
         for_each tools
           (fun '(tool, count) =>
              console_log (plain ("  " +:+ padEnd tool 25 +:+ " ")
                             ++ chalk [cyan] (Z_to_string count)))
     end).

(** The action commander runs for a parsed invocation. *)
Definition action (c : Command) : Run unit :=
  match c with
  | login apiKey => login_action apiKey
  | logout => logout_action
  | whoami => whoami_action
  | detect_bullying text => detect_bullying_action text
  | detect_grooming messages age => detect_grooming_action messages age
  | detect_unsafe text => detect_unsafe_action text
  | analyze_text text => analyze_action text
  | emotions text => emotions_action text
  | action_plan situation age audience severity =>
      action_plan_action situation age audience severity
  | account_delete confirm => account_delete_action confirm
  | account_export output => account_export_action output
  | account_consent_record type version => consent_record_action type version
  | account_consent_status type => consent_status_action type
  | account_consent_withdraw type => consent_withdraw_action type
  | account_audit_logs act limit => audit_logs_action act limit
  | breach_log title description severity users categories reportedBy =>
      breach_log_action title description severity users categories reportedBy
  | breach_list status limit => breach_list_action status limit
  | breach_get id => breach_get_action id
  | breach_update id status notification notes =>
      breach_update_action id status notification notes
  | voice file type language age => voice_action file type language age
  | image file type => image_action file type
  | webhook_list => webhook_list_action
  | webhook_create name url events => webhook_create_action name url events
  | webhook_update id name url events enable disable =>
      webhook_update_action id name url events enable disable
  | webhook_delete id => webhook_delete_action id
  | webhook_test id => webhook_test_action id
  | webhook_regenerate_secret id => webhook_regenerate_secret_action id
  | pricing details => pricing_action details
  | usage_monthly => usage_monthly_action
  | usage_history days => usage_history_action days
  | usage_by_tool date => usage_by_tool_action date
  end.

(** One run of the program: the exit status and the final world.  A run that
    comes to its end exits with 0, an uncaught exception with 1. *)
Definition run (c : Command) (w : World) : Z * World :=
  match action c w with
  | (Done _, w') => (0, w')
  | (Threw _, w') => (1, w')
  | (Exited code, w') => (code, w')
  end.

End Actions.

(** ** Reading a trace *)

Definition is_remote (e : Event) : bool :=
  match e with
  | Remote _ _ _ => true
  | _ => false
  end.

(** The number of remote operations a run attempted. *)
Definition remote_calls (t : list Event) : nat := length (filter is_remote t).

(** What went to standard output and to the error stream, line by line. *)
Definition stdout (t : list Event) : list Text :=
  omap (fun e => match e with Log line => Some line | _ => None end) t.

Definition stderr (t : list Event) : list Text :=
  omap (fun e => match e with LogError line => Some line | _ => None end) t.

(** A world with nothing printed yet. *)
Definition world (cfg files_ : gmap string string) : World :=
  {| config := cfg; files := files_; trace := [] |}.

(** ** Hosts for the examples *)

Definition fetch_failed : Thrown := JsError "Error" "fetch failed".

(** A host whose SDK accepts every key and answers as [answer] says. *)
Definition example_host (answer : forall R : Type, Request R -> Thrown + R) : Host :=
  {| config_path := "/home/user/.config/tuteliq-nodejs/config.json";
     new_Tuteliq := fun _ => None;
     remote := fun R _ request => answer R request;
     write_error := fun _ => None;
     Number_toString := fun _ => "1e+21";
     syntax_message := fun text => "Unexpected token in JSON: " +:+ text |}.

(** The service cannot be reached. *)
Definition offline_host : Host := example_host (fun _ _ => inl fetch_failed).

(** The doubles 0.87, 0.045 and 0.125. *)
Definition d0_87 : binary64 := S754_finite false 7836263351624663 (-53).
Definition d0_045 : binary64 := S754_finite false 6485183463413514 (-57).
Definition d0_125 : binary64 := S754_finite false 4503599627370496 (-55).

Definition sample_bullying : BullyingResult.t :=
  {| BullyingResult.is_bullying := true;
     BullyingResult.severity := "high";
     BullyingResult.confidence := d0_87;
     BullyingResult.risk_score := d0_125;
     BullyingResult.bullying_type := Some ["verbal"; "exclusion"];
     BullyingResult.rationale := "Repeated insults.";
     BullyingResult.recommended_action := "flag_for_moderator" |}.

Definition sample_unsafe : UnsafeResult.t :=
  {| UnsafeResult.unsafe := false;
     UnsafeResult.severity := "low";
     UnsafeResult.confidence := d0_87;
     UnsafeResult.risk_score := d0_045;
     UnsafeResult.categories := Some [];
     UnsafeResult.rationale := "Nothing harmful.";
     UnsafeResult.recommended_action := "none" |}.

Definition sample_grooming : GroomingResult.t :=
  {| GroomingResult.grooming_risk := "safe";
     GroomingResult.confidence := d0_87;
     GroomingResult.risk_score := d0_045;
     GroomingResult.flags := Some ["secrecy"; "gift offers"];
     GroomingResult.rationale := "Ordinary conversation.";
     GroomingResult.recommended_action := "none" |}.

Definition sample_breach : Breach.t :=
  {| Breach.id := "br_1";
     Breach.title := "Lost laptop";
     Breach.description := "An unencrypted laptop was lost.";
     Breach.severity := "medium";
     Breach.status := "detected";
     Breach.notification_status := "pending";
     Breach.reported_by := "ops";
     Breach.notification_deadline := "2026-01-04T00:00:00Z";
     Breach.created_at := "2026-01-01T00:00:00Z";
     Breach.updated_at := "2026-01-01T00:00:00Z";
     Breach.affected_user_ids := [];
     Breach.data_categories := [] |}.

Definition sample_export : json :=
  JObject [("user", JString "u_1");
           ("records", JArray [JObject [("score", JNumber 87 (-2));
                                        ("flagged", JBool true)]]);
           ("deleted", JNull)].

(** A service that answers the requests of the examples. *)
Definition sample_answer (R : Type) (request : Request R) : Thrown + R :=
  match request in Request R0 return Thrown + R0 with
  | detectBullying _ => inr sample_bullying
  | detectUnsafe _ => inr sample_unsafe
  | detectGrooming _ _ => inr sample_grooming
  | getBreach _ => inr sample_breach
  | exportAccountData => inr sample_export
  | _ => inl fetch_failed
  end.

Definition sample_host : Host := example_host sample_answer.

(** A service whose bullying result carries a severity outside the four. *)
Definition odd_bullying (severity : string) : BullyingResult.t :=
  {| BullyingResult.is_bullying := false;
     BullyingResult.severity := severity;
     BullyingResult.confidence := d0_87;
     BullyingResult.risk_score := d0_125;
     BullyingResult.bullying_type := None;
     BullyingResult.rationale := "";
     BullyingResult.recommended_action := "none" |}.

Definition odd_answer (severity : string) (R : Type) (request : Request R)
  : Thrown + R :=
  match request in Request R0 return Thrown + R0 with
  | detectBullying _ => inr (odd_bullying severity)
  | _ => inl fetch_failed
  end.

Definition odd_host (severity : string) : Host := example_host (odd_answer severity).

Definition not_a_function (callee : string) : Thrown :=
  JsError "TypeError" (callee +:+ " is not a function").

(** A world whose store holds a key and whose trace is empty. *)
Definition sample_world : World := world {[ "apiKey" := "sk_test_0123456789" ]} ∅.

(** * Properties *)

(** ** The credential check *)

Definition not_logged_in : Text :=
  chalk [red] "Not logged in. Run: tuteliq login <api-key>".

Definition add_events (w : World) (es : list Event) : World :=
  {| config := config w; files := files w; trace := trace w ++ es |}.

Definition syntax_error `{Host} (text : string) : Thrown :=
  JsError "SyntaxError" (syntax_message text).

(** A value with its numbers in canonical form; the members and their order
    are kept. *)
Fixpoint canonical (v : json) : json :=
  match v with
  | JNumber m e => let '(m', e') := norm10 m e in JNumber m' e'
  | JArray items => JArray (map canonical items)
  | JObject members =>
      JObject (map (fun kv : string * json => (fst kv, canonical (snd kv))) members)
  | _ => v
  end.

(** The number a run of digits denotes, on top of [acc]. *)
Fixpoint value_of (acc : Z) (ds : list ascii) : Z :=
  match ds with
  | [] => acc
  | c :: ds' => value_of (acc * 10 + (Z.of_nat (nat_of_ascii c) - 48)) ds'
  end.

Definition is_digit_char (c : ascii) : Prop :=
  48 <= Z.of_nat (nat_of_ascii c) <= 57.

(** What may follow a numeral: nothing, or a character that is no part of one. *)
Definition number_end (rest : list ascii) : Prop :=
  match rest with
  | [] => True
  | c :: _ =>
      ~ is_digit_char c /\ c <> "."%char /\ c <> "e"%char /\ c <> "E"%char
  end.

Definition no_digit (rest : list ascii) : Prop :=
  match rest with
  | [] => True
  | c :: _ => ~ is_digit_char c
  end.

(** What follows a value inside a text: nothing, white space, a comma or a
    closing bracket. *)
Definition delimited (rest : list ascii) : Prop :=
  match rest with
  | [] => True
  | c :: _ =>
      JSON.is_ws c = true \/ c = ","%char \/ c = "]"%char \/ c = "}"%char
  end.

(** The elements of an array after the first, with the closing bracket, and
    the members of an object after the first, as [JSON.stringify] prints them. *)
Definition more_items (gap indent : nat) (items : list json) : list ascii :=
  flat_map (fun y => ","%char :: JSON.line_break gap (indent + gap)
                       ++ JSON.stringify_chars gap (indent + gap) y) items
    ++ JSON.line_break gap indent ++ ["]"%char].

Definition more_members (gap indent : nat) (members : list (string * json))
  : list ascii :=
  flat_map (fun ky => ","%char :: JSON.line_break gap (indent + gap)
                        ++ JSON.quote (fst ky) ++ JSON.colon gap
                        ++ JSON.stringify_chars gap (indent + gap) (snd ky)) members
    ++ JSON.line_break gap indent ++ ["}"%char].

(** A printed value is read back as its canonical form, whatever follows it. *)
Definition reads_back (gap : nat) (v : json) : Prop :=
  forall (indent fuel : nat) (rest : list ascii),
    delimited rest ->
    (length (JSON.stringify_chars gap indent v) < fuel)%nat ->
    JSON.parse_value fuel (JSON.stringify_chars gap indent v ++ rest)
    = Some (canonical v, rest).

(** The lines [print_rationale] prints. *)
Definition rationale_lines (rationale recommended_action : string) : list Text :=
  [[]; chalk [dim] "Rationale:"; plain rationale; [];
   plain "Action: " ++ chalk [yellow] recommended_action].

Definition grooming_detected : Text := chalk [red; bold] "⚠ GROOMING RISK DETECTED".
Definition no_grooming : Text := chalk [green; bold] "✓ No grooming detected".

(** The lines of [breach get] up to the two lists. *)
Definition breach_head (b : Breach.t) (severity : Text) : list Text :=
  [[]; chalk [bold] (Breach.title b); [];
   plain "ID:            " ++ chalk [cyan] (Breach.id b);
   plain "Severity:      " ++ severity;
   plain "Status:        " ++ chalk [yellow] (Breach.status b);
   plain "Notification:  " ++ chalk [yellow] (Breach.notification_status b);
   plain ("Reported By:   " +:+ Breach.reported_by b);
   plain "Deadline:      " ++ chalk [dim] (Breach.notification_deadline b);
   plain "Created:       " ++ chalk [dim] (Breach.created_at b);
   plain "Updated:       " ++ chalk [dim] (Breach.updated_at b);
   []; chalk [dim] "Description:"; plain (Breach.description b); []].

(** A usable credential: a non-empty key in the store that the SDK accepts. *)
Definition logged_in `{Host} (w : World) (key : string) : Prop :=
  config w !! "apiKey" = Some key /\ truthy key = true /\ new_Tuteliq key = None.

Definition logged_out_lines : list Event :=
  [Log (chalk [yellow] "Not logged in"); Log (chalk [dim] "Run: tuteliq login <api-key>")].

Definition logged_in_lines (key : string) : list Event :=
  [Log (chalk [green] "✓ Logged in"); Log (chalk [dim] ("API Key: " +:+ masked key))].

(** ** The shape of a run *)

(** The exit status of a finished action: 0 at its end, 1 after an uncaught
    exception, the argument of [process.exit] otherwise. *)
Definition status {A : Type} (o : Outcome A) : Z :=
  match o with
  | Done _ => 0
  | Threw _ => 1
  | Exited code => code
  end.

(** The commands whose action starts a spinner and asks for the client. *)
Definition uses_spinner (c : Command) : bool :=
  match c with
  | login _ | logout | whoami | account_delete false => false
  | _ => true
  end.

(** The commands whose action calls [formatSeverity] or [formatRisk]. *)
Definition formats_label (c : Command) : bool :=
  match c with
  | detect_bullying _ | detect_grooming _ _ | detect_unsafe _ | analyze_text _
  | breach_log _ _ _ _ _ _ | breach_list _ _ | breach_get _
  | voice _ _ _ _ | image _ _ => true
  | _ => false
  end.

(** The key a remote operation was made with. *)
Definition event_key (e : Event) : option string :=
  match e with
  | Remote _ key _ => Some key
  | _ => None
  end.

(** A remote operation that the service answered with a result. *)
Definition answered `{Host} (e : Event) : bool :=
  match e with
  | Remote R key request =>
      match remote R key request with
      | inr _ => true
      | inl _ => false
      end
  | _ => false
  end.

(** An exception of one of the two formatters. *)
Definition label_error (e : Thrown) : Prop :=
  exists label : string, formatSeverity label = inl e \/ formatRisk label = inl e.

(** An exception of [fs.writeFileSync]. *)
Definition write_failure `{Host} (e : Thrown) : Prop :=
  exists path : string, write_error path = Some e.

Definition no_error (e : Thrown) : Prop := False.

(** What a command can throw once the service has answered. *)
Definition late_cause `{Host} (c : Command) (e : Thrown) : Prop :=
  match c with
  | account_export _ => write_failure e
  | _ => if formats_label c then label_error e else False
  end.

(** A computation that only prints lines on standard output; what it throws
    satisfies [late]. *)
Definition prints `{Host} (late : Thrown -> Prop) {A : Type} (m : Run A) : Prop :=
  forall w : World,
    exists lines : list Text,
      snd (m w) = add_events w (map Log lines)
      /\ match fst (m w) with
         | Done _ => True
         | Threw e => late e
         | Exited _ => False
         end.

(** A computation that leaves the world as it is and does not exit. *)
Definition silent {A : Type} (m : Run A) : Prop :=
  forall w : World,
    snd (m w) = w /\ forall code : Z, fst (m w) <> Exited code.

(** What the body of a command does with a client for [key]: it fails before
    the request, the request fails, or the service answers and the lines are
    printed, to the end or until something is thrown. *)
Inductive Served `{Host} (late : Thrown -> Prop) (key : string) (w : World)
  : Outcome unit * World -> Prop :=
| served_before (e : Thrown) : Served late key w (Threw e, w)
| served_refused (R : Type) (req : Request R) (e : Thrown) :
    remote R key req = inl e ->
    Served late key w (Threw e, add_events w [Remote R key req])
| served_answered (R : Type) (req : Request R) (r : R) (lines : list Text) :
    remote R key req = inr r ->
    Served late key w
      (Done tt, add_events w (Remote R key req :: SpinnerStop :: map Log lines))
| served_late (R : Type) (req : Request R) (r : R) (lines : list Text) (e : Thrown) :
    remote R key req = inr r ->
    late e ->
    Served late key w
      (Threw e, add_events w (Remote R key req :: SpinnerStop :: map Log lines)).

Definition serves `{Host} (late : Thrown -> Prop) (key : string) (m : Run unit) : Prop :=
  forall w : World, Served late key w (m w).

(** The events a command with a spinner adds to the trace, with its exit
    status, when the store holds [stored] under [apiKey]. *)
Inductive SpinnerShape `{Host} (late : Thrown -> Prop) (stored : option string)
  : Z -> list Event -> Prop :=
| shape_no_key (text : string) :
    given stored = None ->
    SpinnerShape late stored 1 [SpinnerStart text; LogError not_logged_in]
| shape_before_call (text key : string) (e : Thrown) :
    given stored = Some key ->
    SpinnerShape late stored 1
      [SpinnerStart text; SpinnerStop; LogError (error_line e)]
| shape_refused (text key : string) (R : Type) (req : Request R) (e : Thrown) :
    given stored = Some key ->
    remote R key req = inl e ->
    SpinnerShape late stored 1
      [SpinnerStart text; Remote R key req; SpinnerStop; LogError (error_line e)]
| shape_answered (text key : string) (R : Type) (req : Request R) (r : R)
    (lines : list Text) :
    given stored = Some key ->
    remote R key req = inr r ->
    SpinnerShape late stored 0
      (SpinnerStart text :: Remote R key req :: SpinnerStop :: map Log lines)
| shape_late (text key : string) (R : Type) (req : Request R) (r : R)
    (lines : list Text) (e : Thrown) :
    given stored = Some key ->
    remote R key req = inr r ->
    late e ->
    SpinnerShape late stored 1
      (SpinnerStart text :: Remote R key req :: SpinnerStop :: map Log lines
         ++ [SpinnerStop; LogError (error_line e)]).

(** The local input of a command can be used, so that the command comes to
    its request: the messages are JSON, the file to analyze exists. *)
Definition reaches_service (c : Command) (w : World) : Prop :=
  match c with
  | detect_grooming messages _ => is_Some (JSON.parse messages)
  | voice file _ _ _ | image file _ => is_Some (files w !! file)
  | _ => True
  end.

(** The exception of [fs.readFileSync] on a path that does not exist. *)
Definition no_such_file (path : string) : Thrown :=
  JsError "Error" ("ENOENT: no such file or directory, open '" +:+ path +:+ "'").

(** The labels on which the formatters throw: the members of
    [Object.prototype] that cannot be called without a receiver. *)
Definition throwing_labels : list string :=
  ["__proto__"; "__defineGetter__"; "__defineSetter__"; "hasOwnProperty";
   "__lookupGetter__"; "__lookupSetter__"; "propertyIsEnumerable"; "valueOf";
   "toLocaleString"].

(** What may follow the numeral of [n] that [parseInt] reads with [radix]:
    nothing, or a character that is no digit; after the numeral [0], read
    without a radix, the character is not the [x] of a hexadecimal prefix
    either. *)
Definition numeral_end (n : Z) (radix : option Z) (rest : string) : Prop :=
  match chars rest with
  | [] => True
  | c :: _ =>
      ~ is_digit_char c
      /\ (n = 0 -> radix = None -> c <> "x"%char /\ c <> "X"%char)
  end.

(** A list element as [comma_list] gives it: no comma in it and no white
    space around it. *)
Definition clean (x : string) : Prop := trim x = x /\ ~ In ","%char (chars x).

(** A service that answers every listing with the empty list. *)
Definition empty_answer (R : Type) (request : Request R) : Thrown + R :=
  match request in Request R0 return Thrown + R0 with
  | getConsentStatus _ => inr []
  | getAuditLogs _ _ => inr []
  | listBreaches _ _ => inr []
  | listWebhooks => inr []
  | getUsageHistory _ => inr []
  | _ => inl fetch_failed
  end.

Definition empty_host : Host := example_host empty_answer.

(** Whether nothing is printed while the spinner runs; [spinning] tells
    whether it runs before the first of the events. *)
Fixpoint quiet_while_spinning (spinning : bool) (es : list Event) : bool :=
  match es with
  | [] => true
  | SpinnerStart _ :: es' => quiet_while_spinning true es'
  | SpinnerStop :: es' => quiet_while_spinning false es'
  | Log _ :: es' | LogError _ :: es' => negb spinning && quiet_while_spinning spinning es'
  | Remote _ _ _ :: es' => quiet_while_spinning spinning es'
  end.

(** A text in which [parseInt] finds no number: after the white space at its
    start comes nothing, or a character that is neither a digit nor a sign. *)
Definition no_numeral (s : string) : Prop :=
  match trimStart_chars (chars s) with
  | [] => True
  | c :: _ => ~ is_digit_char c /\ c <> "+"%char /\ c <> "-"%char
  end.

(** ** A host that cannot write *)

(** The sample service on a machine where no file can be written. *)
Definition readonly_host : Host :=
  {| config_path := "/home/user/.config/tuteliq-nodejs/config.json";
     new_Tuteliq := fun _ => None;
     remote := fun R _ request => sample_answer R request;
     write_error := fun path =>
       Some (JsError "Error" ("EACCES: permission denied, open '" +:+ path +:+ "'"));
     Number_toString := fun _ => "1e+21";
     syntax_message := fun text => "Unexpected token in JSON: " +:+ text |}.

(** ** Shifting a mantissa *)

(** What [k] steps of [shr_1] keep of the number [X] they started from: the
    mantissa is [X / 2^k], the round bit is the bit of [X] below it, and the
    sticky bit tells whether a lower bit is set. *)
Definition shr_inv (X k : Z) (mrs : shr_record) : Prop :=
  0 <= shr_m mrs
  /\ exists L : Z,
       0 <= L < 2 ^ k
       /\ 2 * X = shr_m mrs * 2 ^ (k + 1) + (if shr_r mrs then 2 ^ k else 0) + L
       /\ (shr_s mrs = false <-> L = 0).

(** ** The values JavaScript holds *)

(** The key of an object that is an array index: the canonical numeral of an
    integer from 0 to 2^32 - 2. *)
Definition array_index (k : string) : option Z :=
  let ds := chars k in
  let n := value_of 0 ds in
  if forallb JSON.is_digit ds && String.eqb (str (digits n)) k && (n <=? 4294967294)
  then Some n else None.

(** OrdinaryOwnPropertyKeys: the array indices in ascending order, then the
    other keys.  [prev] is the last index seen, [names] tells that a key that
    is no index has been seen. *)
Fixpoint own_keys_order (prev : Z) (names : bool) (ks : list string) : bool :=
  match ks with
  | [] => true
  | k :: ks' =>
      match array_index k with
      | Some i => negb names && (prev <? i) && own_keys_order i false ks'
      | None => own_keys_order prev true ks'
      end
  end.

(** A decimal that a double holds apart from every other decimal of its
    length, and that [Number::toString] prints with its own digits: in
    canonical form, of at most 15 significant digits, from 10^-307 to 10^307
    in magnitude. *)
Definition js_number (m e : Z) : bool :=
  let '(m', e') := norm10 m e in
  (m' =? m) && (e' =? e) && (Z.abs m <? 10 ^ 15) && (-307 <=? e) && (e <=? 292).

(** The values of type [json] that stand for a JavaScript value as
    [JSON.parse] builds it: the numbers are [js_number]s, the keys of an
    object are distinct and in the order of its own keys. *)
Fixpoint js_value (v : json) : bool :=
  match v with
  | JNumber m e => js_number m e
  | JArray items => forallb js_value items
  | JObject members =>
      bool_decide (NoDup (map fst members))
      && own_keys_order (-1) false (map fst members)
      && forallb (fun kv : string * json => js_value (snd kv)) members
  | _ => true
  end.

(** ** The place of a character in the mask *)

(** Where the mask of a key of [len] characters shows the character that the
    key has at [i]: in the first slice for the first eight, in the last
    slice, after the three dots, for the others. *)
Definition mask_index (len i : nat) : nat :=
  if (i <? 8)%nat then i else (Nat.min 8 len + 3 + (i - (len - 4)))%nat.

Create HintDb actions.

#[local] Hint Unfold detect_bullying_action detect_grooming_action
  detect_unsafe_action analyze_action emotions_action action_plan_action
  account_export_action consent_record_action consent_status_action
  consent_withdraw_action audit_logs_action breach_log_action breach_list_action
  breach_get_action breach_update_action voice_action image_action
  webhook_list_action webhook_create_action webhook_update_action
  webhook_delete_action webhook_test_action webhook_regenerate_secret_action
  pricing_action usage_monthly_action usage_history_action usage_by_tool_action
  : actions.

Section Credential.
Context `{Host}.

Lemma getClient_missing (w : World) :
  config w !! "apiKey" = None ->
  getClient w = (Exited 1, add_events w [LogError not_logged_in]).
Proof.
  intros Hnone. unfold getClient, bind, config_get. rewrite Hnone. reflexivity.
Qed.

Lemma with_spinner_missing (text : string) (k : Client -> Run unit) (w : World) :
  config w !! "apiKey" = None ->
  with_spinner text (bind getClient k) w
  = (Exited 1, add_events w [SpinnerStart text; LogError not_logged_in]).
Proof.
  intros Hnone. unfold with_spinner, bind at 1, try_catch, emit, bind.
  rewrite getClient_missing by exact Hnone.
  unfold add_events; cbn. rewrite <- app_assoc. reflexivity.
Qed.

Lemma remote_calls_app (t1 t2 : list Event) :
  remote_calls (t1 ++ t2) = (remote_calls t1 + remote_calls t2)%nat.
Proof. unfold remote_calls. rewrite filter_app, length_app. reflexivity. Qed.

Lemma stderr_app (t1 t2 : list Event) : stderr (t1 ++ t2) = stderr t1 ++ stderr t2.
Proof. unfold stderr. apply omap_app. Qed.

Lemma stdout_app (t1 t2 : list Event) : stdout (t1 ++ t2) = stdout t1 ++ stdout t2.
Proof. unfold stdout. apply omap_app. Qed.

(** C1, as amended.  Every authenticated command other than [account delete]
    without [--confirm], run with no API key in the store, prints the
    authentication error on the error stream and exits with status 1; the
    run consists of the spinner start and that one line, so no remote
    operation is attempted and the store and the files are untouched. *)
Theorem missing_credential_exits_1 (c : Command) (w : World) :
  authenticated c = true ->
  c <> account_delete false ->
  config w !! "apiKey" = None ->
  exists text : string,
    run c w = (1, add_events w [SpinnerStart text; LogError not_logged_in])
    /\ remote_calls (trace (snd (run c w))) = remote_calls (trace w)
    /\ stderr (trace (snd (run c w))) = stderr (trace w) ++ [not_logged_in].
Proof.
  intros Hauth Hnot Hnone.
  assert (Hgoal : exists text : string,
             run c w = (1, add_events w [SpinnerStart text; LogError not_logged_in])).
  { destruct c; try discriminate Hauth;
      try (eexists; unfold run; cbn [action]; autounfold with actions;
           rewrite with_spinner_missing by exact Hnone; reflexivity).
    destruct confirm; [| exfalso; apply Hnot; reflexivity].
    eexists. unfold run; cbn [action]. unfold account_delete_action, bind at 1, ret.
    rewrite with_spinner_missing by exact Hnone. reflexivity. }
  destruct Hgoal as [text Hrun]. exists text. rewrite Hrun. cbn [snd add_events trace].
  split; [reflexivity |]. split.
  - rewrite remote_calls_app.
    change (remote_calls [SpinnerStart text; LogError not_logged_in]) with 0%nat. lia.
  - rewrite stderr_app. reflexivity.
Qed.

(** [account delete] without [--confirm] stops before the credential is read:
    it prints its warning and exits with status 0. *)
Lemma account_delete_unconfirmed (w : World) :
  run (account_delete false) w
  = (0, add_events w
          [Log (chalk [red; bold]
                  "⚠ WARNING: This will permanently delete ALL your account data.");
           Log (chalk [dim] "Run with --confirm to proceed.")]).
Proof.
  unfold run; cbn [action]. unfold account_delete_action, add_events. cbn.
  rewrite <- app_assoc. reflexivity.
Qed.

End Credential.

(** C1 fails as stated: with no API key in the store, [account delete] without
    [--confirm] is an authenticated command that exits with status 0. *)
Lemma account_delete_unconfirmed_exits_0 :
  ~ (forall (H : Host) (c : Command) (w : World),
        authenticated c = true ->
        config w !! "apiKey" = None ->
        fst (run c w) = 1).
Proof.
  intros claim.
  specialize (claim offline_host (account_delete false) (world ∅ ∅) eq_refl
                (lookup_empty _)).
  rewrite account_delete_unconfirmed in claim. discriminate claim.
Qed.

Lemma missing_credential_exits_1_witness :
  exists text : string,
    @run offline_host (detect_bullying "hello") (world ∅ ∅)
    = (1, add_events (world ∅ ∅) [SpinnerStart text; LogError not_logged_in])
    /\ remote_calls (trace (snd (@run offline_host (detect_bullying "hello") (world ∅ ∅))))
       = remote_calls (trace (world ∅ ∅))
    /\ stderr (trace (snd (@run offline_host (detect_bullying "hello") (world ∅ ∅))))
       = stderr (trace (world ∅ ∅)) ++ [not_logged_in].
Proof.
  apply (@missing_credential_exits_1 offline_host (detect_bullying "hello") (world ∅ ∅)).
  - reflexivity.
  - discriminate.
  - reflexivity.
Defined.

(** ** Login, logout and whoami *)

Lemma chars_str (l : list ascii) : chars (str l) = l.
Proof. apply list_ascii_of_string_of_list_ascii. Qed.

Lemma str_chars (s : string) : str (chars s) = s.
Proof. apply string_of_list_ascii_of_string. Qed.

Lemma chars_app (a b : string) : chars (a +:+ b) = chars a ++ chars b.
Proof.
  unfold chars. induction a as [| c a IH]; [reflexivity |].
  change (String c a +:+ b) with (String c (a +:+ b)).
  cbn [list_ascii_of_string app]. rewrite IH. reflexivity.
Qed.

Lemma truthy_nonempty (s : string) : truthy s = true <-> s <> "".
Proof. destruct s; cbn; split; congruence. Qed.

Lemma slice_first_8 (k : string) : slice k 0 (Some 8) = str (take 8 (chars k)).
Proof.
  unfold slice, clamp_index. cbn [Z.ltb Z.compare Z.to_nat].
  rewrite Nat.min_0_l, Nat.sub_0_r, drop_0. f_equal.
  change (Z.to_nat 8) with 8%nat.
  destruct (Nat.le_gt_cases 8 (length (chars k))) as [Hle | Hgt].
  - rewrite Nat.min_l by exact Hle. reflexivity.
  - rewrite Nat.min_r by lia. rewrite !take_ge by lia. reflexivity.
Qed.

Lemma slice_last_4 (k : string) :
  slice k (-4) None = str (drop (strlen k - 4) (chars k)).
Proof.
  unfold slice, clamp_index, strlen. cbn [Z.ltb Z.compare].
  set (len := length (chars k)).
  assert (Hfrom : Z.to_nat (Z.max (Z.of_nat len + -4) 0) = (len - 4)%nat) by lia.
  rewrite Hfrom. f_equal. apply take_ge. rewrite length_drop. lia.
Qed.

(** What the program prints for a key: its first 8 and its last 4 characters. *)
Lemma masked_first_8_last_4 (k : string) :
  masked k = str (take 8 (chars k)) +:+ "..." +:+ str (drop (strlen k - 4) (chars k)).
Proof. unfold masked. rewrite slice_first_8, slice_last_4. reflexivity. Qed.

Section Session.
Context `{Host}.

Lemma run_login (k : string) (w : World) :
  run (login k) w
  = (0, {| config := <[ "apiKey" := k ]> (config w); files := files w;
           trace := trace w
                    ++ [Log (chalk [green] "✓ API key saved successfully!");
                        Log (chalk [dim] ("Your key is stored locally at: "
                                            +:+ config_path))] |}).
Proof. unfold run; cbn. rewrite <- app_assoc. reflexivity. Qed.

Lemma run_logout (w : World) :
  run logout w
  = (0, {| config := delete "apiKey" (config w); files := files w;
           trace := trace w ++ [Log (chalk [green] "✓ Logged out successfully!")] |}).
Proof. reflexivity. Qed.

Lemma run_whoami_key (key : string) (w : World) :
  config w !! "apiKey" = Some key ->
  truthy key = true ->
  run whoami w = (0, add_events w (logged_in_lines key)).
Proof.
  intros Hkey Htruthy. unfold run; cbn [action].
  unfold whoami_action, bind at 1, config_get. rewrite Hkey.
  unfold given. rewrite Htruthy. unfold add_events; cbn. rewrite <- app_assoc.
  reflexivity.
Qed.

Lemma run_whoami_none (w : World) :
  given (config w !! "apiKey") = None ->
  run whoami w = (0, add_events w logged_out_lines).
Proof.
  intros Hnone. unfold run; cbn [action].
  unfold whoami_action, bind at 1, config_get. rewrite Hnone.
  unfold add_events; cbn. rewrite <- app_assoc. reflexivity.
Qed.

(** C5, as amended.  After [login] with any non-empty key, [whoami] reports
    the logged-in state and shows the key masked to its first 8 and last 4
    characters. *)
Theorem whoami_after_login (k : string) (w : World) :
  truthy k = true ->
  let w1 := snd (run (login k) w) in
  run whoami w1 = (0, add_events w1 (logged_in_lines k))
  /\ masked k = str (take 8 (chars k)) +:+ "..." +:+ str (drop (strlen k - 4) (chars k)).
Proof.
  intros Htruthy w1. split; [| apply masked_first_8_last_4].
  apply run_whoami_key; [| exact Htruthy].
  unfold w1. rewrite run_login. cbn [snd config]. apply lookup_insert_eq.
Qed.

(** C6.  After [login k], [logout] removes the stored key and the next
    [whoami] reports the logged-out state.  On any store, with a key or
    without, [logout] exits with 0 and deletes the key, and a second [logout]
    leaves the store as the first one left it. *)
Theorem logout_removes_credential (k : string) (w : World) :
  let w1 := snd (run (login k) w) in
  let w2 := snd (run logout w1) in
  let w3 := snd (run logout w2) in
  fst (run logout w1) = 0
  /\ config w2 !! "apiKey" = None
  /\ run whoami w2 = (0, add_events w2 logged_out_lines)
  /\ fst (run logout w2) = 0
  /\ config w3 = config w2
  /\ config w3 !! "apiKey" = None
  /\ fst (run logout w) = 0
  /\ config (snd (run logout w)) = delete "apiKey" (config w)
  /\ config (snd (run logout (snd (run logout w)))) = config (snd (run logout w)).
Proof.
  intros w1 w2 w3. unfold w3, w2. rewrite !run_logout. cbn [fst snd config].
  assert (Hgone : forall c : gmap string string, delete "apiKey" c !! "apiKey" = None)
    by (intros c; apply lookup_delete_eq).
  split_and!.
  - reflexivity.
  - apply Hgone.
  - apply run_whoami_none. cbn [config]. rewrite Hgone. reflexivity.
  - reflexivity.
  - apply delete_id, Hgone.
  - rewrite delete_id by apply Hgone. apply Hgone.
  - reflexivity.
  - reflexivity.
  - apply delete_id, Hgone.
Qed.

End Session.

(** C5 fails as stated: [login] accepts the empty key, and [whoami] then
    reports the logged-out state. *)
Lemma whoami_after_login_empty_key :
  ~ (forall (H : Host) (k : string) (w : World),
        run whoami (snd (run (login k) w))
        = (0, add_events (snd (run (login k) w)) (logged_in_lines k))).
Proof.
  intros claim. specialize (claim offline_host "" (world ∅ ∅)).
  rewrite run_login in claim. cbn [snd] in claim.
  rewrite run_whoami_none in claim.
  - apply (f_equal (fun r => trace (snd r))) in claim.
    cbn [snd trace add_events] in claim.
    apply app_inv_head in claim. discriminate claim.
  - cbn [config world]. rewrite lookup_insert_eq. reflexivity.
Qed.

Lemma whoami_after_login_witness :
  let w1 := snd (@run offline_host (login "abc123") (world ∅ ∅)) in
  @run offline_host whoami w1 = (0, add_events w1 (logged_in_lines "abc123"))
  /\ masked "abc123"
     = str (take 8 (chars "abc123")) +:+ "..."
         +:+ str (drop (strlen "abc123" - 4) (chars "abc123")).
Proof.
  apply (@whoami_after_login offline_host "abc123" (world ∅ ∅)). reflexivity.
Defined.

(** The example of the specification: the key [abc123] is shown whole, then
    its last four characters once more. *)
Example masked_abc123 : masked "abc123" = "abc123...c123".
Proof. reflexivity. Qed.

(** ** What the mask hides *)

Lemma masked_chars (k : string) :
  chars (masked k)
  = take 8 (chars k) ++ chars "..." ++ drop (strlen k - 4) (chars k).
Proof. rewrite masked_first_8_last_4, !chars_app, !chars_str. reflexivity. Qed.

Lemma masked_shows_short_key (k : string) (i : nat) (c : ascii) :
  (strlen k <= 12)%nat ->
  chars k !! i = Some c ->
  chars (masked k) !! mask_index (strlen k) i = Some c.
Proof.
  intros Hshort Hi. rewrite masked_chars. unfold mask_index, strlen in *.
  pose proof (lookup_lt_Some _ _ _ Hi) as Hlt.
  destruct (Nat.ltb_spec i 8) as [Hi8 | Hi8].
  - rewrite lookup_app_l by (rewrite length_take; lia).
    rewrite lookup_take_lt by exact Hi8. exact Hi.
  - rewrite lookup_app_r by (rewrite length_take; lia).
    rewrite length_take.
    rewrite lookup_app_r by (change (length (chars "...")) with 3%nat; lia).
    change (length (chars "...")) with 3%nat. rewrite lookup_drop.
    replace (length (chars k) - 4
             + (8 `min` length (chars k) + 3 + (i - (length (chars k) - 4))
                - 8 `min` length (chars k) - 3))%nat with i by lia.
    exact Hi.
Qed.

Lemma masked_injective_short (k k' : string) :
  (strlen k <= 12)%nat ->
  strlen k' = strlen k ->
  masked k' = masked k ->
  k' = k.
Proof.
  intros Hshort Hlen Heq. apply (f_equal chars) in Heq.
  rewrite !masked_chars in Heq. unfold strlen in *. rewrite Hlen in Heq.
  apply app_inj_1 in Heq as [Htake Hrest]; [| rewrite !length_take; lia].
  apply app_inv_head in Hrest.
  rewrite <- (str_chars k), <- (str_chars k'). f_equal.
  rewrite <- (take_drop (length (chars k) - 4) (chars k)).
  rewrite <- (take_drop (length (chars k) - 4) (chars k')).
  rewrite Hrest. f_equal.
  assert (Hle : (length (chars k) - 4)%nat
                = (Nat.min (length (chars k) - 4) 8)%nat) by lia.
  rewrite Hle, <- !take_take, Htake. reflexivity.
Qed.

Lemma masked_hides_long_key (k : string) (i : nat) (c : ascii) :
  (12 < strlen k)%nat ->
  (8 <= i < strlen k - 4)%nat ->
  masked (str (<[i := c]> (chars k))) = masked k.
Proof.
  intros Hlong Hi. rewrite !masked_first_8_last_4. unfold strlen in *.
  rewrite !chars_str, length_insert.
  rewrite take_insert_ge by lia. rewrite drop_insert_lt by lia. reflexivity.
Qed.

Lemma insert_changes_key (k : string) (i : nat) (c : ascii) :
  (i < strlen k)%nat ->
  chars k !! i <> Some c ->
  str (<[i := c]> (chars k)) <> k.
Proof.
  unfold strlen. intros Hi Hne Heq. apply Hne. apply (f_equal chars) in Heq.
  rewrite chars_str in Heq. rewrite <- Heq.
  apply list_lookup_insert_eq. exact Hi.
Qed.

(** C9.  With a non-empty key [k] stored, [whoami] exits with 0 after
    printing the line [✓ Logged in] and the line [API Key: ] followed by the
    mask of [k], and the mask is the first 8 characters of [k], three dots and
    the last 4 characters of [k].  For a key of at most 12 characters the
    mask shows every character of the key, the one at [i] at the place
    [mask_index (strlen k) i], and no other key of that length has the same
    mask.  For a longer key the characters from the ninth to the fifth from
    the end are not shown: replacing any of them by another character gives
    another key with the same mask. *)
Theorem masked_hides_only_long_keys `{Host} (k : string) (w : World) :
  config w !! "apiKey" = Some k ->
  truthy k = true ->
  run whoami w
  = (0, add_events w [Log (chalk [green] "✓ Logged in");
                      Log (chalk [dim] ("API Key: " +:+ masked k))])
  /\ chars (masked k)
     = take 8 (chars k) ++ chars "..." ++ drop (strlen k - 4) (chars k)
  /\ ((strlen k <= 12)%nat ->
      (forall (i : nat) (c : ascii),
          chars k !! i = Some c ->
          chars (masked k) !! mask_index (strlen k) i = Some c)
      /\ (forall k' : string,
             strlen k' = strlen k -> masked k' = masked k -> k' = k))
  /\ ((12 < strlen k)%nat ->
      forall (i : nat) (c : ascii),
        (8 <= i < strlen k - 4)%nat ->
        masked (str (<[i := c]> (chars k))) = masked k
        /\ (chars k !! i <> Some c -> str (<[i := c]> (chars k)) <> k)).
Proof.
  intros Hkey Htruthy. split_and!.
  - exact (run_whoami_key k w Hkey Htruthy).
  - apply masked_chars.
  - intros Hshort. split.
    + intros i c. apply masked_shows_short_key, Hshort.
    + intros k'. apply masked_injective_short, Hshort.
  - intros Hlong i c Hi. split.
    + apply masked_hides_long_key; assumption.
    + apply insert_changes_key. lia.
Qed.

Lemma masked_hides_only_long_keys_witness :
  (@run offline_host whoami (world {[ "apiKey" := "abc123" ]} ∅)
   = (0, add_events (world {[ "apiKey" := "abc123" ]} ∅)
           [Log (chalk [green] "✓ Logged in");
            Log (chalk [dim] ("API Key: " +:+ masked "abc123"))])
   /\ chars (masked "abc123") !! mask_index (strlen "abc123") 5 = Some "3"%char)
  /\ (masked (str (<[10%nat := "X"%char]> (chars "sk_live_0123456789abcdef")))
      = masked "sk_live_0123456789abcdef"
      /\ str (<[10%nat := "X"%char]> (chars "sk_live_0123456789abcdef"))
         <> "sk_live_0123456789abcdef").
Proof.
  split.
  - destruct (@masked_hides_only_long_keys offline_host "abc123"
                (world {[ "apiKey" := "abc123" ]} ∅))
      as (Hrun & _ & Hshort & _); [reflexivity | reflexivity |].
    split; [exact Hrun |].
    apply (proj1 (Hshort ltac:(vm_compute; lia)) 5%nat "3"%char). reflexivity.
  - destruct (@masked_hides_only_long_keys offline_host "sk_live_0123456789abcdef"
                (world {[ "apiKey" := "sk_live_0123456789abcdef" ]} ∅))
      as (_ & _ & _ & Hlong); [reflexivity | reflexivity |].
    destruct (Hlong ltac:(vm_compute; lia) 10%nat "X"%char ltac:(vm_compute; lia))
      as [Hsame Hother].
    split; [exact Hsame |]. apply Hother. discriminate.
Defined.

(** The mask of a short key shows its characters but not its length: keys of
    8 and of 12 characters can have the same mask. *)
Example masked_short_length :
  masked "01234567" = masked "012345674567".
Proof. reflexivity. Qed.

(** A short key is shown whole; in a long one the middle is replaced. *)
Example masked_short : masked "0123456789ab" = "01234567...89ab".
Proof. reflexivity. Qed.

Example masked_long : masked "sk_live_0123456789abcdef" = "sk_live_...cdef".
Proof. reflexivity. Qed.

(** ** Running a command step by step *)

Ltac exec :=
  cbv beta iota zeta
    delta [bind ret emit throw process_exit try_catch lift console_log
           console_error call getClient config_get with_spinner report_error
           spinner_stop print_rationale add_events];
  cbn [config files trace client_key fst snd].

Ltac flatten_trace :=
  cbn [config files trace client_key fst snd];
  repeat rewrite <- app_assoc; cbn [app].

Section Running.
Context `{Host}.

Lemma add_events_nil (w : World) : add_events w [] = w.
Proof. destruct w; unfold add_events; cbn. rewrite app_nil_r. reflexivity. Qed.

Lemma add_events_app (w : World) (es1 es2 : list Event) :
  add_events (add_events w es1) es2 = add_events w (es1 ++ es2).
Proof. unfold add_events; cbn. rewrite app_assoc. reflexivity. Qed.

Lemma for_each_log {A : Type} (l : list A) (f : A -> Text) (w : World) :
  for_each l (fun x => console_log (f x)) w
  = (Done tt, add_events w (map (fun x => Log (f x)) l)).
Proof.
  revert w. induction l as [| x l IH]; intros w; cbn [for_each map].
  - unfold ret. rewrite add_events_nil. reflexivity.
  - exec. rewrite IH. unfold add_events; cbn. flatten_trace. reflexivity.
Qed.

Lemma for_each_log_exec {A : Type} (l : list A) (f : A -> Text) (w : World) :
  for_each l
    (fun x w => (Done tt, {| config := config w; files := files w;
                             trace := trace w ++ [Log (f x)] |})) w
  = (Done tt, add_events w (map (fun x => Log (f x)) l)).
Proof. exact (for_each_log l f w). Qed.

(** The frame of a command when the credential is usable: the spinner starts
    and the body runs with a client for the stored key. *)
Lemma with_spinner_logged_in (text : string) (k : Client -> Run unit)
    (w : World) (key : string) :
  logged_in w key ->
  with_spinner text (bind getClient k) w
  = try_catch (k {| client_key := key |}) report_error
      (add_events w [SpinnerStart text]).
Proof.
  intros (Hkey & Htruthy & Hnew). exec. rewrite Hkey, Htruthy, Hnew. reflexivity.
Qed.

(** The frame when the store has a key that is empty or that the SDK rejects. *)
Lemma with_spinner_empty_key (text : string) (k : Client -> Run unit) (w : World) :
  config w !! "apiKey" = Some "" ->
  with_spinner text (bind getClient k) w
  = (Exited 1, add_events w [SpinnerStart text; LogError not_logged_in]).
Proof.
  intros Hkey. exec. rewrite Hkey. cbn [truthy]. flatten_trace. reflexivity.
Qed.

Lemma with_spinner_rejected_key (text : string) (k : Client -> Run unit)
    (w : World) (key : string) (error : Thrown) :
  config w !! "apiKey" = Some key ->
  truthy key = true ->
  new_Tuteliq key = Some error ->
  with_spinner text (bind getClient k) w
  = (Exited 1, add_events w [SpinnerStart text; SpinnerStop;
                             LogError (error_line error)]).
Proof.
  intros Hkey Htruthy Hnew. exec. rewrite Hkey, Htruthy, Hnew.
  flatten_trace. reflexivity.
Qed.

(** ** Malformed messages *)

Lemma detect_grooming_malformed (messages : string) (age : option string)
    (w : World) (key : string) :
  JSON.parse messages = None ->
  logged_in w key ->
  run (detect_grooming messages age) w
  = (1, add_events w [SpinnerStart "Analyzing..."; SpinnerStop;
                      LogError (error_line (syntax_error messages))]).
Proof.
  intros Hparse Hin. unfold run; cbn [action]. unfold detect_grooming_action.
  rewrite (with_spinner_logged_in _ _ _ _ Hin). rewrite Hparse. exec.
  flatten_trace. reflexivity.
Qed.

End Running.

Section Grooming.
Context `{Host}.

Lemma remote_calls_add (w : World) (es : list Event) :
  remote_calls (trace (add_events w es))
  = (remote_calls (trace w) + remote_calls es)%nat.
Proof. cbn [add_events trace]. apply remote_calls_app. Qed.

Lemma stderr_add (w : World) (es : list Event) :
  stderr (trace (add_events w es)) = stderr (trace w) ++ stderr es.
Proof. cbn [add_events trace]. apply stderr_app. Qed.

Lemma stdout_add (w : World) (es : list Event) :
  stdout (trace (add_events w es)) = stdout (trace w) ++ stdout es.
Proof. cbn [add_events trace]. apply stdout_app. Qed.

Lemma stdout_logs (lines : list Text) : stdout (map Log lines) = lines.
Proof.
  induction lines as [| line lines IH]; [reflexivity |].
  cbn [map]. change (stdout (Log line :: map Log lines))
    with (line :: stdout (map Log lines)). rewrite IH. reflexivity.
Qed.

(** C4.  When the argument of [-m] is not JSON, [detect-grooming] exits with
    status 1 without a remote operation: the run adds one line to the error
    stream and nothing to the store or the files, and with a usable credential
    that line is the [Error:] line of a failed operation. *)
Theorem malformed_messages_exit_1 (messages : string) (age : option string)
    (w : World) :
  JSON.parse messages = None ->
  exists es : list Event,
    run (detect_grooming messages age) w = (1, add_events w es)
    /\ remote_calls es = 0%nat
    /\ (exists line : Text, stderr es = [line])
    /\ (forall key : string,
          logged_in w key -> stderr es = [error_line (syntax_error messages)]).
Proof.
  intros Hparse.
  destruct (config w !! "apiKey") as [key |] eqn:Hkey.
  - destruct (truthy key) eqn:Htruthy.
    + destruct (new_Tuteliq key) as [error |] eqn:Hnew.
      * eexists. split; [| split; [| split]].
        -- unfold run; cbn [action]; unfold detect_grooming_action.
           rewrite (with_spinner_rejected_key _ _ _ _ _ Hkey Htruthy Hnew).
           reflexivity.
        -- reflexivity.
        -- eexists. reflexivity.
        -- intros key' (Hkey' & _ & Hnew'). congruence.
      * assert (Hin : logged_in w key) by (repeat split; assumption).
        eexists. split; [| split; [| split]].
        -- apply (detect_grooming_malformed _ _ _ _ Hparse Hin).
        -- reflexivity.
        -- eexists. reflexivity.
        -- intros _ _. reflexivity.
    + destruct key; [| discriminate Htruthy].
      eexists. split; [| split; [| split]].
      * unfold run; cbn [action]; unfold detect_grooming_action.
        rewrite (with_spinner_empty_key _ _ _ Hkey). reflexivity.
      * reflexivity.
      * eexists. reflexivity.
      * intros key' (Hkey' & Htruthy' & _). rewrite Hkey in Hkey'.
        injection Hkey' as <-. discriminate Htruthy'.
  - eexists. split; [| split; [| split]].
    + unfold run; cbn [action]; unfold detect_grooming_action.
      rewrite (with_spinner_missing _ _ _ Hkey). reflexivity.
    + reflexivity.
    + eexists. reflexivity.
    + intros key' (Hkey' & _). congruence.
Qed.

(** C10.  With a usable credential, parsed messages and a result from the
    service, the banner of [detect-grooming] is the negative one exactly when
    [grooming_risk] is the string [none] and the positive one for every other
    value; [safe] is such a value, although [formatRisk] prints it in green
    like [none]. *)
Theorem grooming_banner_by_none (messages : string) (age : option string)
    (w : World) (key : string) (v : json) (result : GroomingResult.t) :
  logged_in w key ->
  JSON.parse messages = Some v ->
  remote GroomingResult.t key (detectGrooming v (optional_int age None)) = inr result ->
  exists (banner : Text) (code : Z) (rest : list Event),
    run (detect_grooming messages age) w
    = (code, add_events w
               (SpinnerStart "Analyzing..."
                  :: Remote GroomingResult.t key
                       (detectGrooming v (optional_int age None))
                  :: SpinnerStop :: Log [] :: Log banner :: rest))
    /\ (GroomingResult.grooming_risk result = "none" <-> banner = no_grooming)
    /\ (GroomingResult.grooming_risk result <> "none" <-> banner = grooming_detected)
    /\ formatRisk "safe" = inr (chalk [green] "SAFE")
    /\ formatRisk "none" = inr (chalk [green] "NONE").
Proof.
  intros Hin Hparse Hremote.
  exists (if String.eqb (GroomingResult.grooming_risk result) "none"
          then no_grooming else grooming_detected).
  assert (Hrun : exists (code : Z) (rest : list Event),
             run (detect_grooming messages age) w
             = (code, add_events w
                        (SpinnerStart "Analyzing..."
                           :: Remote GroomingResult.t key
                                (detectGrooming v (optional_int age None))
                           :: SpinnerStop :: Log []
                           :: Log (if String.eqb (GroomingResult.grooming_risk result) "none"
                                   then no_grooming else grooming_detected)
                           :: rest))).
  { unfold run; cbn [action]; unfold detect_grooming_action.
    rewrite (with_spinner_logged_in _ _ _ _ Hin). rewrite Hparse. exec.
    rewrite Hremote. exec.
    destruct (formatRisk (GroomingResult.grooming_risk result)) as [error | risk]; exec.
    - do 2 eexists. flatten_trace. reflexivity.
    - destruct (non_empty (GroomingResult.flags result)) as [flags |]; exec.
      + rewrite for_each_log_exec. exec. do 2 eexists. flatten_trace. reflexivity.
      + do 2 eexists. flatten_trace. reflexivity. }
  destruct Hrun as (code & rest & Hrun). exists code, rest.
  split; [exact Hrun |].
  destruct (String.eqb_spec (GroomingResult.grooming_risk result) "none") as [Heq | Hne].
  - repeat split; try reflexivity; try congruence; try discriminate.
  - repeat split; try reflexivity; try congruence; try discriminate;
      intros; contradiction.
Qed.

End Grooming.

Lemma sample_logged_in : @logged_in sample_host sample_world "sk_test_0123456789".
Proof. repeat split. Defined.

Lemma malformed_messages_exit_1_witness :
  exists es : list Event,
    @run sample_host (detect_grooming "[{role: adult}]" None) sample_world
    = (1, add_events sample_world es)
    /\ remote_calls es = 0%nat
    /\ (exists line : Text, stderr es = [line])
    /\ (forall key : string,
          @logged_in sample_host sample_world key ->
          stderr es = [error_line (@syntax_error sample_host "[{role: adult}]")]).
Proof.
  apply (@malformed_messages_exit_1 sample_host "[{role: adult}]" None sample_world).
  vm_compute. reflexivity.
Defined.

Lemma grooming_banner_by_none_witness :
  exists (banner : Text) (code : Z) (rest : list Event),
    @run sample_host (detect_grooming "[]" None) sample_world
    = (code, add_events sample_world
               (SpinnerStart "Analyzing..."
                  :: Remote GroomingResult.t "sk_test_0123456789"
                       (detectGrooming (JArray []) (optional_int None None))
                  :: SpinnerStop :: Log [] :: Log banner :: rest))
    /\ (GroomingResult.grooming_risk sample_grooming = "none" <-> banner = no_grooming)
    /\ (GroomingResult.grooming_risk sample_grooming <> "none"
        <-> banner = grooming_detected)
    /\ formatRisk "safe" = inr (chalk [green] "SAFE")
    /\ formatRisk "none" = inr (chalk [green] "NONE").
Proof.
  apply (@grooming_banner_by_none sample_host "[]" None sample_world
           "sk_test_0123456789" (JArray []) sample_grooming).
  - exact sample_logged_in.
  - vm_compute. reflexivity.
  - reflexivity.
Defined.

(** The result [safe] gets the positive banner and a green risk level. *)
Example grooming_safe_banner :
  stdout (trace (snd (@run sample_host (detect_grooming "[]" None) sample_world)))
  = [[]; grooming_detected; []; plain "Risk Level:  " ++ chalk [green] "SAFE";
     plain "Confidence:  " ++ chalk [cyan] "87%";
     plain "Risk Score:  " ++ chalk [cyan] "5%";
     []; chalk [dim] "Warning Flags:";
     chalk [yellow] "  • secrecy"; chalk [yellow] "  • gift offers"]
    ++ rationale_lines "Ordinary conversation." "none".
Proof. vm_compute. reflexivity. Qed.

(** ** The severity and risk formatters *)

(** The four severities have their fixed colour and their upper-case label. *)
Lemma formatSeverity_documented :
  formatSeverity "low" = inr (chalk [yellow] "LOW")
  /\ formatSeverity "medium" = inr (chalk [hex "#FFA500"] "MEDIUM")
  /\ formatSeverity "high" = inr (chalk [red] "HIGH")
  /\ formatSeverity "critical" = inr (chalk [bgRed; white] "CRITICAL").
Proof. repeat split. Qed.

Lemma formatRisk_documented :
  formatRisk "none" = inr (chalk [green] "NONE")
  /\ formatRisk "safe" = inr (chalk [green] "SAFE")
  /\ formatRisk "low" = inr (chalk [yellow] "LOW")
  /\ formatRisk "medium" = inr (chalk [hex "#FFA500"] "MEDIUM")
  /\ formatRisk "high" = inr (chalk [red] "HIGH")
  /\ formatRisk "critical" = inr (chalk [bgRed; white] "CRITICAL").
Proof. repeat split. Qed.

Lemma assoc_None {A : Type} (key : string) (l : list (string * A)) :
  ~ In key (map fst l) -> assoc key l = None.
Proof.
  induction l as [| [k a] l IH]; cbn; [reflexivity |].
  intros Hnot. destruct (String.eqb_spec k key) as [-> | Hne].
  - exfalso. apply Hnot. left. reflexivity.
  - apply IH. intros Hin. apply Hnot. right. exact Hin.
Qed.

Lemma property_Undefined {A : Type} (own : list (string * A)) (key : string) :
  ~ In key (map fst own) ->
  ~ In key Object_prototype_keys ->
  property own key = Undefined.
Proof.
  intros Hown Hproto. unfold property. rewrite assoc_None by exact Hown.
  destruct (existsb (String.eqb key) Object_prototype_keys) eqn:Hex; [| reflexivity].
  exfalso. apply existsb_exists in Hex as (k & Hk & Heq).
  apply String.eqb_eq in Heq. subst k. exact (Hproto Hk).
Qed.

(** A severity that is neither one of the four nor the name of a member of
    [Object.prototype] is printed in white. *)
Lemma formatSeverity_fallback (severity : string) :
  ~ In severity ["low"; "medium"; "high"; "critical"] ->
  ~ In severity Object_prototype_keys ->
  formatSeverity severity = inr (chalk [white] (toUpperCase severity)).
Proof.
  intros Hown Hproto. unfold formatSeverity.
  rewrite property_Undefined; [reflexivity | exact Hown | exact Hproto].
Qed.

Lemma formatRisk_fallback (risk : string) :
  ~ In risk ["none"; "safe"; "low"; "medium"; "high"; "critical"] ->
  ~ In risk Object_prototype_keys ->
  formatRisk risk = inr (chalk [white] (toUpperCase risk)).
Proof.
  intros Hown Hproto. unfold formatRisk.
  rewrite property_Undefined; [reflexivity | exact Hown | exact Hproto].
Qed.

(** C3, at the input where the code fails.  The severity [__proto__] is
    outside the four, and the table lookup finds [Object.prototype] for it,
    which is not a function: [formatSeverity] and [formatRisk] throw a
    TypeError instead of falling back to white, and [detect-bullying] on such
    a result stops after the banner and exits with status 1. *)
Theorem formatters_throw_on_proto :
  formatSeverity "__proto__"
  = inl (not_a_function "(colors[severity] || chalk.white)")
  /\ formatRisk "__proto__" = inl (not_a_function "(colors[risk] || chalk.white)")
  /\ @run (odd_host "__proto__") (detect_bullying "hi") sample_world
     = (1, add_events sample_world
             [SpinnerStart "Analyzing...";
              Remote BullyingResult.t "sk_test_0123456789" (detectBullying "hi");
              SpinnerStop; Log []; Log (chalk [green; bold] "✓ No bullying detected");
              Log []; SpinnerStop;
              LogError (error_line
                          (not_a_function "(colors[severity] || chalk.white)"))]).
Proof. repeat split. Qed.

(** Other inherited names do not throw but are not printed in white either. *)
Example formatSeverity_constructor :
  formatSeverity "constructor" = inr (plain "CONSTRUCTOR")
  /\ formatSeverity "toString" = inr (plain "[object Undefined]")
  /\ formatSeverity "valueOf"
     = inl (JsError "TypeError" "Cannot convert undefined or null to object").
Proof. repeat split. Qed.

(** [toLocaleString] throws with a message of its own, and the run prints
    it on the [Error:] line. *)
Example formatSeverity_toLocaleString :
  formatSeverity "toLocaleString"
  = inl (JsError "TypeError"
           "Object.prototype.toLocaleString called on null or undefined")
  /\ formatRisk "toLocaleString"
     = inl (JsError "TypeError"
              "Object.prototype.toLocaleString called on null or undefined")
  /\ stderr (trace (snd (@run (odd_host "toLocaleString") (detect_bullying "hi")
                           sample_world)))
     = [error_line (JsError "TypeError"
                      "Object.prototype.toLocaleString called on null or undefined")]
  /\ fst (@run (odd_host "toLocaleString") (detect_bullying "hi") sample_world) = 1.
Proof. repeat split. Qed.

(** An unknown severity that is no inherited name: the white fallback. *)
Example formatSeverity_unknown :
  @run (odd_host "severe") (detect_bullying "hi") sample_world
  = (0, add_events sample_world
          ([SpinnerStart "Analyzing...";
            Remote BullyingResult.t "sk_test_0123456789" (detectBullying "hi");
            SpinnerStop; Log []; Log (chalk [green; bold] "✓ No bullying detected");
            Log []; Log (plain "Severity:    " ++ chalk [white] "SEVERE");
            Log (plain "Confidence:  " ++ chalk [cyan] "87%");
            Log (plain "Risk Score:  " ++ chalk [cyan] "13%")]
             ++ map Log (rationale_lines "" "none"))).
Proof. vm_compute. reflexivity. Qed.

(** ** List-valued fields *)

Section Lists.
Context `{Host}.

Lemma stdout_map_log {A : Type} (f : A -> Text) (l : list A) :
  stdout (map (fun x => Log (f x)) l) = map f l.
Proof.
  induction l as [| x l IH]; [reflexivity |].
  cbn [map]. change (stdout (Log (f x) :: map (fun x => Log (f x)) l))
    with (f x :: stdout (map (fun x => Log (f x)) l)). rewrite IH. reflexivity.
Qed.

Lemma stdout_log (line : Text) (t : list Event) :
  stdout (Log line :: t) = line :: stdout t.
Proof. reflexivity. Qed.

Lemma stdout_other (e : Event) (t : list Event) :
  (forall line, e <> Log line) -> stdout (e :: t) = stdout t.
Proof. intros Hno. destruct e; try reflexivity. exfalso. exact (Hno line eq_refl). Qed.

Lemma stdout_nil : stdout [] = [].
Proof. reflexivity. Qed.

(** C8, as amended.  The types of [detect-bullying] and the categories of
    [detect-unsafe] are printed on one line, joined with a comma and a space,
    when the list is not empty, and the line is left out when the list is
    empty or absent; the flags of [detect-grooming] are printed one bullet
    line each under a heading when there are any, and left out otherwise; the
    two lists of [breach get] are always printed, joined in the same way. *)
Theorem list_fields_rendering :
  (forall (text : string) (w : World) (key : string) (result : BullyingResult.t)
          (severity : Text),
      logged_in w key ->
      remote BullyingResult.t key (detectBullying text) = inr result ->
      formatSeverity (BullyingResult.severity result) = inr severity ->
      stdout (trace (snd (run (detect_bullying text) w)))
      = stdout (trace w)
          ++ [[]; (if BullyingResult.is_bullying result
                   then chalk [red; bold] "⚠ BULLYING DETECTED"
                   else chalk [green; bold] "✓ No bullying detected");
              []; plain "Severity:    " ++ severity;
              plain "Confidence:  "
                ++ chalk [cyan] (percent (BullyingResult.confidence result));
              plain "Risk Score:  "
                ++ chalk [cyan] (percent (BullyingResult.risk_score result))]
          ++ match BullyingResult.bullying_type result with
             | Some (x :: l) => [plain ("Types:       " +:+ join ", " (x :: l))]
             | _ => []
             end
          ++ rationale_lines (BullyingResult.rationale result)
               (BullyingResult.recommended_action result))
  /\ (forall (text : string) (w : World) (key : string) (result : UnsafeResult.t)
             (severity : Text),
         logged_in w key ->
         remote UnsafeResult.t key (detectUnsafe text) = inr result ->
         formatSeverity (UnsafeResult.severity result) = inr severity ->
         stdout (trace (snd (run (detect_unsafe text) w)))
         = stdout (trace w)
             ++ [[]; (if UnsafeResult.unsafe result
                      then chalk [red; bold] "⚠ UNSAFE CONTENT DETECTED"
                      else chalk [green; bold] "✓ Content is safe");
                 []; plain "Severity:    " ++ severity;
                 plain "Confidence:  "
                   ++ chalk [cyan] (percent (UnsafeResult.confidence result));
                 plain "Risk Score:  "
                   ++ chalk [cyan] (percent (UnsafeResult.risk_score result))]
             ++ match UnsafeResult.categories result with
                | Some (x :: l) => [plain ("Categories:  " +:+ join ", " (x :: l))]
                | _ => []
                end
             ++ rationale_lines (UnsafeResult.rationale result)
                  (UnsafeResult.recommended_action result))
  /\ (forall (messages : string) (age : option string) (w : World) (key : string)
             (v : json) (result : GroomingResult.t) (risk : Text),
         logged_in w key ->
         JSON.parse messages = Some v ->
         remote GroomingResult.t key (detectGrooming v (optional_int age None))
         = inr result ->
         formatRisk (GroomingResult.grooming_risk result) = inr risk ->
         stdout (trace (snd (run (detect_grooming messages age) w)))
         = stdout (trace w)
             ++ [[]; (if String.eqb (GroomingResult.grooming_risk result) "none"
                      then no_grooming else grooming_detected);
                 []; plain "Risk Level:  " ++ risk;
                 plain "Confidence:  "
                   ++ chalk [cyan] (percent (GroomingResult.confidence result));
                 plain "Risk Score:  "
                   ++ chalk [cyan] (percent (GroomingResult.risk_score result))]
             ++ match GroomingResult.flags result with
                | Some (x :: l) =>
                    [] :: chalk [dim] "Warning Flags:"
                       :: map (fun flag => chalk [yellow] ("  • " +:+ flag)) (x :: l)
                | _ => []
                end
             ++ rationale_lines (GroomingResult.rationale result)
                  (GroomingResult.recommended_action result))
  /\ (forall (id : string) (w : World) (key : string) (b : Breach.t)
             (severity : Text),
         logged_in w key ->
         remote Breach.t key (getBreach id) = inr b ->
         formatSeverity (Breach.severity b) = inr severity ->
         stdout (trace (snd (run (breach_get id) w)))
         = stdout (trace w)
             ++ breach_head b severity
             ++ [plain ("Affected Users:   " +:+ join ", " (Breach.affected_user_ids b));
                 plain ("Data Categories:  " +:+ join ", " (Breach.data_categories b))]).
Proof.
  split; [| split; [| split]].
  - intros text w key result severity Hin Hremote Hsev.
    unfold run; cbn [action]; unfold detect_bullying_action.
    rewrite (with_spinner_logged_in _ _ _ _ Hin). exec. rewrite Hremote. exec.
    rewrite Hsev. exec.
    destruct (BullyingResult.bullying_type result) as [[| x l] |];
      cbn [non_empty]; exec; flatten_trace; rewrite stdout_app; reflexivity.
  - intros text w key result severity Hin Hremote Hsev.
    unfold run; cbn [action]; unfold detect_unsafe_action.
    rewrite (with_spinner_logged_in _ _ _ _ Hin). exec. rewrite Hremote. exec.
    rewrite Hsev. exec.
    destruct (UnsafeResult.categories result) as [[| x l] |];
      cbn [non_empty]; exec; flatten_trace; rewrite stdout_app; reflexivity.
  - intros messages age w key v result risk Hin Hparse Hremote Hrisk.
    unfold run; cbn [action]; unfold detect_grooming_action.
    rewrite (with_spinner_logged_in _ _ _ _ Hin). rewrite Hparse. exec.
    rewrite Hremote. exec. rewrite Hrisk. exec.
    destruct (GroomingResult.flags result) as [[| x l] |]; cbn [non_empty]; exec;
      try (flatten_trace; rewrite stdout_app; reflexivity).
    rewrite for_each_log_exec. exec. flatten_trace.
    rewrite stdout_app. repeat (rewrite stdout_other by discriminate).
    repeat rewrite stdout_log. rewrite stdout_app, stdout_map_log.
    reflexivity.
  - intros id w key b severity Hin Hremote Hsev.
    unfold run; cbn [action]; unfold breach_get_action.
    rewrite (with_spinner_logged_in _ _ _ _ Hin). exec. rewrite Hremote. exec.
    rewrite Hsev. exec. flatten_trace. rewrite stdout_app. reflexivity.
Qed.

End Lists.

(** What the program prints for a breach without affected users, and for a
    grooming result with two flags. *)
Example list_fields_samples :
  stdout (trace (snd (@run sample_host (breach_get "br_1") sample_world)))
  = breach_head sample_breach (chalk [hex "#FFA500"] "MEDIUM")
      ++ [plain "Affected Users:   "; plain "Data Categories:  "]
  /\ stdout (trace (snd (@run sample_host (detect_grooming "[]" None) sample_world)))
     = [[]; grooming_detected; []; plain "Risk Level:  " ++ chalk [green] "SAFE";
        plain "Confidence:  " ++ chalk [cyan] "87%";
        plain "Risk Score:  " ++ chalk [cyan] "5%";
        []; chalk [dim] "Warning Flags:";
        chalk [yellow] "  • secrecy"; chalk [yellow] "  • gift offers"]
       ++ rationale_lines "Ordinary conversation." "none".
Proof. split; vm_compute; reflexivity. Qed.

(** C8 fails as stated: [breach get] prints the line of the affected users
    also when the list is empty, as a label with nothing after it. *)
Lemma breach_get_prints_empty_list :
  ~ (forall (H : Host) (id : string) (w : World) (key : string) (b : Breach.t),
        logged_in w key ->
        remote Breach.t key (getBreach id) = inr b ->
        Breach.affected_user_ids b = [] ->
        ~ In (plain ("Affected Users:   " +:+ join ", " (Breach.affected_user_ids b)))
             (stdout (trace (snd (run (breach_get id) w))))).
Proof.
  intros claim.
  apply (claim sample_host "br_1" sample_world "sk_test_0123456789" sample_breach
           sample_logged_in eq_refl eq_refl).
  destruct list_fields_samples as [-> _].
  apply in_or_app. right. left. reflexivity.
Qed.

Lemma list_fields_rendering_witness :
  stdout (trace (snd (@run sample_host (detect_bullying "hi") sample_world)))
  = [[]; chalk [red; bold] "⚠ BULLYING DETECTED"; [];
     plain "Severity:    " ++ chalk [red] "HIGH";
     plain "Confidence:  " ++ chalk [cyan] "87%";
     plain "Risk Score:  " ++ chalk [cyan] "13%";
     plain "Types:       verbal, exclusion"]
    ++ rationale_lines "Repeated insults." "flag_for_moderator"
  /\ stdout (trace (snd (@run sample_host (detect_unsafe "hi") sample_world)))
     = [[]; chalk [green; bold] "✓ Content is safe"; [];
        plain "Severity:    " ++ chalk [yellow] "LOW";
        plain "Confidence:  " ++ chalk [cyan] "87%";
        plain "Risk Score:  " ++ chalk [cyan] "5%"]
       ++ rationale_lines "Nothing harmful." "none"
  /\ stdout (trace (snd (@run sample_host (detect_grooming "[]" None) sample_world)))
     = [[]; grooming_detected; []; plain "Risk Level:  " ++ chalk [green] "SAFE";
        plain "Confidence:  " ++ chalk [cyan] "87%";
        plain "Risk Score:  " ++ chalk [cyan] "5%";
        []; chalk [dim] "Warning Flags:";
        chalk [yellow] "  • secrecy"; chalk [yellow] "  • gift offers"]
       ++ rationale_lines "Ordinary conversation." "none"
  /\ stdout (trace (snd (@run sample_host (breach_get "br_1") sample_world)))
     = breach_head sample_breach (chalk [hex "#FFA500"] "MEDIUM")
         ++ [plain "Affected Users:   "; plain "Data Categories:  "].
Proof.
  pose proof (@list_fields_rendering sample_host) as (Hbullying & Hunsafe & Hgrooming & Hbreach).
  split; [| split; [| split]].
  - rewrite (Hbullying "hi" sample_world "sk_test_0123456789" sample_bullying
               (chalk [red] "HIGH") sample_logged_in eq_refl eq_refl).
    vm_compute. reflexivity.
  - rewrite (Hunsafe "hi" sample_world "sk_test_0123456789" sample_unsafe
               (chalk [yellow] "LOW") sample_logged_in eq_refl eq_refl).
    vm_compute. reflexivity.
  - rewrite (Hgrooming "[]" None sample_world "sk_test_0123456789" (JArray [])
               sample_grooming (chalk [green] "SAFE") sample_logged_in eq_refl
               eq_refl eq_refl).
    vm_compute. reflexivity.
  - rewrite (Hbreach "br_1" sample_world "sk_test_0123456789" sample_breach
               (chalk [hex "#FFA500"] "MEDIUM") sample_logged_in eq_refl eq_refl).
    vm_compute. reflexivity.
Defined.

Example parse_samples :
  JSON.parse " [1.50e3, -0.0025, 120, 0, -0, 1E-2, true, null, {}, [ ] ] "
     = Some (JArray [JNumber 15 2; JNumber (-25) (-4); JNumber 12 1; JNumber 0 0;
                     JNumber 0 0; JNumber 1 (-2); JBool true; JNull; JObject [];
                     JArray []])
  /\ map JSON.parse ["[01]"; "1."; ".5"; "1e"; "-"; "+1"; "[1,]"; "{a:1}"; "tru";
                     "1 2"; ""; "[1"; "0x10"; "'a'"]
     = [None; None; None; None; None; None; None; None; None; None; None; None;
        None; None].
Proof. repeat split; vm_compute; reflexivity. Qed.

(** * JSON printed and read back *)

(** ** Decimal numerals *)

Lemma nat_of_digit_char (d : Z) :
  0 <= d <= 9 -> Z.of_nat (nat_of_ascii (digit_char d)) = 48 + d.
Proof.
  intros Hd. unfold digit_char. rewrite nat_ascii_embedding by lia. lia.
Qed.

Lemma digit_char_is_digit (d : Z) : 0 <= d <= 9 -> is_digit_char (digit_char d).
Proof. intros Hd. unfold is_digit_char. rewrite nat_of_digit_char by exact Hd. lia. Qed.

Lemma value_of_app (acc : Z) (l1 l2 : list ascii) :
  value_of acc (l1 ++ l2) = value_of (value_of acc l1) l2.
Proof. revert acc. induction l1 as [| c l1 IH]; intros acc; cbn; [reflexivity | apply IH]. Qed.

Lemma digits_fuel_acc (fuel : nat) (n : Z) (acc : list ascii) :
  digits_fuel fuel n acc = digits_fuel fuel n [] ++ acc.
Proof.
  revert n acc. induction fuel as [| fuel IH]; intros n acc; cbn [digits_fuel].
  - reflexivity.
  - destruct (n <? 10); [reflexivity |].
    rewrite IH. rewrite (IH _ [_]). rewrite <- app_assoc. reflexivity.
Qed.

(** With enough fuel the numeral is made of digits, denotes the number, and
    starts with a digit other than 0 unless the number is 0. *)
Lemma digits_fuel_spec (fuel : nat) (n : Z) :
  0 <= n < 2 ^ Z.of_nat fuel ->
  (0 < fuel)%nat ->
  Forall is_digit_char (digits_fuel fuel n [])
  /\ value_of 0 (digits_fuel fuel n []) = n
  /\ (exists c ds, digits_fuel fuel n [] = c :: ds /\ (0 < n -> c <> "0"%char)).
Proof.
  revert n. induction fuel as [| fuel IH]; intros n Hn Hfuel.
  - lia.
  - cbn [digits_fuel]. destruct (Z.ltb_spec n 10) as [Hlt | Hge].
    + split; [| split].
      * constructor; [apply digit_char_is_digit; lia | constructor].
      * cbn. rewrite nat_of_digit_char by lia. lia.
      * exists (digit_char n), []. split; [reflexivity |].
        intros Hpos Heq. apply (f_equal (fun c => Z.of_nat (nat_of_ascii c))) in Heq.
        rewrite nat_of_digit_char in Heq by lia.
        change (Z.of_nat (nat_of_ascii "0"%char)) with 48 in Heq. lia.
    + rewrite digits_fuel_acc.
      assert (Hdiv : 0 < n / 10 < 2 ^ Z.of_nat fuel).
      { split; [apply Z.div_str_pos; lia |].
        apply Z.div_lt_upper_bound; [lia |].
        rewrite Nat2Z.inj_succ, Z.pow_succ_r in Hn by lia. lia. }
      destruct (IH (n / 10)) as (Hall & Hval & c & ds & Hhead & Hnz); [lia | |].
      { destruct fuel; [cbn in Hdiv; lia | lia]. }
      split; [| split].
      * apply Forall_app. split; [exact Hall |].
        constructor; [| constructor]. apply digit_char_is_digit.
        pose proof (Z.mod_pos_bound n 10). lia.
      * rewrite value_of_app, Hval. cbn.
        pose proof (Z.mod_pos_bound n 10).
        rewrite nat_of_digit_char by lia.
        pose proof (Z.div_mod n 10). lia.
      * exists c, (ds ++ [digit_char (n mod 10)]). rewrite Hhead. split; [reflexivity |].
        intros _. apply Hnz. lia.
Qed.

Lemma digits_spec (n : Z) :
  0 <= n ->
  Forall is_digit_char (digits n)
  /\ value_of 0 (digits n) = n
  /\ (exists c ds, digits n = c :: ds /\ (0 < n -> c <> "0"%char)).
Proof.
  intros Hn. unfold digits. apply digits_fuel_spec; [| lia].
  split; [exact Hn |].
  destruct (Z.eq_dec n 0) as [-> | Hne]; [cbn; lia |].
  rewrite Nat2Z.inj_succ, Z2Nat.id by apply Z.log2_nonneg.
  apply Z.log2_spec. lia.
Qed.

Lemma dec_digit_digit (c : ascii) :
  is_digit_char c -> JSON.dec_digit c = Some (Z.of_nat (nat_of_ascii c) - 48).
Proof.
  unfold is_digit_char, JSON.dec_digit, digit_value. intros Hc.
  destruct (Z.leb_spec 48 (Z.of_nat (nat_of_ascii c))); [| lia].
  destruct (Z.leb_spec (Z.of_nat (nat_of_ascii c)) 57); [| lia].
  cbn [andb]. destruct (Z.ltb_spec (Z.of_nat (nat_of_ascii c) - 48) 10); [reflexivity | lia].
Qed.

Lemma dec_digit_other (c : ascii) : ~ is_digit_char c -> JSON.dec_digit c = None.
Proof.
  unfold is_digit_char, JSON.dec_digit, digit_value. intros Hc.
  set (n := Z.of_nat (nat_of_ascii c)) in *.
  destruct (Z.leb_spec 48 n), (Z.leb_spec n 57); cbn [andb]; try lia;
    destruct (Z.leb_spec 97 n), (Z.leb_spec n 122); cbn [andb];
    try (destruct (Z.ltb_spec (n - 87) 10); [lia | reflexivity]);
    destruct (Z.leb_spec 65 n), (Z.leb_spec n 90); cbn [andb];
    try reflexivity; destruct (Z.ltb_spec (n - 55) 10); (lia || reflexivity).
Qed.

Lemma read_run_digits (ds rest : list ascii) (acc : Z) (cnt : nat) :
  Forall is_digit_char ds ->
  no_digit rest ->
  JSON.read_run acc cnt (ds ++ rest) = (value_of acc ds, (cnt + length ds)%nat, rest).
Proof.
  intros Hds Hrest. revert acc cnt.
  induction Hds as [| c ds Hc Hds IH]; intros acc cnt.
  - cbn [app value_of length]. rewrite Nat.add_0_r.
    destruct rest as [| c rest]; [reflexivity |].
    cbn [JSON.read_run]. rewrite dec_digit_other by exact Hrest. reflexivity.
  - cbn [app value_of length JSON.read_run]. rewrite dec_digit_digit by exact Hc.
    rewrite IH. f_equal. f_equal. lia.
Qed.

Lemma value_of_zeros (acc : Z) (j : nat) :
  value_of acc (replicate j "0"%char) = acc * 10 ^ Z.of_nat j.
Proof.
  revert acc. induction j as [| j IH]; intros acc.
  - cbn. lia.
  - cbn [replicate value_of]. rewrite IH.
    change (Z.of_nat (nat_of_ascii "0"%char)) with 48.
    rewrite Nat2Z.inj_succ, Z.pow_succ_r by lia. lia.
Qed.

Lemma zeros_are_digits (j : nat) : Forall is_digit_char (replicate j "0"%char).
Proof.
  apply Forall_replicate. unfold is_digit_char.
  change (Z.of_nat (nat_of_ascii "0"%char)) with 48. lia.
Qed.

(** ** Canonical decimals *)

Lemma strip10_pow (j fuel : nat) (m e : Z) :
  m mod 10 <> 0 ->
  (j <= fuel)%nat ->
  strip10 fuel (m * 10 ^ Z.of_nat j) e = (m, e + Z.of_nat j).
Proof.
  intros Hm. revert fuel e. induction j as [| j IH]; intros fuel e Hfuel.
  - rewrite Z.pow_0_r, Z.mul_1_r, Z.add_0_r.
    destruct fuel as [| fuel]; cbn [strip10]; [reflexivity |].
    destruct (Z.eqb_spec (m mod 10) 0); [contradiction | reflexivity].
  - destruct fuel as [| fuel]; [lia |]. cbn [strip10].
    rewrite Nat2Z.inj_succ, Z.pow_succ_r by lia.
    replace (m * (10 * 10 ^ Z.of_nat j)) with (m * 10 ^ Z.of_nat j * 10) by lia.
    rewrite Z.mod_mul by lia. cbn [Z.eqb]. rewrite Z.div_mul by lia.
    rewrite IH by lia. f_equal. lia.
Qed.

Lemma norm10_pow (m e j : Z) :
  m mod 10 <> 0 -> 0 <= j -> norm10 (m * 10 ^ j) e = (m, e + j).
Proof.
  intros Hm Hj. unfold norm10.
  assert (Hm0 : m <> 0) by (intros ->; apply Hm; reflexivity).
  assert (Hpow : 0 < 10 ^ j) by (apply Z.pow_pos_nonneg; lia).
  destruct (Z.eqb_spec (m * 10 ^ j) 0) as [Hz | Hz]; [nia |].
  destruct (Z_of_nat_complete j Hj) as [k ->].
  rewrite strip10_pow; [reflexivity | exact Hm |].
  apply Nat2Z.inj_le. rewrite Z2Nat.id by apply Z.log2_nonneg.
  set (j := Z.of_nat k) in *.
  transitivity (Z.log2 (2 ^ j)); [rewrite Z.log2_pow2 by exact Hj; lia |].
  apply Z.log2_le_mono. rewrite Z.abs_mul, (Z.abs_eq (10 ^ j)) by lia.
  assert (2 ^ j <= 10 ^ j) by (apply Z.pow_le_mono_l; lia). nia.
Qed.

Lemma strip10_canonical (fuel : nat) (m e : Z) :
  m <> 0 ->
  Z.log2 (Z.abs m) <= Z.of_nat fuel ->
  fst (strip10 fuel m e) mod 10 <> 0.
Proof.
  revert m e. induction fuel as [| fuel IH]; intros m e Hm Hlog.
  - cbn [strip10 fst].
    assert (Habs : Z.abs m = 1).
    { destruct (Z.eq_dec (Z.abs m) 1) as [| Hne]; [assumption |].
      assert (2 <= Z.abs m) by lia.
      pose proof (Z.log2_le_mono 2 (Z.abs m)) as Hmono. cbn in Hmono. lia. }
    assert (Hcases : m = 1 \/ m = -1) by lia.
    destruct Hcases as [-> | ->]; vm_compute; discriminate.
  - cbn [strip10]. destruct (Z.eqb_spec (m mod 10) 0) as [Hz | Hz]; [| exact Hz].
    apply IH.
    + intros Hq. pose proof (Z.div_mod m 10). lia.
    + assert (Hm10 : m = 10 * (m / 10)) by (pose proof (Z.div_mod m 10); lia).
      assert (Hq : m / 10 <> 0) by lia.
      assert (Hlt : Z.log2 (Z.abs (m / 10)) < Z.log2 (Z.abs m)).
      { assert (Hdbl : 2 * Z.abs (m / 10) <= Z.abs m) by lia.
        pose proof (Z.log2_le_mono _ _ Hdbl) as Hmono.
        rewrite Z.log2_double in Hmono by lia. lia. }
      lia.
Qed.

Lemma norm10_canonical (m e : Z) :
  m <> 0 -> fst (norm10 m e) mod 10 <> 0.
Proof.
  intros Hm. unfold norm10. destruct (Z.eqb_spec m 0); [contradiction |].
  apply strip10_canonical; [exact Hm |].
  rewrite Z2Nat.id by apply Z.log2_nonneg. lia.
Qed.

(** ** Numerals read back *)

Lemma starts_with_cons (c x : ascii) (l : list ascii) :
  JSON.starts_with c (x :: l) = Ascii.eqb x c.
Proof. reflexivity. Qed.

Lemma number_end_no_digit (rest : list ascii) : number_end rest -> no_digit rest.
Proof. destruct rest; cbn; tauto. Qed.

Lemma number_end_starts (rest : list ascii) :
  number_end rest ->
  JSON.starts_with "." rest = false
  /\ JSON.starts_with "e" rest = false
  /\ JSON.starts_with "E" rest = false.
Proof.
  destruct rest as [| c rest]; cbn [number_end JSON.starts_with]; [auto |].
  intros (_ & Hp & He & HE).
  repeat split; apply Ascii.eqb_neq; assumption.
Qed.

Lemma is_digit_not (c x : ascii) :
  is_digit_char c -> ~ is_digit_char x -> Ascii.eqb c x = false.
Proof. intros Hc Hx. apply Ascii.eqb_neq. intros ->. contradiction. Qed.

Lemma not_digit_point : ~ is_digit_char "."%char.
Proof. unfold is_digit_char. vm_compute. intros [H _]. apply H. reflexivity. Qed.

Lemma not_digit_e : ~ is_digit_char "e"%char.
Proof. unfold is_digit_char. vm_compute. intros [_ H]. apply H. reflexivity. Qed.

Lemma not_digit_minus : ~ is_digit_char "-"%char.
Proof. unfold is_digit_char. vm_compute. intros [H _]. apply H. reflexivity. Qed.

(** The exponent part [e+x] or [e-x] read back. *)
Lemma read_exp_printed (x : Z) (rest : list ascii) :
  no_digit rest ->
  JSON.read_exp ((chars (if x <? 0 then "e-" else "e+") ++ digits (Z.abs x)) ++ rest)
  = Some (x, rest).
Proof.
  intros Hrest.
  destruct (digits_spec (Z.abs x)) as (Hall & Hval & c & ds & Hhead & _); [lia |].
  unfold JSON.read_exp.
  destruct (Z.ltb_spec x 0) as [Hneg | Hpos]; cbn [chars list_ascii_of_string app];
    rewrite !starts_with_cons; cbn [Ascii.eqb Bool.eqb andb orb tail];
    rewrite !starts_with_cons; cbn [Ascii.eqb Bool.eqb andb orb tail];
    rewrite read_run_digits by assumption; rewrite Hval, Hhead;
    cbn [length Nat.add]; f_equal; f_equal; lia.
Qed.

Section Shapes.
Variables (c : ascii) (ds' rest : list ascii).
Let ds := c :: ds'.
Let k := Z.of_nat (length ds).
Hypothesis Hds : Forall is_digit_char ds.
Hypothesis Hc : c <> "0"%char.
Hypothesis Hrest : number_end rest.

Lemma shape_facts :
  Ascii.eqb c "0" = false /\ is_digit_char c /\ Forall is_digit_char ds' /\ 1 <= k
  /\ no_digit rest.
Proof.
  split_and!.
  - apply Ascii.eqb_neq; exact Hc.
  - inversion Hds; assumption.
  - inversion Hds; assumption.
  - unfold k, ds; cbn [length]; lia.
  - apply number_end_no_digit, Hrest.
Qed.

Lemma read_tail_none (v : Z) (nfrac : nat) :
  match JSON.read_exp rest with
  | Some (x, l) => Some (v, x - Z.of_nat nfrac, l)
  | None => None
  end = Some (v, - Z.of_nat nfrac, rest).
Proof.
  destruct (number_end_starts _ Hrest) as (_ & He & HE).
  unfold JSON.read_exp. rewrite He, HE. reflexivity.
Qed.

Lemma read_integer_shape (n : Z) :
  k <= n ->
  JSON.read_decimal ((ds ++ replicate (Z.to_nat (n - k)) "0"%char) ++ rest)
  = Some (value_of 0 ds * 10 ^ (n - k), 0, rest).
Proof.
  intros Hkn. destruct shape_facts as (Hc0 & Hcd & Hds' & Hk & Hnodigit).
  destruct (number_end_starts _ Hrest) as (Hpoint & _).
  unfold JSON.read_decimal, JSON.read_int.
  unfold ds at 1. cbn [app]. rewrite starts_with_cons, Hc0.
  change (c :: (ds' ++ replicate (Z.to_nat (n - k)) "0"%char) ++ rest)
    with ((ds ++ replicate (Z.to_nat (n - k)) "0"%char) ++ rest).
  rewrite read_run_digits;
    [| apply Forall_app; split; [exact Hds | apply zeros_are_digits] | exact Hnodigit].
  rewrite value_of_app, value_of_zeros, Z2Nat.id by lia.
  cbn [Nat.add].
  destruct (length (ds ++ replicate (Z.to_nat (n - k)) "0"%char)) eqn:Hlen;
    [rewrite length_app in Hlen; unfold ds in Hlen; cbn [length] in Hlen; lia |].
  unfold JSON.read_frac. rewrite Hpoint. rewrite read_tail_none. reflexivity.
Qed.

Lemma read_point_shape (n : Z) :
  0 < n < k ->
  JSON.read_decimal ((take (Z.to_nat n) ds ++ "."%char :: drop (Z.to_nat n) ds) ++ rest)
  = Some (value_of 0 ds, n - k, rest).
Proof.
  intros Hn. destruct shape_facts as (Hc0 & Hcd & Hds' & Hk & Hnodigit).
  unfold JSON.read_decimal, JSON.read_int.
  destruct (Z.to_nat n) as [| n'] eqn:Hn'; [lia |].
  assert (Hlen : (S n' < length ds)%nat) by (unfold k in Hn; lia).
  rewrite <- app_assoc. unfold ds at 1. cbn [take app].
  rewrite starts_with_cons, Hc0.
  change (c :: take n' ds' ++ "."%char :: drop (S n') ds ++ rest)
    with (take (S n') ds ++ "."%char :: drop (S n') ds ++ rest).
  rewrite read_run_digits;
    [| apply Forall_take; exact Hds | cbn; exact not_digit_point].
  rewrite length_take, Nat.min_l by lia. cbn [Nat.add].
  unfold JSON.read_frac. rewrite starts_with_cons. cbn [Ascii.eqb Bool.eqb andb tail].
  rewrite read_run_digits; [| apply Forall_drop; exact Hds | exact Hnodigit].
  rewrite <- value_of_app, take_drop.
  rewrite length_drop. cbn [Nat.add].
  destruct (length ds - S n')%nat as [| d] eqn:Hd; [lia |].
  rewrite read_tail_none. f_equal. f_equal. f_equal. unfold k. lia.
Qed.

Lemma read_fraction_shape (n : Z) :
  n <= 0 ->
  JSON.read_decimal ((chars "0." ++ replicate (Z.to_nat (- n)) "0"%char ++ ds) ++ rest)
  = Some (value_of 0 ds, n - k, rest).
Proof.
  intros Hn. destruct shape_facts as (Hc0 & Hcd & Hds' & Hk & Hnodigit).
  unfold JSON.read_decimal, JSON.read_int.
  cbn [chars list_ascii_of_string app]. rewrite starts_with_cons.
  cbn [Ascii.eqb Bool.eqb andb tail].
  unfold JSON.read_frac. rewrite starts_with_cons. cbn [Ascii.eqb Bool.eqb andb tail].
  rewrite <- app_assoc, app_assoc.
  rewrite read_run_digits;
    [| apply Forall_app; split; [apply zeros_are_digits | exact Hds] | exact Hnodigit].
  rewrite value_of_app, value_of_zeros, Z.mul_0_l. cbn [Nat.add].
  destruct (length (replicate (Z.to_nat (- n)) "0"%char ++ ds)) eqn:Hlen;
    rewrite length_app, length_replicate in Hlen; unfold ds in Hlen;
    cbn [length] in Hlen; [lia |].
  rewrite read_tail_none. f_equal. f_equal. f_equal.
  unfold k, ds. cbn [length]. lia.
Qed.

Lemma read_exponent_shape (n : Z) :
  JSON.read_decimal
    (match ds with
     | [] => chars (if n - 1 <? 0 then "e-" else "e+") ++ digits (Z.abs (n - 1))
     | [d] => d :: chars (if n - 1 <? 0 then "e-" else "e+") ++ digits (Z.abs (n - 1))
     | d :: rest' =>
         d :: "."%char :: rest'
           ++ chars (if n - 1 <? 0 then "e-" else "e+") ++ digits (Z.abs (n - 1))
     end ++ rest)
  = Some (value_of 0 ds, n - k, rest).
Proof.
  destruct shape_facts as (Hc0 & Hcd & Hds' & Hk & Hnodigit).
  assert (Hnot_e : no_digit
            ((chars (if n - 1 <? 0 then "e-" else "e+") ++ digits (Z.abs (n - 1))) ++ rest)).
  { destruct (n - 1 <? 0); cbn; exact not_digit_e. }
  assert (Hstart : JSON.starts_with "."
            ((chars (if n - 1 <? 0 then "e-" else "e+") ++ digits (Z.abs (n - 1))) ++ rest)
          = false).
  { destruct (n - 1 <? 0); reflexivity. }
  unfold JSON.read_decimal, JSON.read_int, ds.
  destruct ds' as [| d ds2].
  - cbn [app]. rewrite starts_with_cons, Hc0.
    change (c :: (chars (if n - 1 <? 0 then "e-" else "e+") ++ digits (Z.abs (n - 1)))
              ++ rest)
      with ([c] ++ (chars (if n - 1 <? 0 then "e-" else "e+")
                      ++ digits (Z.abs (n - 1))) ++ rest).
    rewrite read_run_digits; [| exact Hds | exact Hnot_e].
    cbn [length Nat.add]. unfold JSON.read_frac. rewrite Hstart.
    rewrite read_exp_printed by exact Hnodigit.
    f_equal. f_equal. f_equal. unfold k, ds. cbn [length]. lia.
  - cbn [app]. rewrite starts_with_cons, Hc0.
    change (c :: "."%char :: d :: (ds2 ++ chars (if n - 1 <? 0 then "e-" else "e+")
                                     ++ digits (Z.abs (n - 1))) ++ rest)
      with ([c] ++ "."%char :: d :: (ds2 ++ chars (if n - 1 <? 0 then "e-" else "e+")
                                     ++ digits (Z.abs (n - 1))) ++ rest).
    rewrite read_run_digits;
      [| constructor; [exact Hcd | constructor] | cbn; exact not_digit_point].
    cbn [length Nat.add]. unfold JSON.read_frac. rewrite starts_with_cons.
    cbn [Ascii.eqb Bool.eqb andb tail].
    rewrite <- app_assoc.
    change (d :: ds2 ++ (chars (if n - 1 <? 0 then "e-" else "e+")
                           ++ digits (Z.abs (n - 1))) ++ rest)
      with ((d :: ds2) ++ (chars (if n - 1 <? 0 then "e-" else "e+")
                             ++ digits (Z.abs (n - 1))) ++ rest).
    rewrite read_run_digits; [| exact Hds' | exact Hnot_e].
    cbn [length Nat.add]. rewrite read_exp_printed by exact Hnodigit.
    f_equal. f_equal. f_equal. unfold k, ds. cbn [length]. lia.
Qed.

Lemma read_decimal_chars (n : Z) :
  exists v x j : Z,
    JSON.read_decimal (JSON.decimal_chars ds n ++ rest) = Some (v, x, rest)
    /\ 0 <= j
    /\ v = value_of 0 ds * 10 ^ j
    /\ x + j = n - k.
Proof.
  unfold JSON.decimal_chars. fold k.
  destruct (Z.leb_spec k n) as [Hkn | Hkn]; destruct (Z.leb_spec n 21) as [H21 | H21];
    cbn [andb].
  - exists (value_of 0 ds * 10 ^ (n - k)), 0, (n - k).
    rewrite read_integer_shape by exact Hkn. repeat split; lia.
  - destruct (Z.ltb_spec 0 n) as [H0 | H0]; cbn [andb].
    + destruct (Z.ltb_spec (-6) n) as [H6 | H6]; [| lia].
      destruct (Z.leb_spec n 0) as [Hn0 | Hn0]; [lia |]. cbn [andb].
      exists (value_of 0 ds), (n - k), 0.
      rewrite read_exponent_shape. repeat split; lia.
    + destruct shape_facts as (_ & _ & _ & Hk & _). lia.
  - destruct (Z.ltb_spec 0 n) as [H0 | H0]; cbn [andb].
    + exists (value_of 0 ds), (n - k), 0.
      rewrite read_point_shape by lia. repeat split; lia.
    + destruct (Z.ltb_spec (-6) n) as [H6 | H6];
        destruct (Z.leb_spec n 0) as [Hn0 | Hn0]; try lia; cbn [andb].
      * exists (value_of 0 ds), (n - k), 0.
        rewrite read_fraction_shape by exact Hn0. repeat split; lia.
      * exists (value_of 0 ds), (n - k), 0.
        rewrite read_exponent_shape. repeat split; lia.
  - destruct (Z.ltb_spec 0 n) as [H0 | H0];
      destruct (Z.ltb_spec (-6) n) as [H6 | H6];
      destruct (Z.leb_spec n 0) as [Hn0 | Hn0]; try lia; cbn [andb].
    exists (value_of 0 ds), (n - k), 0.
    rewrite read_exponent_shape. repeat split; lia.
Qed.

End Shapes.

Lemma digit_char_cases (c : ascii) :
  is_digit_char c ->
  In c ["0"; "1"; "2"; "3"; "4"; "5"; "6"; "7"; "8"; "9"]%char.
Proof.
  unfold is_digit_char. intros Hc.
  destruct c as [[] [] [] [] [] [] [] []]; vm_compute in Hc;
    try (exfalso; destruct Hc as [H1 H2]; (apply H1; reflexivity) || (apply H2; reflexivity));
    cbn; tauto.
Qed.

(** A numeral starts with a digit or a minus sign. *)
Lemma decimal_chars_head (c : ascii) (ds' : list ascii) (n : Z) :
  is_digit_char c ->
  exists c0 l, JSON.decimal_chars (c :: ds') n = c0 :: l /\ is_digit_char c0.
Proof.
  intros Hc. unfold JSON.decimal_chars.
  destruct ((Z.of_nat (length (c :: ds')) <=? n) && (n <=? 21)); [cbn; eauto |].
  destruct ((0 <? n) && (n <=? 21)) eqn:Hn.
  { apply andb_true_iff in Hn as [Hn _]. apply Z.ltb_lt in Hn.
    destruct (Z.to_nat n) eqn:Hn'; [lia |]. cbn. eauto. }
  destruct ((-6 <? n) && (n <=? 0)).
  { cbn. do 2 eexists. split; [reflexivity |]. unfold is_digit_char. vm_compute.
    split; discriminate. }
  destruct ds'; cbn; eauto.
Qed.

Lemma parse_number_chars (m e : Z) (rest : list ascii) :
  number_end rest ->
  JSON.parse_number (JSON.number_chars m e ++ rest)
  = Some (canonical (JNumber m e), rest).
Proof.
  intros Hrest. unfold JSON.number_chars. cbn [canonical].
  destruct (norm10 m e) as [m0 e0] eqn:Hnorm.
  destruct (number_end_starts _ Hrest) as (Hpoint & He & HE).
  destruct (Z.eqb_spec m0 0) as [Hz | Hnz].
  - assert (Hm : m = 0).
    { destruct (Z.eq_dec m 0) as [| Hne]; [assumption |].
      pose proof (norm10_canonical m e Hne) as Hcan. rewrite Hnorm in Hcan.
      cbn in Hcan. subst m0. exfalso. apply Hcan. reflexivity. }
    subst m. cbn in Hnorm. injection Hnorm as <- <-.
    unfold JSON.parse_number. cbn [app]. rewrite starts_with_cons.
    cbn [Ascii.eqb Bool.eqb andb]. unfold JSON.read_decimal, JSON.read_int.
    rewrite starts_with_cons. cbn [Ascii.eqb Bool.eqb andb tail].
    unfold JSON.read_frac. rewrite Hpoint.
    unfold JSON.read_exp. rewrite He, HE. reflexivity.
  - assert (Hm : m <> 0).
    { intros ->. cbn in Hnorm. congruence. }
    pose proof (norm10_canonical m e Hm) as Hcan. rewrite Hnorm in Hcan.
    cbn [fst] in Hcan.
    destruct (digits_spec (Z.abs m0)) as (Hall & Hval & c & ds' & Hhead & Hc); [lia |].
    rewrite Hhead in *.
    destruct (read_decimal_chars c ds' rest Hall (Hc ltac:(lia)) Hrest
                (Z.of_nat (length (c :: ds')) + e0))
      as (v & x & j & Hread & Hj & Hv & Hx).
    rewrite Hval in Hv.
    assert (Hcd : is_digit_char c) by (inversion Hall; assumption).
    destruct (decimal_chars_head c ds' (Z.of_nat (length (c :: ds')) + e0) Hcd)
      as (c0 & l & Hbody & Hc0).
    unfold JSON.parse_number.
    destruct (Z.ltb_spec m0 0) as [Hneg | Hpos].
    + cbn [app]. rewrite starts_with_cons. cbn [Ascii.eqb Bool.eqb andb tail].
      rewrite Hread.
      replace (- v) with (m0 * 10 ^ j) by (subst v; lia).
      rewrite norm10_pow by assumption.
      replace (x + j) with e0 by lia. reflexivity.
    + cbn [app]. rewrite Hbody in *. cbn [app]. rewrite starts_with_cons.
      rewrite (is_digit_not c0 "-" Hc0 not_digit_minus).
      cbn [app] in Hread. rewrite Hread.
      replace v with (m0 * 10 ^ j) by (subst v; lia).
      rewrite norm10_pow by assumption.
      replace (x + j) with e0 by lia. reflexivity.
Qed.

Lemma number_chars_head (m e : Z) :
  exists c0 l, JSON.number_chars m e = c0 :: l /\ (c0 = "-"%char \/ is_digit_char c0).
Proof.
  unfold JSON.number_chars. destruct (norm10 m e) as [m0 e0].
  destruct (m0 =? 0).
  - do 2 eexists. split; [reflexivity |]. right. unfold is_digit_char. vm_compute.
    split; discriminate.
  - destruct (m0 <? 0).
    + cbn [app]. do 2 eexists. split; [reflexivity |]. left. reflexivity.
    + destruct (digits_spec (Z.abs m0)) as (Hall & _ & c & ds' & Hhead & _); [lia |].
      rewrite Hhead in *. assert (Hcd : is_digit_char c) by (inversion Hall; assumption).
      destruct (decimal_chars_head c ds' (Z.of_nat (length (c :: ds')) + e0) Hcd)
        as (c0 & l & Hbody & Hc0).
      rewrite Hbody. cbn [app]. eauto.
Qed.

Lemma parse_value_number (fuel : nat) (c0 : ascii) (r : list ascii) :
  c0 = "-"%char \/ is_digit_char c0 ->
  JSON.parse_value (S fuel) (c0 :: r) = JSON.parse_number (c0 :: r).
Proof.
  intros [-> | Hc]; [reflexivity |].
  apply digit_char_cases in Hc. cbn [In] in Hc.
  repeat (destruct Hc as [<- | Hc]; [reflexivity |]). contradiction.
Qed.

(** ** Strings read back *)

Lemma parse_string_quote_char (c : ascii) (rest : list ascii) :
  JSON.parse_string (JSON.quote_char c ++ rest)
  = match JSON.parse_string rest with
    | Some (s, r) => Some (c :: s, r)
    | None => None
    end.
Proof. destruct c as [[] [] [] [] [] [] [] []]; reflexivity. Qed.

Lemma parse_string_quoted (l rest : list ascii) :
  JSON.parse_string (flat_map JSON.quote_char l ++ "034"%char :: rest) = Some (l, rest).
Proof.
  induction l as [| c l IH]; [reflexivity |].
  cbn [flat_map]. rewrite <- app_assoc, parse_string_quote_char, IH. reflexivity.
Qed.

Lemma parse_string_quote (s : string) (rest : list ascii) :
  JSON.parse_string (tail (JSON.quote s ++ rest)) = Some (chars s, rest).
Proof.
  unfold JSON.quote. cbn [app tail]. rewrite <- app_assoc. apply parse_string_quoted.
Qed.

(** ** Values read back *)

Lemma json_ind' (P : json -> Prop) :
  P JNull ->
  (forall b, P (JBool b)) ->
  (forall m e, P (JNumber m e)) ->
  (forall s, P (JString s)) ->
  (forall items, Forall P items -> P (JArray items)) ->
  (forall members, Forall (fun kv => P (snd kv)) members -> P (JObject members)) ->
  forall v, P v.
Proof.
  intros Hnull Hbool Hnum Hstr Harr Hobj.
  fix IH 1. intros [| b | m e | s | items | members].
  - exact Hnull.
  - apply Hbool.
  - apply Hnum.
  - apply Hstr.
  - apply Harr. induction items as [| x items IHitems]; constructor.
    + apply IH.
    + exact IHitems.
  - apply Hobj. induction members as [| [k x] members IHmembers]; constructor.
    + apply IH.
    + exact IHmembers.
Qed.

Lemma skip_ws_fixed (c : ascii) (l : list ascii) :
  JSON.is_ws c = false -> JSON.skip_ws (c :: l) = c :: l.
Proof. intros Hc. cbn [JSON.skip_ws]. rewrite Hc. reflexivity. Qed.

Lemma skip_ws_spaces (n : nat) (l : list ascii) :
  JSON.skip_ws (replicate n " "%char ++ l) = JSON.skip_ws l.
Proof. induction n as [| n IH]; [reflexivity | exact IH]. Qed.

Lemma parse_value_skip (fuel : nat) (l1 l2 : list ascii) :
  JSON.skip_ws l1 = JSON.skip_ws l2 ->
  JSON.parse_value fuel l1 = JSON.parse_value fuel l2.
Proof. intros Heq. destruct fuel; cbn [JSON.parse_value]; rewrite ?Heq; reflexivity. Qed.

Lemma parse_member_skip (fuel : nat) (l1 l2 : list ascii) :
  JSON.skip_ws l1 = JSON.skip_ws l2 ->
  JSON.parse_member fuel l1 = JSON.parse_member fuel l2.
Proof. intros Heq. destruct fuel; cbn [JSON.parse_member]; rewrite ?Heq; reflexivity. Qed.

Lemma delimited_number_end (rest : list ascii) : delimited rest -> number_end rest.
Proof.
  destruct rest as [| c rest]; cbn [delimited number_end]; [trivial |].
  intros Hc.
  assert (Hin : In c [" "; "009"; "010"; "013"; ","; "]"; "}"]%char).
  { destruct Hc as [Hws | [-> | [-> | ->]]]; cbn; try tauto.
    destruct c as [[] [] [] [] [] [] [] []]; cbn in Hws; try discriminate Hws;
      cbn; tauto. }
  cbn [In] in Hin.
  repeat (destruct Hin as [<- | Hin];
          [unfold is_digit_char; vm_compute; split_and!; try discriminate;
           intros [H1 H2]; try (apply H1; reflexivity); try (apply H2; reflexivity) |]).
  contradiction.
Qed.

Section RoundTrip.
Variable gap : nat.

Lemma skip_ws_break (indent : nat) (l : list ascii) :
  JSON.skip_ws (JSON.line_break gap indent ++ l) = JSON.skip_ws l.
Proof.
  unfold JSON.line_break. destruct (gap =? 0)%nat; [reflexivity |].
  cbn [app JSON.skip_ws JSON.is_ws]. apply skip_ws_spaces.
Qed.

Lemma delimited_break (indent : nat) (c : ascii) (l : list ascii) :
  c = "]"%char \/ c = "}"%char -> delimited (JSON.line_break gap indent ++ c :: l).
Proof.
  intros Hc. unfold JSON.line_break. destruct (gap =? 0)%nat.
  - cbn. tauto.
  - cbn. left. reflexivity.
Qed.

(** A printed value starts with a character that is neither white space nor
    a closing bracket. *)
Lemma text_head (indent : nat) (v : json) :
  exists c l,
    JSON.stringify_chars gap indent v = c :: l
    /\ JSON.is_ws c = false
    /\ Ascii.eqb c "]" = false
    /\ Ascii.eqb c "}" = false.
Proof.
  destruct v as [| [] | m e | s | [| x items] | [| kx members]];
    try (do 2 eexists; split; [reflexivity | split_and!; reflexivity]).
  cbn [JSON.stringify_chars].
  destruct (number_chars_head m e) as (c0 & l & -> & [-> | Hc]).
  - do 2 eexists. split; [reflexivity | split_and!; reflexivity].
  - exists c0, l. split; [reflexivity |].
    apply digit_char_cases in Hc. cbn [In] in Hc.
    repeat (destruct Hc as [<- | Hc]; [split_and!; reflexivity |]). contradiction.
Qed.

Lemma skip_ws_text (indent : nat) (v : json) (rest : list ascii) :
  JSON.skip_ws (JSON.stringify_chars gap indent v ++ rest) = JSON.stringify_chars gap indent v ++ rest.
Proof.
  destruct (text_head indent v) as (c & l & -> & Hws & _).
  cbn [app]. apply skip_ws_fixed, Hws.
Qed.

Lemma more_items_cons (indent : nat) (y : json) (items : list json) :
  more_items gap indent (y :: items)
  = ","%char :: JSON.line_break gap (indent + gap)
      ++ JSON.stringify_chars gap (indent + gap) y ++ more_items gap indent items.
Proof. unfold more_items. cbn [flat_map app]. rewrite <- !app_assoc. reflexivity. Qed.

Lemma more_members_cons (indent : nat) (ky : string * json)
    (members : list (string * json)) :
  more_members gap indent (ky :: members)
  = ","%char :: JSON.line_break gap (indent + gap) ++ JSON.quote (fst ky) ++ JSON.colon gap
      ++ JSON.stringify_chars gap (indent + gap) (snd ky) ++ more_members gap indent members.
Proof. unfold more_members. cbn [flat_map app]. rewrite <- !app_assoc. reflexivity. Qed.

Lemma delimited_more_items (indent : nat) (items : list json) (rest : list ascii) :
  delimited (more_items gap indent items ++ rest).
Proof.
  destruct items as [| y items].
  - unfold more_items. cbn [flat_map app]. rewrite <- app_assoc.
    apply delimited_break. tauto.
  - rewrite more_items_cons. cbn. tauto.
Qed.

Lemma delimited_more_members (indent : nat) (members : list (string * json))
    (rest : list ascii) :
  delimited (more_members gap indent members ++ rest).
Proof.
  destruct members as [| y members].
  - unfold more_members. cbn [flat_map app]. rewrite <- app_assoc.
    apply delimited_break. tauto.
  - rewrite more_members_cons. cbn. tauto.
Qed.

Lemma parse_more_items (indent : nat) (items : list json) :
  Forall (reads_back gap) items ->
  forall (fuel : nat) (rest : list ascii),
    (length (more_items gap indent items) < fuel)%nat ->
    JSON.parse_elements fuel (more_items gap indent items ++ rest)
    = Some (map canonical items, rest).
Proof.
  intros Hitems. induction Hitems as [| y items Hy _ IH]; intros fuel rest Hfuel.
  - destruct fuel as [| fuel]; [lia |]. cbn [JSON.parse_elements].
    unfold more_items. cbn [flat_map app].
    rewrite <- app_assoc, skip_ws_break. reflexivity.
  - rewrite more_items_cons in *.
    destruct fuel as [| fuel]; [lia |].
    cbn [JSON.parse_elements app JSON.skip_ws JSON.is_ws].
    cbn [Ascii.eqb Bool.eqb andb].
    rewrite <- !app_assoc.
    rewrite (parse_value_skip fuel _ _ (skip_ws_break _ _)).
    cbn [length] in Hfuel. rewrite !length_app in Hfuel.
    rewrite Hy; [| apply delimited_more_items | lia].
    rewrite IH by lia. reflexivity.
Qed.

Lemma parse_member_text (indent fuel : nat) (ky : string * json) (rest : list ascii) :
  reads_back gap (snd ky) ->
  delimited rest ->
  (S (length (JSON.stringify_chars gap (indent + gap) (snd ky))) < fuel)%nat ->
  JSON.parse_member fuel
    (JSON.line_break gap (indent + gap) ++ JSON.quote (fst ky) ++ JSON.colon gap
       ++ JSON.stringify_chars gap (indent + gap) (snd ky) ++ rest)
  = Some ((fst ky, canonical (snd ky)), rest).
Proof.
  intros Hy Hrest Hfuel.
  rewrite (parse_member_skip fuel _ _ (skip_ws_break _ _)).
  destruct fuel as [| fuel]; [lia |]. cbn [JSON.parse_member].
  assert (Hquote : JSON.skip_ws (JSON.quote (fst ky) ++ JSON.colon gap
                                   ++ JSON.stringify_chars gap (indent + gap) (snd ky) ++ rest)
                   = JSON.quote (fst ky) ++ JSON.colon gap
                       ++ JSON.stringify_chars gap (indent + gap) (snd ky) ++ rest) by reflexivity.
  rewrite Hquote.
  assert (Hstart : JSON.starts_with "034"
                     (JSON.quote (fst ky) ++ JSON.colon gap
                        ++ JSON.stringify_chars gap (indent + gap) (snd ky) ++ rest) = true) by reflexivity.
  rewrite Hstart, parse_string_quote.
  assert (Hcolon : JSON.skip_ws (JSON.colon gap ++ JSON.stringify_chars gap (indent + gap) (snd ky) ++ rest)
                   = ":"%char :: tail (JSON.colon gap)
                       ++ JSON.stringify_chars gap (indent + gap) (snd ky) ++ rest).
  { unfold JSON.colon. destruct (gap =? 0)%nat; reflexivity. }
  rewrite Hcolon. cbn [JSON.starts_with Ascii.eqb Bool.eqb andb tail].
  assert (Hskip : JSON.skip_ws (tail (JSON.colon gap) ++ JSON.stringify_chars gap (indent + gap) (snd ky) ++ rest)
                  = JSON.skip_ws (JSON.stringify_chars gap (indent + gap) (snd ky) ++ rest)).
  { unfold JSON.colon. destruct (gap =? 0)%nat; reflexivity. }
  rewrite (parse_value_skip fuel _ _ Hskip).
  rewrite Hy; [| exact Hrest | lia]. rewrite str_chars. reflexivity.
Qed.

Lemma parse_more_members (indent : nat) (members : list (string * json)) :
  Forall (fun kv => reads_back gap (snd kv)) members ->
  forall (fuel : nat) (rest : list ascii),
    (length (more_members gap indent members) < fuel)%nat ->
    JSON.parse_members fuel (more_members gap indent members ++ rest)
    = Some (map (fun kv : string * json => (fst kv, canonical (snd kv))) members, rest).
Proof.
  intros Hmembers. induction Hmembers as [| ky members Hy _ IH]; intros fuel rest Hfuel.
  - destruct fuel as [| fuel]; [lia |]. cbn [JSON.parse_members].
    unfold more_members. cbn [flat_map app].
    rewrite <- app_assoc, skip_ws_break. reflexivity.
  - rewrite more_members_cons in *.
    destruct fuel as [| fuel]; [lia |].
    cbn [JSON.parse_members app JSON.skip_ws JSON.is_ws].
    cbn [Ascii.eqb Bool.eqb andb].
    rewrite <- !app_assoc.
    cbn [length] in Hfuel. rewrite !length_app in Hfuel.
    assert (Hq : (2 <= length (JSON.quote (fst ky)))%nat).
    { unfold JSON.quote. cbn [length]. rewrite length_app. cbn [length]. lia. }
    rewrite parse_member_text; [| exact Hy | apply delimited_more_members | lia].
    rewrite IH by lia. reflexivity.
Qed.

(** Every printed value is read back as its canonical form, whatever follows
    it in the text. *)
Lemma text_reads_back (v : json) : reads_back gap v.
Proof.
  induction v as [| b | m e | s | items IH | members IH] using json_ind';
    intros indent fuel rest Hrest Hfuel;
    (destruct fuel as [| fuel]; [lia |]).
  - reflexivity.
  - destruct b; reflexivity.
  - cbn [JSON.stringify_chars] in *.
    destruct (number_chars_head m e) as (c0 & l & Hhead & Hc0).
    pose proof (parse_number_chars m e rest (delimited_number_end _ Hrest)) as Hparse.
    rewrite Hhead in *. cbn [app] in *.
    rewrite parse_value_number by exact Hc0. exact Hparse.
  - cbn [JSON.stringify_chars canonical] in *. cbn [JSON.parse_value].
    assert (Hskip : JSON.skip_ws (JSON.quote s ++ rest) = JSON.quote s ++ rest)
      by reflexivity.
    rewrite Hskip.
    change (JSON.quote s ++ rest) with ("034"%char :: tail (JSON.quote s ++ rest)).
    cbn [Ascii.eqb Bool.eqb andb]. rewrite parse_string_quote, str_chars. reflexivity.
  - destruct items as [| x items]; [reflexivity |].
    inversion IH as [| ? ? Hx Hitems]; subst.
    cbn [canonical map]. cbn [JSON.stringify_chars] in *.
    fold (more_items gap indent items) in *.
    cbn [app JSON.parse_value JSON.skip_ws JSON.is_ws].
    cbn [Ascii.eqb Bool.eqb andb].
    rewrite <- !app_assoc. rewrite skip_ws_break, skip_ws_text.
    destruct (text_head (indent + gap) x) as (c & l & Hhead & _ & Hclose & _).
    rewrite Hhead at 1. cbn [app JSON.starts_with]. rewrite Hclose.
    rewrite (parse_value_skip fuel _ _ (skip_ws_break _ _)).
    cbn [length] in Hfuel. rewrite !length_app in Hfuel.
    rewrite Hx; [| apply delimited_more_items | lia].
    rewrite parse_more_items; [reflexivity | exact Hitems | lia].
  - destruct members as [| kx members]; [reflexivity |].
    inversion IH as [| ? ? Hx Hmembers]; subst.
    cbn [canonical map]. cbn [JSON.stringify_chars] in *.
    fold (more_members gap indent members) in *.
    cbn [app JSON.parse_value JSON.skip_ws JSON.is_ws].
    cbn [Ascii.eqb Bool.eqb andb].
    rewrite <- !app_assoc. rewrite skip_ws_break.
    assert (Hstart : JSON.starts_with "}"
                       (JSON.skip_ws (JSON.quote (fst kx) ++ JSON.colon gap
                          ++ JSON.stringify_chars gap (indent + gap) (snd kx)
                          ++ more_members gap indent members ++ rest)) = false)
      by reflexivity.
    rewrite Hstart.
    cbn [length] in Hfuel. rewrite !length_app in Hfuel.
    assert (Hq : (2 <= length (JSON.quote (fst kx)))%nat).
    { unfold JSON.quote. cbn [length]. rewrite length_app. cbn [length]. lia. }
    rewrite parse_member_text; [| exact Hx | apply delimited_more_members | lia].
    rewrite parse_more_members; [reflexivity | exact Hmembers | lia].
Qed.

End RoundTrip.

(** [JSON.parse] gives back what [JSON.stringify] printed. *)
Lemma parse_stringify (v : json) (space : nat) :
  JSON.parse (JSON.stringify v space) = Some (canonical v).
Proof.
  unfold JSON.parse, JSON.stringify. rewrite chars_str.
  pose proof (text_reads_back space v 0%nat
                (S (length (JSON.stringify_chars space 0 v))) [] I) as Hread.
  rewrite app_nil_r in Hread. rewrite Hread by lia. reflexivity.
Qed.

(** * Account export *)

Section AccountExport.
Context `{Host}.

(** The value of a JavaScript value is its own canonical form. *)
Lemma js_value_canonical (v : json) : js_value v = true -> canonical v = v.
Proof.
  induction v as [| b | m e | s | items IH | members IH] using json_ind'.
  - reflexivity.
  - reflexivity.
  - cbn [js_value canonical]. unfold js_number.
    destruct (norm10 m e) as [m' e']. intros Hnum.
    rewrite !andb_true_iff in Hnum.
    destruct Hnum as [[[[Hm He] _] _] _].
    apply Z.eqb_eq in Hm, He. subst. reflexivity.
  - reflexivity.
  - cbn [js_value canonical]. intros Hitems. f_equal.
    induction IH as [| x items Hx _ IHitems]; [reflexivity |].
    cbn [forallb] in Hitems. apply andb_true_iff in Hitems as [Hhead Htail].
    cbn [map]. rewrite (Hx Hhead), (IHitems Htail). reflexivity.
  - cbn [js_value canonical]. intros Hmembers.
    apply andb_true_iff in Hmembers as [_ Hmembers]. f_equal.
    induction IH as [| [k x] members Hx _ IHmembers]; [reflexivity |].
    cbn [forallb snd] in Hmembers.
    apply andb_true_iff in Hmembers as [Hhead Htail].
    cbn [map fst snd]. cbn [snd] in Hx.
    rewrite (Hx Hhead), (IHmembers Htail). reflexivity.
Qed.

(** With [-o] and a path that is not empty and can be written, the text goes
    to the file and the confirmation line to standard output. *)
Lemma account_export_file (path : string) (w : World) (key : string) (result : json) :
  logged_in w key ->
  remote json key exportAccountData = inr result ->
  truthy path = true ->
  write_error path = None ->
  run (account_export (Some path)) w
  = (0, {| config := config w;
           files := <[ path := JSON.stringify result 2 ]> (files w);
           trace := trace w
                    ++ [SpinnerStart "Exporting account data...";
                        Remote json key exportAccountData; SpinnerStop;
                        Log (chalk [green; bold]
                               ("✓ Data exported to " +:+ path))] |}).
Proof.
  intros Hin Hremote Htruthy Hwrite.
  unfold run; cbn [action]; unfold account_export_action.
  rewrite (with_spinner_logged_in _ _ _ _ Hin). exec. rewrite Hremote. exec.
  unfold given. rewrite Htruthy. unfold writeFileSync. exec.
  rewrite Hwrite. flatten_trace. reflexivity.
Qed.


(** With [-o] and the empty path the text goes to standard output, as it
    does without [-o], and no file is written: on every host, whatever
    writing to the empty path would do. *)
Lemma account_export_empty_path (w : World) (key : string) (result : json) :
  logged_in w key ->
  remote json key exportAccountData = inr result ->
  run (account_export (Some "")) w
  = (0, add_events w
          [SpinnerStart "Exporting account data...";
           Remote json key exportAccountData; SpinnerStop;
           Log (plain (JSON.stringify result 2))]).
Proof.
  intros Hin Hremote.
  unfold run; cbn [action]; unfold account_export_action.
  rewrite (with_spinner_logged_in _ _ _ _ Hin). exec. rewrite Hremote. exec.
  cbn [given truthy]. exec. flatten_trace. reflexivity.
Qed.

End AccountExport.


(** On the host that cannot write, the exception of [writeFileSync] is
    reported and no file appears. *)
Example account_export_unwritable :
  @run readonly_host (account_export (Some "out.json")) sample_world
  = (1, add_events sample_world
          [SpinnerStart "Exporting account data...";
           Remote json "sk_test_0123456789" exportAccountData; SpinnerStop;
           SpinnerStop;
           LogError (error_line
                       (JsError "Error"
                          "EACCES: permission denied, open 'out.json'"))]).
Proof. vm_compute. reflexivity. Qed.


(** Values that are no JavaScript values: a number of 16 digits, a number
    beyond the doubles, a key listed twice, an array index after a name. *)
Example js_value_excludes :
  js_value (JNumber 9007199254740993 0) = false
  /\ js_value (JNumber 1 400) = false
  /\ js_value (JObject [("a", JNull); ("a", JBool true)]) = false
  /\ js_value (JObject [("b", JNull); ("1", JNull)]) = false
  /\ js_value (JObject [("1", JNull); ("b", JNull)]) = true
  /\ js_value sample_export = true.
Proof. vm_compute. repeat split. Qed.

(** The exported sample is already canonical, and this is its text. *)
Example export_sample_canonical : canonical sample_export = sample_export.
Proof. reflexivity. Qed.

Example export_sample_lines :
  split (ascii_of_nat 10) (JSON.stringify (JObject [("n", JNumber 15 2);
                                                     ("l", JArray [JNull; JBool false])]) 2)
  = ["{"; "  " +:+ str (JSON.quote "n") +:+ ": 1500,";
     "  " +:+ str (JSON.quote "l") +:+ ": ["; "    null,"; "    false"; "  ]"; "}"].
Proof. vm_compute. reflexivity. Qed.

(** * Percentages of confidence and risk *)

(** ** Shifting and rounding a product *)

Lemma digits2_pos_bounds (p : positive) :
  2 ^ (Zpos (digits2_pos p) - 1) <= Zpos p < 2 ^ Zpos (digits2_pos p).
Proof.
  induction p as [p IH | p IH |]; cbn [digits2_pos].
  - rewrite Pos2Z.inj_succ, Z.pow_succ_r by lia.
    replace (Z.succ (Zpos (digits2_pos p)) - 1) with (Z.succ (Zpos (digits2_pos p) - 1)) by lia.
    rewrite Z.pow_succ_r by lia. lia.
  - rewrite Pos2Z.inj_succ, Z.pow_succ_r by lia.
    replace (Z.succ (Zpos (digits2_pos p)) - 1) with (Z.succ (Zpos (digits2_pos p) - 1)) by lia.
    rewrite Z.pow_succ_r by lia. lia.
  - cbn. lia.
Qed.

(** A number below [2^b] has at most [b] binary digits. *)
Lemma Zdigits2_le (m b : Z) : 0 <= m < 2 ^ b -> 0 <= b -> Zdigits2 m <= b.
Proof.
  intros [Hm Hlt] Hb. destruct m as [| p | p]; cbn [Zdigits2]; [lia | | lia].
  pose proof (digits2_pos_bounds p) as [Hlo _].
  destruct (Z.le_gt_cases (Zpos (digits2_pos p)) b) as [| Hgt]; [assumption |].
  assert (2 ^ b <= 2 ^ (Zpos (digits2_pos p) - 1)) by (apply Z.pow_le_mono_r; lia).
  lia.
Qed.

Lemma shr_inv_start (X : Z) :
  0 <= X -> shr_inv X 0 (shr_record_of_loc X loc_Exact).
Proof.
  intros HX. split; [exact HX |]. exists 0. cbn [shr_record_of_loc shr_m shr_r shr_s].
  change (2 ^ 0) with 1. change (2 ^ (0 + 1)) with 2. repeat split; lia.
Qed.

Lemma shr_1_inv (X k : Z) (mrs : shr_record) :
  0 <= k -> shr_inv X k mrs -> shr_inv X (k + 1) (shr_1 mrs).
Proof.
  intros Hk (Hm & L & HL & HX & Hs). destruct mrs as [m r s].
  cbn [shr_m shr_r shr_s] in *.
  assert (Hpow : 0 < 2 ^ k) by (apply Z.pow_pos_nonneg; lia).
  assert (H1 : 2 ^ (k + 1) = 2 * 2 ^ k) by (rewrite Z.pow_add_r by lia; lia).
  assert (H2 : 2 ^ (k + 1 + 1) = 4 * 2 ^ k)
    by (rewrite !Z.pow_add_r by lia; lia).
  assert (Hsticky : (r || s = false <-> (if r then 2 ^ k else 0) + L = 0)).
  { destruct r; cbn [orb].
    - split; [intros Hr | lia]. discriminate Hr.
    - rewrite Z.add_0_l. exact Hs. }
  rewrite H1 in HX.
  destruct m as [| [p | p |] | p]; unfold shr_inv;
    cbn [shr_1 shr_m shr_r shr_s]; try lia.
  - split; [lia |]. exists ((if r then 2 ^ k else 0) + L). rewrite H1, H2.
    split; [destruct r; lia |]. split; [lia | exact Hsticky].
  - split; [lia |]. exists ((if r then 2 ^ k else 0) + L). rewrite H1, H2.
    split; [destruct r; lia |]. split; [lia | exact Hsticky].
  - split; [lia |]. exists ((if r then 2 ^ k else 0) + L). rewrite H1, H2.
    split; [destruct r; lia |]. split; [lia | exact Hsticky].
  - split; [lia |]. exists ((if r then 2 ^ k else 0) + L). rewrite H1, H2.
    split; [destruct r; lia |]. split; [lia | exact Hsticky].
Qed.

Lemma iter_shr_1_inv (X : Z) (p : positive) (k : Z) (mrs : shr_record) :
  0 <= k -> shr_inv X k mrs ->
  shr_inv X (k + Zpos p) (SpecFloat.iter_pos shr_1 p mrs).
Proof.
  revert k mrs. induction p as [p IH | p IH |]; intros k mrs Hk Hinv;
    cbn [SpecFloat.iter_pos].
  - replace (k + Z.pos p~1) with (k + 1 + Zpos p + Zpos p) by lia.
    apply IH; [lia |]. apply IH; [lia |]. apply shr_1_inv; assumption.
  - replace (k + Z.pos p~0) with (k + Zpos p + Zpos p) by lia.
    apply IH; [lia |]. apply IH; assumption.
  - apply shr_1_inv; assumption.
Qed.

(** [shr] adds [max 0 n] to the exponent and keeps the invariant. *)
Lemma shr_inv_shr (X : Z) (mrs : shr_record) (e n : Z) :
  shr_inv X 0 mrs ->
  snd (shr mrs e n) = e + Z.max 0 n
  /\ shr_inv X (Z.max 0 n) (fst (shr mrs e n)).
Proof.
  intros Hinv. destruct n as [| p | p]; cbn [shr fst snd].
  - split; [lia | exact Hinv].
  - split; [lia |]. change (Z.max 0 (Zpos p)) with (0 + Zpos p).
    apply iter_shr_1_inv; [lia | exact Hinv].
  - split; [lia | exact Hinv].
Qed.

(** Rounding to nearest: the rounded mantissa is within half a unit of the
    number that was shifted. *)
Lemma round_nearest_even_inv (X k : Z) (mrs : shr_record) :
  0 <= k -> shr_inv X k mrs ->
  let m := round_nearest_even (shr_m mrs) (loc_of_shr_record mrs) in
  shr_m mrs * 2 ^ k <= X < (shr_m mrs + 1) * 2 ^ k
  /\ shr_m mrs <= m <= shr_m mrs + 1
  /\ 2 * (m * 2 ^ k) <= 2 * X + 2 ^ k
  /\ 2 * X <= 2 * (m * 2 ^ k) + 2 ^ k.
Proof.
  intros Hk (Hm & L & HL & HX & Hs). destruct mrs as [m r s].
  cbn [shr_m shr_r shr_s] in *.
  assert (Hpow : 0 < 2 ^ k) by (apply Z.pow_pos_nonneg; lia).
  assert (H1 : 2 ^ (k + 1) = 2 * 2 ^ k) by (rewrite Z.pow_add_r by lia; lia).
  rewrite H1 in HX. set (D := 2 ^ k) in *.
  destruct r, s; cbn [loc_of_shr_record round_nearest_even].
  - split_and!; lia.
  - assert (L = 0) by (apply Hs; reflexivity).
    destruct (Z.even m); split_and!; lia.
  - split_and!; lia.
  - assert (L = 0) by (apply Hs; reflexivity). split_and!; lia.
Qed.

Lemma Zdigits2_bound (m : Z) : 0 <= m -> m < 2 ^ Zdigits2 m.
Proof.
  intros Hm. destruct m as [| p | p]; cbn [Zdigits2]; [reflexivity | | lia].
  apply digits2_pos_bounds.
Qed.

(** The rounded product of a double in [0, 1] and 100.  The inputs of
    [binary_round_aux] are a mantissa [mx] and an exponent [ex <= -98] with
    [mx * 2^ex <= 100]; the result is 0 or a double [m * 2^e] below 100.5,
    with [e <= -46], and it is within half a unit [2^e] of [mx * 2^ex]. *)
Lemma round_small_product (mx : positive) (ex : Z) :
  ex <= -98 ->
  Zpos mx <= 100 * 2 ^ (- ex) ->
  exists m e : Z,
    binary_round_aux prec64 emax64 false (Zpos mx) ex loc_Exact
    = match m with
      | Zpos p => S754_finite false p e
      | _ => S754_zero false
      end
    /\ 0 <= m
    /\ ex <= e <= -46
    /\ 2 * m < 201 * 2 ^ (- e)
    /\ 2 * (m * 2 ^ (e - ex)) <= 2 * Zpos mx + 2 ^ (e - ex)
    /\ 2 * Zpos mx <= 2 * (m * 2 ^ (e - ex)) + 2 ^ (e - ex).
Proof.
  intros Hex Hmx. unfold binary_round_aux, shr_fexp.
  (* first shift *)
  set (n1 := fexp prec64 emax64 (Zdigits2 (Zpos mx) + ex) - ex).
  destruct (shr_inv_shr (Zpos mx) (shr_record_of_loc (Zpos mx) loc_Exact) ex n1)
    as (He1 & Hinv1); [apply shr_inv_start; lia |].
  destruct (shr (shr_record_of_loc (Zpos mx) loc_Exact) ex n1) as [mrs1 e1].
  cbn [fst snd] in He1, Hinv1.
  set (d1 := Z.max 0 n1) in *.
  assert (Hd1 : 0 <= d1) by lia.
  assert (Hpow7 : Zpos mx < 2 ^ (7 - ex)).
  { replace (7 - ex) with (7 + - ex) by lia. rewrite Z.pow_add_r by lia.
    assert (0 < 2 ^ (- ex)) by (apply Z.pow_pos_nonneg; lia).
    change (2 ^ 7) with 128. lia. }
  assert (Hdig1 : Zdigits2 (Zpos mx) <= 7 - ex) by (apply Zdigits2_le; lia).
  pose proof (Zdigits2_bound (Zpos mx) ltac:(lia)) as Hdg.
  assert (Hdg0 : 0 < Zdigits2 (Zpos mx)) by (cbn [Zdigits2]; lia).
  assert (He1le : e1 <= -46).
  { subst e1 d1 n1. unfold fexp, emin, prec64, emax64 in *. lia. }
  assert (He1min : -1074 <= e1).
  { subst e1 d1 n1. unfold fexp, emin, prec64, emax64 in *. lia. }
  assert (Hshift : Zdigits2 (Zpos mx) <= 53 + d1).
  { subst d1 n1. unfold fexp, emin, prec64, emax64 in *. lia. }
  pose proof (round_nearest_even_inv (Zpos mx) d1 mrs1 Hd1 Hinv1)
    as (Hfloor & Hround & Hup & Hdown).
  destruct Hinv1 as (Hm1pos & _).
  set (q := shr_m mrs1) in *.
  set (m1 := round_nearest_even q (loc_of_shr_record mrs1)) in *.
  cbv zeta in Hround, Hup, Hdown.
  assert (HD : 0 < 2 ^ d1) by (apply Z.pow_pos_nonneg; lia).
  assert (Hq53 : q < 2 ^ 53).
  { assert (Hle : 2 ^ Zdigits2 (Zpos mx) <= 2 ^ (53 + d1))
      by (apply Z.pow_le_mono_r; lia).
    rewrite Z.pow_add_r in Hle by lia.
    destruct (Z.lt_ge_cases q (2 ^ 53)) as [| Hge]; [assumption |]. exfalso.
    assert (2 ^ 53 * 2 ^ d1 <= q * 2 ^ d1)
      by (apply Z.mul_le_mono_nonneg_r; lia).
    lia. }
  assert (Hsplit : 2 ^ (- ex) = 2 ^ (- e1) * 2 ^ d1).
  { rewrite <- Z.pow_add_r by lia. f_equal. lia. }
  assert (Hp1 : 0 < 2 ^ (- e1)) by (apply Z.pow_pos_nonneg; lia).
  assert (Hbig1 : 2 ^ 46 <= 2 ^ (- e1)) by (apply Z.pow_le_mono_r; lia).
  assert (Hqle : q <= 100 * 2 ^ (- e1)).
  { destruct (Z.le_gt_cases q (100 * 2 ^ (- e1))) as [| Hgt]; [assumption |].
    exfalso.
    assert ((100 * 2 ^ (- e1) + 1) * 2 ^ d1 <= q * 2 ^ d1)
      by (apply Z.mul_le_mono_nonneg_r; lia).
    rewrite Hsplit in Hmx. lia. }
  replace (e1 - ex) with d1 in * by lia.
  (* second shift *)
  set (n2 := fexp prec64 emax64 (Zdigits2 m1 + e1) - e1).
  destruct (Z.lt_ge_cases m1 (2 ^ 53)) as [Hsmall | Hlarge].
  - (* the rounded mantissa has at most 53 digits: it stays *)
    assert (Hdig2 : Zdigits2 m1 <= 53) by (apply Zdigits2_le; lia).
    assert (Hn2 : n2 <= 0).
    { subst n2. unfold fexp, emin, prec64, emax64 in *. lia. }
    assert (Hshr : shr (shr_record_of_loc m1 loc_Exact) e1 n2
                   = (shr_record_of_loc m1 loc_Exact, e1)).
    { clearbody n2. destruct n2 as [| p | p]; [reflexivity | lia | reflexivity]. }
    rewrite Hshr. cbn [shr_record_of_loc shr_m].
    exists m1, e1. replace (e1 - ex) with d1 by lia.
    change (2 ^ 46) with 70368744177664 in Hbig1.
    split_and!; try lia.
    destruct m1 as [| p | p]; [reflexivity | | lia].
    destruct (Z.leb_spec e1 (emax64 - prec64)) as [| Hover];
      [reflexivity | unfold emax64, prec64 in Hover; lia].
  - (* the rounded mantissa is 2^53: it is halved *)
    assert (Hm1 : m1 = 2 ^ 53) by lia.
    assert (He47 : e1 <= -47).
    { destruct (Z.eq_dec e1 (-46)) as [Heq | Hne]; [| lia]. exfalso.
      rewrite Heq in Hqle. change (2 ^ (- -46)) with 70368744177664 in Hqle.
      change (2 ^ 53) with 9007199254740992 in Hm1. lia. }
    assert (Hn2 : n2 = 1).
    { subst n2. rewrite Hm1.
      assert (Hd : Zdigits2 (2 ^ 53) = 54) by (vm_compute; reflexivity).
      rewrite Hd. unfold fexp, emin, prec64, emax64 in *. lia. }
    rewrite Hn2, Hm1. cbn [shr SpecFloat.iter_pos fst snd shr_record_of_loc].
    assert (Hhalf : shr_1 {| shr_m := 2 ^ 53; shr_r := false; shr_s := false |}
                    = {| shr_m := 2 ^ 52; shr_r := false; shr_s := false |})
      by (vm_compute; reflexivity).
    rewrite Hhalf. cbn [shr_m].
    exists (2 ^ 52), (e1 + 1).
    assert (Hp2 : 0 < 2 ^ (- (e1 + 1))) by (apply Z.pow_pos_nonneg; lia).
    assert (Hbig2 : 2 ^ 46 <= 2 ^ (- (e1 + 1))) by (apply Z.pow_le_mono_r; lia).
    assert (Hd2 : 2 ^ (e1 + 1 - ex) = 2 * 2 ^ d1).
    { replace (e1 + 1 - ex) with (d1 + 1) by lia.
      rewrite Z.pow_add_r by lia. lia. }
    rewrite Hd2. rewrite Hm1 in Hup, Hdown.
    change (2 ^ 53) with (2 * 2 ^ 52) in Hup, Hdown.
    change (2 ^ 46) with 70368744177664 in Hbig2.
    assert (H52 : 2 ^ 52 = 4503599627370496) by reflexivity.
    split_and!; try lia.
    + rewrite H52.
      destruct (Z.leb_spec (e1 + 1) (emax64 - prec64)) as [| Hover];
        [reflexivity | unfold emax64, prec64 in Hover; lia].
Qed.

(** ** Percentages *)

Lemma nearest_int_bounds (num den : Z) :
  0 < den ->
  2 * den * nearest_int num den <= 2 * num + den < 2 * den * (nearest_int num den + 1).
Proof.
  intros Hden. unfold nearest_int.
  pose proof (Z.mul_div_le (2 * num + den) (2 * den) ltac:(lia)).
  pose proof (Z.mul_succ_div_gt (2 * num + den) (2 * den) ltac:(lia)).
  lia.
Qed.

(** The value of a positive double with a negative exponent, as a fraction. *)
Lemma SF2Q_fraction (m : positive) (e : Z) :
  e < 0 ->
  (SF2Q (S754_finite false m e) == Zpos m # Z.to_pos (2 ^ (- e)))%Q.
Proof.
  intros He. unfold SF2Q. destruct e as [| p | p]; try lia.
  change (- Zneg p) with (Zpos p).
  change (Qpower 2 (Zneg p)) with (/ Qpower (inject_Z 2) (Zpos p))%Q.
  rewrite <- Zpower_Qpower by lia.
  assert (Hpos : 0 < 2 ^ Zpos p) by (apply Z.pow_pos_nonneg; lia).
  destruct (2 ^ Zpos p) as [| k | k] eqn:Hk; try lia.
  cbn [Z.to_pos]. unfold Qeq, Qmult, Qinv, inject_Z. cbn. lia.
Qed.

(** The bounds of a percentage, on fractions: [m' / A'] is the rounded
    product, [n] the integer nearest to it, [m / A] the double that was
    multiplied by 100, and [B] the power of two by which the rounding
    shifted. *)
Lemma percent_bounds (m' A' m A B n : Z) :
  0 <= m' -> 0 <= m -> 0 < A -> 0 < B -> 70368744177664 <= A' ->
  (exists a, A' = 2 * a) ->
  A' * B = A * 70368744177664 ->
  2 * (m' * B) <= 2 * (m * 7036874417766400) + B ->
  2 * (m * 7036874417766400) <= 2 * (m' * B) + B ->
  2 * A' * n <= 2 * m' + A' < 2 * A' * (n + 1) ->
  (inject_Z n - (1 # 2) <= m' # Z.to_pos A')%Q
  /\ (m' # Z.to_pos A' < inject_Z n + (1 # 2))%Q
  /\ ((m' # Z.to_pos A') - (1 # 140737488355328) <= (100 # 1) * (m # Z.to_pos A))%Q
  /\ ((100 # 1) * (m # Z.to_pos A) <= (m' # Z.to_pos A') + (1 # 140737488355328))%Q
  /\ ((100 # 1) * (m # Z.to_pos A) < inject_Z n + (1 # 2))%Q.
Proof.
  intros Hm' Hm HA HB HA' [a Ha] HAB Hup Hdown Hn.
  unfold Qle, Qlt, Qminus, Qplus, Qopp, Qmult, inject_Z. cbn [Qnum Qden].
  rewrite !Pos2Z.inj_mul, !Z2Pos.id by lia.
  assert (HBA : B <= A) by nia.
  assert (Hlin1 : m' * B * 140737488355328 - A * 70368744177664
                  <= 100 * m * 140737488355328 * 70368744177664) by lia.
  assert (Hlin2 : 100 * m * 140737488355328 * 70368744177664
                  <= m' * B * 140737488355328 + A * 70368744177664) by lia.
  assert (Hcancel : forall x y : Z, x * B <= y * B -> x <= y).
  { intros x y Hxy. apply (Z.mul_le_mono_pos_r x y B HB). exact Hxy. }
  split_and!.
  - lia.
  - lia.
  - apply Hcancel.
    replace ((m' * 140737488355328 + - (1) * A') * (1 * A) * B)
      with (A * (m' * B * 140737488355328) - A' * B * A) by ring.
    replace (100 * m * (A' * 140737488355328) * B)
      with (100 * m * 140737488355328 * (A' * B)) by ring.
    rewrite HAB. nia.
  - apply Hcancel.
    replace ((m' * 140737488355328 + 1 * A') * (1 * A) * B)
      with (A * (m' * B * 140737488355328) + A' * B * A) by ring.
    replace (100 * m * (A' * 140737488355328) * B)
      with (100 * m * 140737488355328 * (A' * B)) by ring.
    rewrite HAB. nia.
  - assert (Hnext : 2 * m' + 2 <= A' * (2 * n + 1)) by (subst A'; lia).
    assert (HnextB : (2 * m' + 2) * B <= A' * (2 * n + 1) * B)
      by (apply Z.mul_le_mono_nonneg_r; lia).
    apply (Z.mul_lt_mono_pos_r 70368744177664); [lia |].
    replace ((n * 2 + 1 * 1) * (1 * A) * 70368744177664)
      with ((2 * n + 1) * (A * 70368744177664)) by ring.
    rewrite <- HAB. lia.
Qed.

Section Percent.
Context `{Host}.

Lemma percent_zero (s : bool) : percent (S754_zero s) = "0%".
Proof. destruct s; reflexivity. Qed.


End Percent.



(** The product the code rounds is a double itself: 0.045 * 100 is the
    double 4.5, above the exact product, and 0.125 * 100 is 12.5; both are
    halfway, and both are rounded up. *)
Example percent_halfway :
  @percent sample_host d0_045 = "5%"
  /\ @percent sample_host d0_125 = "13%"
  /\ @percent sample_host d0_87 = "87%"
  /\ @percent sample_host one64 = "100%"
  /\ @percent sample_host zero64 = "0%".
Proof. repeat split. Qed.

Example product_of_0_045 :
  (SF2Q (mul64 d0_045 hundred64) == 9 # 2)%Q
  /\ ((100 # 1) * SF2Q d0_045 < 9 # 2)%Q
  /\ (SF2Q hundred64 == 100 # 1)%Q.
Proof. vm_compute. repeat split. Qed.

(** * The shape of every run *)

Section Logic.
Context `{Host}.

Lemma run_status (c : Command) (w : World) :
  run c w = (status (fst (action c w)), snd (action c w)).
Proof. unfold run. destruct (action c w) as [[a | e | code] w']; reflexivity. Qed.

Section Printing.
Variable late : Thrown -> Prop.

Lemma prints_ret {A : Type} (a : A) : prints late (ret a).
Proof. intros w. exists []. cbn. rewrite add_events_nil. split; [reflexivity | exact I]. Qed.

Lemma prints_log (line : Text) : prints late (console_log line).
Proof. intros w. exists [line]. cbn. split; [reflexivity | exact I]. Qed.

Lemma prints_bind {A B : Type} (m : Run A) (k : A -> Run B) :
  prints late m -> (forall a, prints late (k a)) -> prints late (bind m k).
Proof.
  intros Hm Hk w. unfold bind. destruct (Hm w) as (lines1 & Hw1 & Ho1).
  destruct (m w) as [[a | e | code] w1]; cbn [fst snd] in *.
  - destruct (Hk a w1) as (lines2 & Hw2 & Ho2). exists (lines1 ++ lines2).
    split; [| exact Ho2]. rewrite Hw2, Hw1, add_events_app, map_app. reflexivity.
  - exists lines1. split; assumption.
  - destruct Ho1.
Qed.

Lemma prints_for_each {A : Type} (l : list A) (f : A -> Run unit) :
  (forall x, prints late (f x)) -> prints late (for_each l f).
Proof.
  intros Hf. induction l as [| x l IH]; cbn [for_each].
  - apply prints_ret.
  - apply prints_bind; [apply Hf | intros _; exact IH].
Qed.

Lemma prints_for_each_from {A : Type} (l : list A) (f : A -> Z -> Run unit) (i : Z) :
  (forall x j, prints late (f x j)) -> prints late (for_each_from i l f).
Proof.
  intros Hf. revert i. induction l as [| x l IH]; intros i; cbn [for_each_from].
  - apply prints_ret.
  - apply prints_bind; [apply Hf | intros _; apply IH].
Qed.

(** The body of a command: the request, the end of the spinner, the lines. *)
Lemma serves_call {R : Type} (client : Client) (req : Request R) (print : R -> Run unit) :
  (forall r, prints late (print r)) ->
  serves late (client_key client)
    (bind (call client req) (fun r => bind spinner_stop (fun _ => print r))).
Proof.
  intros Hprint w. unfold call, lift, spinner_stop, emit, bind at 1 2; cbn.
  destruct (remote R (client_key client) req) as [e | r] eqn:Hremote; cbn.
  - apply (served_refused _ _ _ R req e Hremote).
  - unfold bind. cbn.
    set (w1 := {| config := config w; files := files w;
                  trace := (trace w ++ [Remote R (client_key client) req])
                           ++ [SpinnerStop] |}).
    destruct (Hprint r w1) as (lines & Hw2 & Ho).
    assert (Hw : add_events w1 (map Log lines)
                 = add_events w (Remote R (client_key client) req :: SpinnerStop
                                   :: map Log lines)).
    { unfold add_events, w1; cbn. f_equal. rewrite <- !app_assoc. reflexivity. }
    destruct (print r w1) as [[[] | e | code] w2]; cbn [fst snd] in *; subst w2;
      rewrite Hw.
    + apply (served_answered _ _ _ R req r lines Hremote).
    + apply (served_late _ _ _ R req r lines e Hremote Ho).
    + destruct Ho.
Qed.

Lemma serves_after {A : Type} (key : string) (pre : Run A) (k : A -> Run unit) :
  silent pre -> (forall a, serves late key (k a)) -> serves late key (bind pre k).
Proof.
  intros Hpre Hk w. unfold bind. destruct (Hpre w) as [Hw1 Ho1].
  destruct (pre w) as [[a | e | code] w1]; cbn [fst snd] in *; subst w1.
  - apply Hk.
  - apply served_before.
  - exfalso. exact (Ho1 code eq_refl).
Qed.

Lemma given_Some (o : option string) (key : string) :
  o = Some key -> truthy key = true -> given o = Some key.
Proof. intros -> Ht. cbn. rewrite Ht. reflexivity. Qed.

(** The frame around a body. *)
Lemma with_spinner_serves (text : string) (k : Client -> Run unit) (w : World) :
  (forall client, serves late (client_key client) (k client)) ->
  exists (o : Outcome unit) (es : list Event),
    with_spinner text (bind getClient k) w = (o, add_events w es)
    /\ SpinnerShape late (config w !! "apiKey") (status o) es.
Proof.
  intros Hk.
  destruct (config w !! "apiKey") as [key |] eqn:Hkey.
  - destruct (truthy key) eqn:Htruthy.
    + destruct (new_Tuteliq key) as [error |] eqn:Hnew.
      * eexists _, _. split.
        -- apply (with_spinner_rejected_key _ _ _ _ _ Hkey Htruthy Hnew).
        -- apply (shape_before_call _ _ _ key).
           apply given_Some; [reflexivity | exact Htruthy].
      * assert (Hin : logged_in w key) by (repeat split; assumption).
        assert (Hgiven : given (Some key) = Some key)
          by (apply given_Some; [reflexivity | exact Htruthy]).
        rewrite (with_spinner_logged_in _ _ _ _ Hin). unfold try_catch.
        specialize (Hk {| client_key := key |} (add_events w [SpinnerStart text])).
        cbn [client_key] in Hk.
        destruct Hk as [e | R req e Hremote | R req r lines Hremote
                        | R req r lines e Hremote Hlate].
        -- eexists _, _. split.
           ++ unfold report_error, emit, console_error, process_exit, bind, add_events; cbn.
              rewrite <- !app_assoc. reflexivity.
           ++ apply (shape_before_call _ _ _ key _ Hgiven).
        -- eexists _, _. split.
           ++ unfold report_error, emit, console_error, process_exit, bind, add_events; cbn.
              rewrite <- !app_assoc. reflexivity.
           ++ apply (shape_refused _ _ _ key R req e Hgiven Hremote).
        -- eexists _, _. split.
           ++ rewrite add_events_app. reflexivity.
           ++ apply (shape_answered _ _ _ key R req r lines Hgiven Hremote).
        -- eexists _, _. split.
           ++ unfold report_error, emit, console_error, process_exit, bind, add_events; cbn.
              rewrite <- !app_assoc. cbn [app]. reflexivity.
           ++ apply (shape_late _ _ _ key R req r lines e Hgiven Hremote Hlate).
    + destruct key; [| discriminate Htruthy]. eexists _, _. split.
      * apply (with_spinner_empty_key _ _ _ Hkey).
      * apply shape_no_key. reflexivity.
  - eexists _, _. split.
    + apply (with_spinner_missing _ _ _ Hkey).
    + apply shape_no_key. reflexivity.
Qed.

End Printing.

Lemma prints_severity (label : string) : prints label_error (lift (formatSeverity label)).
Proof.
  intros w. exists []. unfold lift.
  destruct (formatSeverity label) as [e | t] eqn:Hf; cbn; rewrite add_events_nil;
    (split; [reflexivity |]).
  - exists label. left. exact Hf.
  - exact I.
Qed.

Lemma prints_risk (label : string) : prints label_error (lift (formatRisk label)).
Proof.
  intros w. exists []. unfold lift.
  destruct (formatRisk label) as [e | t] eqn:Hf; cbn; rewrite add_events_nil;
    (split; [reflexivity |]).
  - exists label. right. exact Hf.
  - exact I.
Qed.

Lemma silent_readFileSync (path : string) : silent (readFileSync path).
Proof.
  intros w. unfold readFileSync. destruct (files w !! path); cbn;
    (split; [reflexivity | discriminate]).
Qed.

Lemma silent_ret {A : Type} (a : A) : silent (ret a).
Proof. intros w. split; [reflexivity | discriminate]. Qed.

Lemma silent_throw {A : Type} (e : Thrown) : silent (@throw A e).
Proof. intros w. split; [reflexivity | discriminate]. Qed.

Lemma SpinnerShape_weaken (late late' : Thrown -> Prop) (stored : option string)
    (code : Z) (es : list Event) :
  (forall e, late e -> late' e) ->
  SpinnerShape late stored code es -> SpinnerShape late' stored code es.
Proof.
  intros Hsub Hshape. destruct Hshape.
  - apply shape_no_key; assumption.
  - eapply shape_before_call; eassumption.
  - eapply shape_refused; eassumption.
  - eapply shape_answered; eassumption.
  - eapply shape_late; [eassumption | eassumption | apply Hsub; assumption].
Qed.

Ltac prints_step :=
  lazymatch goal with
  | |- prints _ (bind _ _) => apply prints_bind; [| intros ?]
  | |- prints _ (ret _) => apply prints_ret
  | |- prints _ (console_log _) => apply prints_log
  | |- prints _ (lift (formatSeverity _)) => apply prints_severity
  | |- prints _ (lift (formatRisk _)) => apply prints_risk
  | |- prints _ (for_each _ _) => apply prints_for_each; intros ?
  | |- prints _ (for_each_from _ _ _) => apply prints_for_each_from; intros ? ?
  | |- prints _ (print_rationale _ _) => unfold print_rationale
  | |- prints _ (print_features _) => unfold print_features
  | |- prints _ (match ?x with _ => _ end) => destruct x; cbv beta iota
  end.

Ltac prints := cbv zeta; repeat prints_step.

Ltac silent_step :=
  lazymatch goal with
  | |- silent (readFileSync _) => apply silent_readFileSync
  | |- silent (ret _) => apply silent_ret
  | |- silent (throw _) => apply silent_throw
  | |- silent (match ?x with _ => _ end) => destruct x; cbv beta iota
  end.

Ltac serves :=
  cbv zeta;
  lazymatch goal with
  | |- serves _ _ (bind (call _ _) _) => apply serves_call; intros ?; prints
  | |- serves _ _ (bind _ _) =>
      apply serves_after;
      [ repeat silent_step
      | intros ?; cbv zeta; apply serves_call; intros ?; prints ]
  | |- serves _ _ (match ?x with _ => _ end) => destruct x; cbv beta iota; serves
  end.

Ltac spinner_commands :=
  try (apply with_spinner_serves; intros ?; serves; fail).

(** The commands that format a label. *)
Lemma spinner_run_label (c : Command) (w : World) :
  uses_spinner c = true ->
  formats_label c = true ->
  exists (code : Z) (es : list Event),
    run c w = (code, add_events w es)
    /\ SpinnerShape label_error (config w !! "apiKey") code es.
Proof.
  intros Huses Hformats. rewrite run_status.
  assert (Hgoal : exists (o : Outcome unit) (es : list Event),
             action c w = (o, add_events w es)
             /\ SpinnerShape label_error (config w !! "apiKey") (status o) es).
  { unfold action. destruct c; try discriminate Hformats; autounfold with actions;
      spinner_commands. }
  destruct Hgoal as (o & es & Hrun & Hshape). exists (status o), es.
  rewrite Hrun. split; [reflexivity | exact Hshape].
Qed.

(** The commands that format no label and write no file: once the service has
    answered, nothing is thrown. *)
Lemma spinner_run_plain (c : Command) (w : World) :
  uses_spinner c = true ->
  formats_label c = false ->
  (forall output, c <> account_export output) ->
  exists (code : Z) (es : list Event),
    run c w = (code, add_events w es)
    /\ SpinnerShape no_error (config w !! "apiKey") code es.
Proof.
  intros Huses Hformats Hnot. rewrite run_status.
  assert (Hgoal : exists (o : Outcome unit) (es : list Event),
             action c w = (o, add_events w es)
             /\ SpinnerShape no_error (config w !! "apiKey") (status o) es).
  { unfold action. destruct c; try discriminate Huses; try discriminate Hformats;
      autounfold with actions; spinner_commands.
    - destruct confirm; [| discriminate Huses].
      unfold account_delete_action, bind at 1, ret.
      apply with_spinner_serves; intros ?; serves.
    - exfalso. eapply Hnot. reflexivity. }
  destruct Hgoal as (o & es & Hrun & Hshape). exists (status o), es.
  rewrite Hrun. split; [reflexivity | exact Hshape].
Qed.


(** [account export]: the same shapes; the one file it may write is the one
    named by a non-empty [--output]. *)
Lemma export_run (output : option string) (w : World) :
  exists (code : Z) (es : list Event) (fs : gmap string string),
    run (account_export output) w
    = (code, {| config := config w; files := fs; trace := trace w ++ es |})
    /\ SpinnerShape write_failure (config w !! "apiKey") code es
    /\ (fs = files w
        \/ exists (path key : string) (v : json),
             given output = Some path
             /\ given (config w !! "apiKey") = Some key
             /\ remote json key exportAccountData = inr v
             /\ fs = <[path := JSON.stringify v 2]> (files w)).
Proof.
  rewrite run_status. unfold action, account_export_action.
  destruct (given output) as [path |] eqn:Hgiven.
  - destruct (config w !! "apiKey") as [key |] eqn:Hkey.
    + destruct (truthy key) eqn:Htruthy.
      * assert (Hg : given (Some key) = Some key)
          by (apply given_Some; [reflexivity | exact Htruthy]).
        destruct (new_Tuteliq key) as [error |] eqn:Hnew.
        -- rewrite (with_spinner_rejected_key _ _ _ _ _ Hkey Htruthy Hnew).
           eexists _, _, _. split; [reflexivity |]. split; [| left; reflexivity].
           apply (shape_before_call _ _ _ key _ Hg).
        -- assert (Hin : logged_in w key) by (repeat split; assumption).
           rewrite (with_spinner_logged_in _ _ _ _ Hin). exec.
           destruct (remote json key exportAccountData) as [e | v] eqn:Hremote; exec.
           ++ eexists _, _, _. split; [flatten_trace; reflexivity |].
              split; [| left; reflexivity].
              apply (shape_refused _ _ _ key json exportAccountData e Hg Hremote).
           ++ unfold writeFileSync. destruct (write_error path) as [e |] eqn:Hwrite; exec.
              ** eexists _, _, _. split; [flatten_trace; reflexivity |].
                 split; [| left; reflexivity].
                 apply (shape_late _ _ _ key json exportAccountData v [] e Hg Hremote).
                 exists path. exact Hwrite.
              ** eexists _, _, _. split; [flatten_trace; reflexivity |].
                 split; [| right; exists path, key, v; repeat split; assumption].
                 apply (shape_answered _ _ _ key json exportAccountData v
                          [chalk [green; bold] ("✓ Data exported to " +:+ path)] Hg Hremote).
      * destruct key; [| discriminate Htruthy].
        rewrite (with_spinner_empty_key _ _ _ Hkey).
        eexists _, _, _. split; [reflexivity |]. split; [| left; reflexivity].
        apply shape_no_key. reflexivity.
    + rewrite (with_spinner_missing _ _ _ Hkey).
      eexists _, _, _. split; [reflexivity |]. split; [| left; reflexivity].
      apply shape_no_key. reflexivity.
  - destruct (with_spinner_serves write_failure "Exporting account data..."
                (fun client =>
                   result <- call client exportAccountData ;;
                   spinner_stop ;;
                   console_log (plain (JSON.stringify result 2))) w)
      as (o & es & Hrun & Hshape).
    { intros client. serves. }
    rewrite Hrun. exists (status o), es, (files w).
    split; [reflexivity |]. split; [exact Hshape | left; reflexivity].
Qed.


Lemma late_cause_label (c : Command) (e : Thrown) :
  formats_label c = true -> label_error e -> late_cause c e.
Proof. intros Hc He. destruct c; try discriminate Hc; exact He. Qed.

Lemma late_cause_plain (c : Command) (e : Thrown) : no_error e -> late_cause c e.
Proof. intros []. Qed.

(** Every command with a spinner: the store is left as it is, and the events
    it adds have one of the five shapes. *)
Lemma spinner_trace (c : Command) (w : World) :
  uses_spinner c = true ->
  exists (code : Z) (es : list Event),
    fst (run c w) = code
    /\ config (snd (run c w)) = config w
    /\ trace (snd (run c w)) = trace w ++ es
    /\ SpinnerShape (late_cause c) (config w !! "apiKey") code es.
Proof.
  intros Huses.
  assert (Hcases : (exists output, c = account_export output)
                   \/ (forall output, c <> account_export output)).
  { destruct c; try (right; discriminate). left. eexists. reflexivity. }
  destruct Hcases as [[output ->] | Hnot].
  - destruct (export_run output w) as (code & es & fs & Hrun & Hshape & _).
    exists code, es. rewrite Hrun. repeat split. exact Hshape.
  - destruct (formats_label c) eqn:Hformats.
    + destruct (spinner_run_label c w Huses Hformats) as (code & es & Hrun & Hshape).
      exists code, es. rewrite Hrun. repeat split.
      apply (SpinnerShape_weaken label_error); [| exact Hshape].
      intros e. apply late_cause_label. exact Hformats.
    + destruct (spinner_run_plain c w Huses Hformats Hnot) as (code & es & Hrun & Hshape).
      exists code, es. rewrite Hrun. repeat split.
      apply (SpinnerShape_weaken no_error); [| exact Hshape].
      intros e. apply late_cause_plain.
Qed.

(** The other commands print lines and exit with 0. *)
Lemma local_run (c : Command) (w : World) :
  uses_spinner c = false ->
  exists lines : list Text,
    fst (run c w) = 0
    /\ files (snd (run c w)) = files w
    /\ trace (snd (run c w)) = trace w ++ map Log lines.
Proof.
  intros Huses. destruct c; try discriminate Huses.
  - rewrite run_login. eexists [_; _]. repeat split.
  - rewrite run_logout. eexists [_]. repeat split.
  - destruct (given (config w !! "apiKey")) as [key |] eqn:Hgiven.
    + assert (Hkey : config w !! "apiKey" = Some key /\ truthy key = true).
      { destruct (config w !! "apiKey") as [k |]; [| discriminate Hgiven].
        cbn in Hgiven. destruct (truthy k) eqn:Ht; [| discriminate Hgiven].
        injection Hgiven as ->. split; [reflexivity | exact Ht]. }
      rewrite (run_whoami_key key w (proj1 Hkey) (proj2 Hkey)).
      eexists [_; _]. repeat split.
    + rewrite (run_whoami_none w Hgiven). eexists [_; _]. repeat split.
  - destruct confirm; [discriminate Huses |].
    rewrite account_delete_unconfirmed. eexists [_; _]. repeat split.
Qed.

Lemma stderr_logs (lines : list Text) : stderr (map Log lines) = [].
Proof. induction lines as [| line lines IH]; [reflexivity | exact IH]. Qed.

Lemma remote_calls_logs (lines : list Text) : remote_calls (map Log lines) = 0%nat.
Proof. induction lines as [| line lines IH]; [reflexivity | exact IH]. Qed.

Lemma event_key_logs (lines : list Text) (key : string) :
  ~ In (Some key) (map event_key (map Log lines)).
Proof.
  induction lines as [| line lines IH]; cbn; [tauto |].
  intros [Heq | Hin]; [discriminate Heq | exact (IH Hin)].
Qed.

Lemma answered_logs (lines : list Text) : existsb answered (map Log lines) = false.
Proof. induction lines as [| line lines IH]; [reflexivity | exact IH]. Qed.

Lemma given_inv (o : option string) (key : string) :
  given o = Some key -> o = Some key /\ key <> "".
Proof.
  destruct o as [k |]; [| discriminate]. cbn.
  destruct (truthy k) eqn:Ht; [| discriminate].
  intros [= ->]. split; [reflexivity |]. apply truthy_nonempty. exact Ht.
Qed.

End Logic.

(** * What every run does and leaves alone *)

Section Runs.
Context `{Host}.

Lemma shape_split (a b c : Event) (l : list Event) : a :: b :: c :: l = [a; b; c] ++ l.
Proof. reflexivity. Qed.

Lemma remote_calls_cons (e : Event) (l : list Event) :
  remote_calls (e :: l) = ((if is_remote e then 1 else 0) + remote_calls l)%nat.
Proof.
  unfold remote_calls. rewrite filter_cons.
  destruct (decide (is_remote e)) as [Hy | Hn]; destruct (is_remote e);
    try reflexivity; [exfalso; apply Hy | exfalso; apply Hn; exact I].
Qed.

Lemma remote_calls_nil : remote_calls [] = 0%nat.
Proof. reflexivity. Qed.

Ltac count_calls :=
  repeat first [ rewrite remote_calls_cons | rewrite remote_calls_app
               | rewrite remote_calls_logs | rewrite remote_calls_nil ];
  cbn [is_remote]; lia.

(** X1.  Every run of every command exits with status 0 or 1.  With 0 it has
    printed nothing with [console.error], with 1 exactly one line. *)
Theorem exit_status_matches_error_stream (c : Command) (w : World) :
  exists es : list Event,
    trace (snd (run c w)) = trace w ++ es
    /\ ((fst (run c w) = 0 /\ stderr es = [])
        \/ (fst (run c w) = 1 /\ exists line : Text, stderr es = [line])).
Proof.
  destruct (uses_spinner c) eqn:Huses.
  - destruct (spinner_trace c w Huses) as (code & es & Hcode & _ & Htrace & Hshape).
    exists es. split; [exact Htrace |]. rewrite Hcode.
    destruct Hshape.
    + right. split; [reflexivity |]. eexists. reflexivity.
    + right. split; [reflexivity |]. eexists. reflexivity.
    + right. split; [reflexivity |]. eexists. reflexivity.
    + left. split; [reflexivity |].
      rewrite shape_split, stderr_app, stderr_logs. reflexivity.
    + right. split; [reflexivity |]. eexists.
      rewrite shape_split, !stderr_app, stderr_logs. reflexivity.
  - destruct (local_run c w Huses) as (lines & Hcode & _ & Htrace).
    exists (map Log lines). split; [exact Htrace |]. left.
    split; [exact Hcode | apply stderr_logs].
Qed.

(** X2.  A run calls at most one method of the SDK client, and the client is
    the one made for the key that the store held when the run began, which is
    not empty; [login], [logout], [whoami] and [account delete] without
    [--confirm] call none. *)
Theorem remote_operation_uses_stored_key (c : Command) (w : World) :
  exists es : list Event,
    trace (snd (run c w)) = trace w ++ es
    /\ (remote_calls es <= 1)%nat
    /\ (uses_spinner c = false -> remote_calls es = 0%nat)
    /\ (forall key : string,
          In (Some key) (map event_key es) ->
          config w !! "apiKey" = Some key /\ key <> "").
Proof.
  destruct (uses_spinner c) eqn:Huses.
  - destruct (spinner_trace c w Huses) as (code & es & _ & _ & Htrace & Hshape).
    exists es. split; [exact Htrace |].
    destruct Hshape as [text Hg | text key e Hg | text key R req e Hg Hr
                        | text key R req r lines Hg Hr
                        | text key R req r lines e Hg Hr Hlate].
    + split; [count_calls |]. split; [discriminate |].
      cbn. intros key [Heq | [Heq | []]]; discriminate Heq.
    + split; [count_calls |]. split; [discriminate |].
      cbn. intros k [Heq | [Heq | [Heq | []]]]; discriminate Heq.
    + split; [count_calls |]. split; [discriminate |].
      cbn. intros k [Heq | [Heq | [Heq | [Heq | []]]]]; try discriminate Heq.
      injection Heq as <-. apply given_inv. exact Hg.
    + split; [| split; [discriminate |]].
      * count_calls.
      * cbn. intros k [Heq | [Heq | [Heq | Hin]]]; try discriminate Heq.
        -- injection Heq as <-. apply given_inv. exact Hg.
        -- exfalso. exact (event_key_logs _ _ Hin).
    + split; [| split; [discriminate |]].
      * count_calls.
      * cbn. intros k [Heq | [Heq | [Heq | Hin]]]; try discriminate Heq.
        -- injection Heq as <-. apply given_inv. exact Hg.
        -- rewrite map_app in Hin. apply in_app_or in Hin as [Hin | Hin].
           ++ exfalso. exact (event_key_logs _ _ Hin).
           ++ cbn in Hin. destruct Hin as [Heq | [Heq | []]]; discriminate Heq.
  - destruct (local_run c w Huses) as (lines & _ & _ & Htrace).
    exists (map Log lines). split; [exact Htrace |].
    rewrite remote_calls_logs. split; [lia |]. split; [reflexivity |].
    intros key Hin. exfalso. exact (event_key_logs _ _ Hin).
Qed.



Lemma answered_shape (a b c : Event) (l : list Event) :
  existsb answered (a :: b :: c :: l)
  = answered a || answered b || answered c || existsb answered l.
Proof. cbn [existsb]. rewrite !orb_assoc. reflexivity. Qed.

(** X4.  A command that needs the service prints on standard output only
    after the service has answered its request with a result: when no request
    was made or the request failed, the run prints nothing there and exits
    with status 1. *)
Theorem no_output_without_answer (c : Command) (w : World) :
  uses_spinner c = true ->
  exists es : list Event,
    trace (snd (run c w)) = trace w ++ es
    /\ (existsb answered es = false -> fst (run c w) = 1 /\ stdout es = []).
Proof.
  intros Huses.
  destruct (spinner_trace c w Huses) as (code & es & Hcode & _ & Htrace & Hshape).
  exists es. split; [exact Htrace |]. rewrite Hcode. intros Hnone.
  destruct Hshape as [text Hg | text key e Hg | text key R req e Hg Hr
                      | text key R req r lines Hg Hr
                      | text key R req r lines e Hg Hr Hlate].
  - split; reflexivity.
  - split; reflexivity.
  - split; reflexivity.
  - exfalso. rewrite answered_shape in Hnone. cbn [answered] in Hnone.
    rewrite Hr in Hnone. discriminate Hnone.
  - exfalso. rewrite answered_shape in Hnone. cbn [answered] in Hnone.
    rewrite Hr in Hnone. discriminate Hnone.
Qed.

(** X5.  Once the service has answered with a result that has every field
    its SDK type declares, as the result records of the embedding have, a
    command fails only for one of two reasons: one of the two formatters
    throws, in a command that formats a severity or a risk, or the export
    file cannot be written, in [account export].  It then exits with status 1
    and the [Error:] line of that exception; on such a result every other
    command exits with status 0. *)
Theorem failure_after_answer (c : Command) (w : World) :
  uses_spinner c = true ->
  exists es : list Event,
    trace (snd (run c w)) = trace w ++ es
    /\ (existsb answered es = true ->
        (fst (run c w) = 0 /\ stderr es = [])
        \/ exists e : Thrown,
             late_cause c e /\ fst (run c w) = 1 /\ stderr es = [error_line e])
    /\ (existsb answered es = true ->
        formats_label c = false ->
        (forall output, c <> account_export output) ->
        fst (run c w) = 0).
Proof.
  intros Huses.
  destruct (spinner_trace c w Huses) as (code & es & Hcode & _ & Htrace & Hshape).
  exists es. split; [exact Htrace |]. rewrite Hcode.
  destruct Hshape as [text Hg | text key e Hg | text key R req e Hg Hr
                      | text key R req r lines Hg Hr
                      | text key R req r lines e Hg Hr Hlate].
  - split; intros Hans; discriminate Hans.
  - split; intros Hans; discriminate Hans.
  - split; intros Hans; cbn [existsb answered] in Hans; rewrite Hr in Hans;
      discriminate Hans.
  - split; [| reflexivity]. intros _. left. split; [reflexivity |].
    rewrite shape_split, stderr_app, stderr_logs. reflexivity.
  - split.
    + intros _. right. exists e. split; [exact Hlate |]. split; [reflexivity |].
      rewrite shape_split, !stderr_app, stderr_logs. reflexivity.
    + intros _ Hformats Hnot. exfalso.
      destruct c; try discriminate Hformats; try exact Hlate.
      exact (Hnot _ eq_refl).
Qed.

Lemma try_catch_done {A B : Type} (m : Run A) (k : A -> Run B)
    (h : Thrown -> Run B) (w : World) (a : A) :
  m w = (Done a, w) -> try_catch (bind m k) h w = try_catch (k a) h w.
Proof. intros Hm. unfold try_catch, bind. rewrite Hm. reflexivity. Qed.

Lemma try_catch_threw {A B : Type} (m : Run A) (k : A -> Run B)
    (h : Thrown -> Run B) (w : World) (e : Thrown) :
  m w = (Threw e, w) -> try_catch (bind m k) h w = h e w.
Proof. intros Hm. unfold try_catch, bind. rewrite Hm. reflexivity. Qed.

(** A request that the service refuses. *)
Lemma body_refused {R : Type} (key : string) (req : Request R) (k : R -> Run unit)
    (w : World) (e : Thrown) :
  remote R key req = inl e ->
  try_catch (bind (call {| client_key := key |} req) k) report_error w
  = (Exited 1, add_events w [Remote R key req; SpinnerStop; LogError (error_line e)]).
Proof.
  intros Hremote. exec. rewrite Hremote. flatten_trace. reflexivity.
Qed.

Lemma readFileSync_present (path data : string) (w : World) :
  files w !! path = Some data -> readFileSync path w = (Done data, w).
Proof. intros Hfile. unfold readFileSync. rewrite Hfile. reflexivity. Qed.

Lemma readFileSync_absent (path : string) (w : World) :
  files w !! path = None ->
  readFileSync path w
  = (Threw (JsError "Error" ("ENOENT: no such file or directory, open '"
                               +:+ path +:+ "'")), w).
Proof. intros Hfile. unfold readFileSync. rewrite Hfile. reflexivity. Qed.

Ltac refused Hin Hfail :=
  rewrite (with_spinner_logged_in _ _ _ _ Hin); cbv beta;
  rewrite (body_refused _ _ _ _ _ (Hfail _ _)); rewrite add_events_app;
  eexists _, _, _; reflexivity.

(** X6.  When the service refuses every request, a command that reaches it
    (its local input is readable) makes its one request, stops the spinner,
    prints the [Error:] line with the message of the failure on the error
    stream and exits with status 1. *)
Theorem service_failure_is_reported (c : Command) (w : World) (key : string)
    (e : Thrown) :
  logged_in w key ->
  uses_spinner c = true ->
  reaches_service c w ->
  (forall (R : Type) (req : Request R), remote R key req = inl e) ->
  exists (text : string) (R : Type) (req : Request R),
    run c w
    = (1, add_events w [SpinnerStart text; Remote R key req; SpinnerStop;
                        LogError (error_line e)]).
Proof.
  intros Hin Huses Hreach Hfail. rewrite run_status.
  assert (Hgoal : exists (text : string) (R : Type) (req : Request R),
             action c w
             = (Exited 1, add_events w [SpinnerStart text; Remote R key req;
                                        SpinnerStop; LogError (error_line e)])).
  { unfold action. destruct c; try discriminate Huses; autounfold with actions;
      try (refused Hin Hfail).
    - destruct Hreach as [v Hparse]. rewrite Hparse.
      rewrite (with_spinner_logged_in _ _ _ _ Hin); cbv beta.
      rewrite (try_catch_done _ _ _ _ v eq_refl).
      rewrite (body_refused _ _ _ _ _ (Hfail _ _)), add_events_app.
      eexists _, _, _; reflexivity.
    - destruct confirm; [| discriminate Huses].
      unfold account_delete_action, bind at 1, ret. refused Hin Hfail.
    - destruct Hreach as [data Hfile].
      rewrite (with_spinner_logged_in _ _ _ _ Hin); cbv beta zeta.
      rewrite (try_catch_done _ _ _ _ data
                 (readFileSync_present _ _ (add_events w _) Hfile)).
      rewrite (body_refused _ _ _ _ _ (Hfail _ _)), add_events_app.
      eexists _, _, _; reflexivity.
    - destruct Hreach as [data Hfile].
      rewrite (with_spinner_logged_in _ _ _ _ Hin); cbv beta zeta.
      rewrite (try_catch_done _ _ _ _ data
                 (readFileSync_present _ _ (add_events w _) Hfile)).
      rewrite (body_refused _ _ _ _ _ (Hfail _ _)), add_events_app.
      eexists _, _, _; reflexivity.
    - destruct details; refused Hin Hfail. }
  destruct Hgoal as (text & R & req & Hrun). exists text, R, req.
  rewrite Hrun. reflexivity.
Qed.


(** The frame of [voice] and [image] when the file does not exist. *)
Lemma missing_file_frame (text file : string) (k : Client -> string -> Run unit)
    (w : World) :
  files w !! file = None ->
  exists es : list Event,
    with_spinner text (client <- getClient ;; buffer <- readFileSync file ;; k client buffer) w
    = (Exited 1, add_events w es)
    /\ remote_calls es = 0%nat
    /\ stdout es = []
    /\ (exists line : Text, stderr es = [line])
    /\ (forall key : string,
          logged_in w key ->
          es = [SpinnerStart text; SpinnerStop; LogError (error_line (no_such_file file))]).
Proof.
  intros Hfile.
  destruct (config w !! "apiKey") as [key |] eqn:Hkey.
  - destruct (truthy key) eqn:Htruthy.
    + destruct (new_Tuteliq key) as [error |] eqn:Hnew.
      * eexists. split; [apply (with_spinner_rejected_key _ _ _ _ _ Hkey Htruthy Hnew) |].
        split; [reflexivity |]. split; [reflexivity |]. split; [eexists; reflexivity |].
        intros key' (Hkey' & _ & Hnew'). congruence.
      * assert (Hin : logged_in w key) by (repeat split; assumption).
        eexists. split.
        -- rewrite (with_spinner_logged_in _ _ _ _ Hin); cbv beta.
           rewrite (try_catch_threw _ _ _ _ _
                      (readFileSync_absent _ (add_events w _) Hfile)).
           exec. flatten_trace. reflexivity.
        -- split; [reflexivity |]. split; [reflexivity |].
           split; [eexists; reflexivity |]. intros _ _. reflexivity.
    + destruct key; [| discriminate Htruthy].
      eexists. split; [apply (with_spinner_empty_key _ _ _ Hkey) |].
      split; [reflexivity |]. split; [reflexivity |]. split; [eexists; reflexivity |].
      intros key' (Hkey' & Htruthy' & _). rewrite Hkey in Hkey'.
      injection Hkey' as <-. discriminate Htruthy'.
  - eexists. split; [apply (with_spinner_missing _ _ _ Hkey) |].
    split; [reflexivity |]. split; [reflexivity |]. split; [eexists; reflexivity |].
    intros key' (Hkey' & _). congruence.
Qed.

(** X7.  [voice] and [image] on a file that does not exist exit with status 1
    without a remote operation and without output: the run prints one line
    with [console.error], and with a usable credential that line is the
    [Error:] line of the ENOENT failure, after the spinner has been stopped. *)
Theorem missing_file_fails_before_request (c : Command) (file : string) (w : World) :
  (exists (type : string) (language age : option string),
      c = voice file type language age)
  \/ (exists type : string, c = image file type) ->
  files w !! file = None ->
  exists (text : string) (es : list Event),
    run c w = (1, add_events w es)
    /\ remote_calls es = 0%nat
    /\ stdout es = []
    /\ (exists line : Text, stderr es = [line])
    /\ (forall key : string,
          logged_in w key ->
          es = [SpinnerStart text; SpinnerStop; LogError (error_line (no_such_file file))]).
Proof.
  intros [(type & language & age & ->) | (type & ->)] Hfile; rewrite run_status;
    unfold action; autounfold with actions; cbv zeta.
  - edestruct (missing_file_frame "Analyzing audio..." file) as (es & Hrun & Hrest);
      [exact Hfile |].
    exists "Analyzing audio...", es. rewrite Hrun. split; [reflexivity | exact Hrest].
  - edestruct (missing_file_frame "Analyzing image..." file) as (es & Hrun & Hrest);
      [exact Hfile |].
    exists "Analyzing image...", es. rewrite Hrun. split; [reflexivity | exact Hrest].
Qed.

(** X8.  [account delete] asks the service to delete the account only with
    [--confirm]: without it the run makes no remote operation, whatever the
    store holds, and exits with status 0; with it and a usable credential the
    run makes exactly the request [deleteAccountData], and reports the number
    of deleted records when the service answers. *)
Theorem account_delete_requires_confirm (w : World) :
  (exists lines : list Text,
      run (account_delete false) w = (0, add_events w (map Log lines)))
  /\ (forall key : string,
        logged_in w key ->
        exists (code : Z) (es : list Event),
          run (account_delete true) w
          = (code, add_events w (SpinnerStart "Deleting account data..."
                                   :: Remote Z key deleteAccountData :: es))
          /\ remote_calls es = 0%nat
          /\ (forall deleted_count : Z,
                remote Z key deleteAccountData = inr deleted_count ->
                code = 0
                /\ es = [SpinnerStop; Log [];
                         Log (chalk [green; bold] "✓ Account data deleted");
                         Log (plain "Deleted records: "
                                ++ chalk [cyan] (Z_to_string deleted_count))])).
Proof.
  split.
  - rewrite account_delete_unconfirmed. eexists [_; _]. reflexivity.
  - intros key Hin. unfold run, action, account_delete_action.
    unfold bind at 1. unfold ret at 1. cbv beta iota.
    rewrite (with_spinner_logged_in _ _ _ _ Hin). exec.
    destruct (remote Z key deleteAccountData) as [e | n] eqn:Hremote; exec.
    + eexists _, _. split; [flatten_trace; reflexivity |].
      split; [reflexivity |]. intros n Hn. discriminate Hn.
    + eexists _, _. split; [flatten_trace; reflexivity |].
      split; [reflexivity |]. intros n' [= <-]. split; reflexivity.
Qed.

(** The keys of the remote operations of a run. *)
Lemma run_keys (c : Command) (w : World) :
  exists es : list Event,
    trace (snd (run c w)) = trace w ++ es
    /\ forall key : string,
         In (Some key) (map event_key es) -> given (config w !! "apiKey") = Some key.
Proof.
  destruct (uses_spinner c) eqn:Huses.
  - destruct (spinner_trace c w Huses) as (code & es & _ & _ & Htrace & Hshape).
    exists es. split; [exact Htrace |].
    destruct Hshape as [text Hg | text key e Hg | text key R req e Hg Hr
                        | text key R req r lines Hg Hr
                        | text key R req r lines e Hg Hr Hlate].
    + cbn. intros key [Heq | [Heq | []]]; discriminate Heq.
    + cbn. intros k [Heq | [Heq | [Heq | []]]]; discriminate Heq.
    + cbn. intros k [Heq | [Heq | [Heq | [Heq | []]]]]; try discriminate Heq.
      injection Heq as <-. exact Hg.
    + cbn. intros k [Heq | [Heq | [Heq | Hin]]]; try discriminate Heq.
      * injection Heq as <-. exact Hg.
      * exfalso. exact (event_key_logs _ _ Hin).
    + cbn. intros k [Heq | [Heq | [Heq | Hin]]]; try discriminate Heq.
      * injection Heq as <-. exact Hg.
      * rewrite map_app in Hin. apply in_app_or in Hin as [Hin | Hin].
        -- exfalso. exact (event_key_logs _ _ Hin).
        -- cbn in Hin. destruct Hin as [Heq | [Heq | []]]; discriminate Heq.
  - destruct (local_run c w Huses) as (lines & _ & _ & Htrace).
    exists (map Log lines). split; [exact Htrace |].
    intros key Hin. exfalso. exact (event_key_logs _ _ Hin).
Qed.

(** X9.  [login] composed with what follows.  The store then holds the key
    given last: a second [login] replaces the key of the first.  What [login]
    prints does not depend on the key, which is never echoed.  The command
    run after [login k] makes its remote operation, if any, with [k]. *)
Theorem login_then_command (k : string) (w : World) :
  let w1 := snd (run (login k) w) in
  config w1 !! "apiKey" = Some k
  /\ (forall k' : string,
        config (snd (run (login k') w1)) = config (snd (run (login k') w)))
  /\ (forall k' : string,
        trace (snd (run (login k') w)) = trace w1)
  /\ (forall c : Command,
        exists es : list Event,
          trace (snd (run c w1)) = trace w1 ++ es
          /\ forall key : string, In (Some key) (map event_key es) -> key = k).
Proof.
  intros w1. unfold w1. rewrite run_login. cbn [snd]. split; [| split; [| split]].
  - cbn [config]. apply lookup_insert_eq.
  - intros k'. rewrite !run_login. cbn [snd config]. apply insert_insert_eq.
  - intros k'. rewrite run_login. reflexivity.
  - intros c. set (w' := {| config := _ |}).
    destruct (run_keys c w') as (es & Htrace & Hkeys).
    exists es. split; [exact Htrace |]. intros key Hin.
    specialize (Hkeys key Hin). apply given_inv in Hkeys as [Hk _].
    unfold w' in Hk. cbn [config] in Hk. rewrite lookup_insert_eq in Hk.
    congruence.
Qed.


Ltac answered_empty Hin Hremote :=
  unfold run, action; autounfold with actions;
  rewrite (with_spinner_logged_in _ _ _ _ Hin); exec; rewrite Hremote; exec;
  flatten_trace; reflexivity.

(** X10.  When the service answers with an empty list, the five listing
    commands print one dim line saying so, in place of the table, and exit
    with status 0. *)
Theorem empty_list_is_reported (w : World) (key : string) :
  logged_in w key ->
  (forall type : option string,
      remote (list Consent.t) key (getConsentStatus type) = inr [] ->
      run (account_consent_status type) w
      = (0, add_events w [SpinnerStart "Fetching consent status...";
                          Remote (list Consent.t) key (getConsentStatus type);
                          SpinnerStop; Log (chalk [dim] "No consent records found.")]))
  /\ (forall act limit : option string,
         remote (list AuditLog.t) key (getAuditLogs act (optional_int limit (Some 10)))
         = inr [] ->
         run (account_audit_logs act limit) w
         = (0, add_events w [SpinnerStart "Fetching audit logs...";
                             Remote (list AuditLog.t) key
                               (getAuditLogs act (optional_int limit (Some 10)));
                             SpinnerStop; Log (chalk [dim] "No audit logs found.")]))
  /\ (forall status limit : option string,
         remote (list Breach.t) key (listBreaches status (optional_int limit (Some 10)))
         = inr [] ->
         run (breach_list status limit) w
         = (0, add_events w [SpinnerStart "Fetching breaches...";
                             Remote (list Breach.t) key
                               (listBreaches status (optional_int limit (Some 10)));
                             SpinnerStop; Log (chalk [dim] "No breaches found.")]))
  /\ (remote (list Webhook.t) key listWebhooks = inr [] ->
      run webhook_list w
      = (0, add_events w [SpinnerStart "Fetching webhooks...";
                          Remote (list Webhook.t) key listWebhooks;
                          SpinnerStop; Log (chalk [dim] "No webhooks configured.")]))
  /\ (forall days : string,
         remote (list UsageDay.t) key (getUsageHistory (parseInt days None)) = inr [] ->
         run (usage_history days) w
         = (0, add_events w [SpinnerStart "Fetching history...";
                             Remote (list UsageDay.t) key
                               (getUsageHistory (parseInt days None));
                             SpinnerStop; Log (chalk [dim] "No usage data available.")])).
Proof.
  intros Hin. split; [| split; [| split; [| split]]].
  - intros type Hremote. answered_empty Hin Hremote.
  - intros act limit Hremote. answered_empty Hin Hremote.
  - intros status limit Hremote. answered_empty Hin Hremote.
  - intros Hremote. answered_empty Hin Hremote.
  - intros days Hremote. answered_empty Hin Hremote.
Qed.

End Runs.

Lemma no_output_without_answer_witness :
  exists es : list Event,
    trace (snd (@run offline_host (detect_bullying "hi") sample_world))
    = trace sample_world ++ es
    /\ (existsb (@answered offline_host) es = false ->
        fst (@run offline_host (detect_bullying "hi") sample_world) = 1
        /\ stdout es = []).
Proof.
  apply (@no_output_without_answer offline_host (detect_bullying "hi") sample_world).
  reflexivity.
Defined.

Lemma failure_after_answer_witness :
  exists es : list Event,
    trace (snd (@run sample_host (detect_bullying "hi") sample_world))
    = trace sample_world ++ es
    /\ (existsb (@answered sample_host) es = true ->
        (fst (@run sample_host (detect_bullying "hi") sample_world) = 0 /\ stderr es = [])
        \/ exists e : Thrown,
             @late_cause sample_host (detect_bullying "hi") e
             /\ fst (@run sample_host (detect_bullying "hi") sample_world) = 1
             /\ stderr es = [error_line e])
    /\ (existsb (@answered sample_host) es = true ->
        formats_label (detect_bullying "hi") = false ->
        (forall output, detect_bullying "hi" <> account_export output) ->
        fst (@run sample_host (detect_bullying "hi") sample_world) = 0).
Proof.
  apply (@failure_after_answer sample_host (detect_bullying "hi") sample_world).
  reflexivity.
Defined.

Lemma service_failure_is_reported_witness :
  exists (text : string) (R : Type) (req : Request R),
    @run offline_host (webhook_delete "wh_1") sample_world
    = (1, add_events sample_world
            [SpinnerStart text; Remote R "sk_test_0123456789" req; SpinnerStop;
             LogError (error_line fetch_failed)]).
Proof.
  apply (@service_failure_is_reported offline_host (webhook_delete "wh_1") sample_world
           "sk_test_0123456789" fetch_failed).
  - repeat split.
  - reflexivity.
  - exact I.
  - intros R req. reflexivity.
Defined.

Lemma missing_file_fails_before_request_witness :
  exists (text : string) (es : list Event),
    @run sample_host (image "photo.png" "all") sample_world
    = (1, add_events sample_world es)
    /\ remote_calls es = 0%nat
    /\ stdout es = []
    /\ (exists line : Text, stderr es = [line])
    /\ (forall key : string,
          @logged_in sample_host sample_world key ->
          es = [SpinnerStart text; SpinnerStop;
                LogError (error_line (no_such_file "photo.png"))]).
Proof.
  apply (@missing_file_fails_before_request sample_host (image "photo.png" "all")
           "photo.png" sample_world).
  - right. exists "all". reflexivity.
  - reflexivity.
Defined.

Lemma empty_list_is_reported_witness :
  @run empty_host (account_consent_status None) sample_world
  = (0, add_events sample_world
          [SpinnerStart "Fetching consent status...";
           Remote (list Consent.t) "sk_test_0123456789" (getConsentStatus None);
           SpinnerStop; Log (chalk [dim] "No consent records found.")])
  /\ @run empty_host webhook_list sample_world
     = (0, add_events sample_world
             [SpinnerStart "Fetching webhooks...";
              Remote (list Webhook.t) "sk_test_0123456789" listWebhooks;
              SpinnerStop; Log (chalk [dim] "No webhooks configured.")]).
Proof.
  destruct (@empty_list_is_reported empty_host sample_world "sk_test_0123456789")
    as (Hconsent & _ & _ & Hwebhooks & _).
  - repeat split.
  - split.
    + apply Hconsent. reflexivity.
    + apply Hwebhooks. reflexivity.
Defined.

(** * The formatters, the options and the file name *)

(** ** Where the formatters throw *)

Lemma formatSeverity_throws (label : string) :
  (exists e, formatSeverity label = inl e) <-> In label throwing_labels.
Proof.
  destruct (in_dec string_dec label
              (["low"; "medium"; "high"; "critical"] ++ Object_prototype_keys))
    as [Hin | Hout].
  - cbn in Hin.
    repeat (destruct Hin as [<- | Hin];
            [split;
             [ intros [e He]; try discriminate He; cbn; tauto
             | intros Hin'; try (eexists; reflexivity);
               cbn in Hin'; exfalso; intuition discriminate ] |]).
    destruct Hin.
  - rewrite formatSeverity_fallback.
    + split; [intros [e He]; discriminate He |].
      intros Hin. exfalso. apply Hout. apply in_or_app. right.
      cbn in Hin. cbn. intuition.
    + intros Hin. apply Hout. apply in_or_app. left. exact Hin.
    + intros Hin. apply Hout. apply in_or_app. right. exact Hin.
Qed.

Lemma formatRisk_throws (label : string) :
  (exists e, formatRisk label = inl e) <-> In label throwing_labels.
Proof.
  destruct (in_dec string_dec label
              (["none"; "safe"; "low"; "medium"; "high"; "critical"]
                 ++ Object_prototype_keys))
    as [Hin | Hout].
  - cbn in Hin.
    repeat (destruct Hin as [<- | Hin];
            [split;
             [ intros [e He]; try discriminate He; cbn; tauto
             | intros Hin'; try (eexists; reflexivity);
               cbn in Hin'; exfalso; intuition discriminate ] |]).
    destruct Hin.
  - rewrite formatRisk_fallback.
    + split; [intros [e He]; discriminate He |].
      intros Hin. exfalso. apply Hout. apply in_or_app. right.
      cbn in Hin. cbn. intuition.
    + intros Hin. apply Hout. apply in_or_app. left. exact Hin.
    + intros Hin. apply Hout. apply in_or_app. right. exact Hin.
Qed.

(** X11.  The formatters throw on exactly nine labels, the names of the
    members of [Object.prototype] that are not callable or need a receiver,
    and what they throw is a TypeError; on every other label they return. *)
Theorem formatters_throw_exactly_on (label : string) :
  ((exists e, formatSeverity label = inl e) <-> In label throwing_labels)
  /\ ((exists e, formatRisk label = inl e) <-> In label throwing_labels)
  /\ (forall e : Thrown,
        formatSeverity label = inl e \/ formatRisk label = inl e ->
        exists message : string, e = JsError "TypeError" message).
Proof.
  split; [apply formatSeverity_throws |]. split; [apply formatRisk_throws |].
  intros e He.
  assert (Hin : In label throwing_labels).
  { destruct He as [He | He].
    - apply formatSeverity_throws. exists e. exact He.
    - apply formatRisk_throws. exists e. exact He. }
  cbn in Hin.
  repeat (destruct Hin as [<- | Hin];
          [destruct He as [He | He]; injection He as <-; eexists; reflexivity |]).
  destruct Hin.
Qed.

(** X12.  On a label that is no name of a member of [Object.prototype] both
    formatters return the label in upper case, and they return the same
    styled text unless the label is [none] or [safe], which only [formatRisk]
    knows. *)
Theorem formatters_render_label (label : string) :
  ~ In label Object_prototype_keys ->
  (exists style : list chalk_style,
      formatSeverity label = inr (chalk style (toUpperCase label)))
  /\ (exists style : list chalk_style,
         formatRisk label = inr (chalk style (toUpperCase label)))
  /\ (label <> "none" -> label <> "safe" -> formatRisk label = formatSeverity label).
Proof.
  intros Hproto.
  destruct (in_dec string_dec label ["none"; "safe"; "low"; "medium"; "high"; "critical"])
    as [Hin | Hout].
  - cbn in Hin.
    repeat (destruct Hin as [<- | Hin];
            [split; [eexists; reflexivity |]; split; [eexists; reflexivity |];
             intros Hnone Hsafe; try reflexivity; congruence |]).
    destruct Hin.
  - rewrite formatRisk_fallback by assumption.
    rewrite formatSeverity_fallback; [| | exact Hproto].
    + split; [eexists; reflexivity |]. split; [eexists; reflexivity |]. reflexivity.
    + intros Hin. apply Hout. cbn in Hin. cbn. intuition.
Qed.

Lemma formatters_render_label_witness :
  (exists style : list chalk_style,
      formatSeverity "severe" = inr (chalk style (toUpperCase "severe")))
  /\ (exists style : list chalk_style,
         formatRisk "severe" = inr (chalk style (toUpperCase "severe")))
  /\ ("severe" <> "none" -> "severe" <> "safe" -> formatRisk "severe" = formatSeverity "severe").
Proof.
  apply (formatters_render_label "severe"). cbn. intuition discriminate.
Defined.

(** ** Numeric options *)

Lemma digit_value_digit (c : ascii) :
  is_digit_char c -> digit_value 10 c = Some (Z.of_nat (nat_of_ascii c) - 48).
Proof.
  unfold is_digit_char, digit_value. intros Hc.
  destruct (Z.leb_spec 48 (Z.of_nat (nat_of_ascii c))); [| lia].
  destruct (Z.leb_spec (Z.of_nat (nat_of_ascii c)) 57); [| lia].
  cbn [andb]. destruct (Z.ltb_spec (Z.of_nat (nat_of_ascii c) - 48) 10); [reflexivity | lia].
Qed.

Lemma digit_value_other (c : ascii) : ~ is_digit_char c -> digit_value 10 c = None.
Proof.
  unfold is_digit_char, digit_value. intros Hc.
  set (n := Z.of_nat (nat_of_ascii c)) in *.
  repeat (cbn [andb]; cbv beta iota;
          match goal with
          | |- context [Z.leb ?a ?b] => destruct (Z.leb_spec a b)
          | |- context [Z.ltb ?a ?b] => destruct (Z.ltb_spec a b)
          end);
    cbn [andb]; cbv beta iota; try reflexivity; lia.
Qed.

Lemma read_digits_run (ds rest : list ascii) (acc : Z) :
  Forall is_digit_char ds ->
  no_digit rest ->
  read_digits 10 (Some acc) (ds ++ rest) = Some (value_of acc ds).
Proof.
  intros Hds Hrest. revert acc.
  induction Hds as [| c ds Hc Hds IH]; intros acc; cbn [app value_of].
  - destruct rest as [| c rest]; [reflexivity |]. cbn [read_digits].
    rewrite digit_value_other by exact Hrest. reflexivity.
  - cbn [read_digits]. rewrite digit_value_digit by exact Hc.
    cbn [from_option id]. apply IH.
Qed.

Lemma read_digits_numeral (n : Z) (rest : list ascii) :
  0 <= n -> no_digit rest ->
  read_digits 10 None (digits n ++ rest) = Some n.
Proof.
  intros Hn Hrest. destruct (digits_spec n Hn) as (Hds & Hval & c & ds & Heq & _).
  rewrite Heq in Hds, Hval |- *. apply Forall_cons in Hds as [Hc Hds'].
  cbn [app read_digits]. rewrite digit_value_digit by exact Hc.
  cbn [from_option id]. rewrite read_digits_run by assumption.
  cbn [value_of] in Hval. rewrite <- Hval. reflexivity.
Qed.

Lemma digit_not_space (c : ascii) : is_digit_char c -> is_js_space c = false.
Proof.
  intros Hc.
  assert (Hb : (48 <=? Z.of_nat (nat_of_ascii c)) && (Z.of_nat (nat_of_ascii c) <=? 57)
               = true).
  { unfold is_digit_char in Hc. apply andb_true_intro. split; apply Z.leb_le; lia. }
  clear Hc. destruct c as [[] [] [] [] [] [] [] []]; vm_compute in Hb |- *; congruence.
Qed.

Lemma digit_not_sign (c : ascii) : is_digit_char c -> c <> "-"%char /\ c <> "+"%char.
Proof.
  unfold is_digit_char. intros Hc. split; intros ->; vm_compute in Hc; destruct Hc as [H1 H2];
    first [apply H1; reflexivity | apply H2; reflexivity].
Qed.

(** The digits of a numeral, after the sign, read in base ten. *)
Lemma parseInt_digits (n : Z) (rest : list ascii) (radix : option Z) (neg : bool) :
  0 <= n ->
  radix = None \/ radix = Some 10 ->
  match rest with
  | [] => True
  | c :: _ =>
      ~ is_digit_char c
      /\ (n = 0 -> radix = None -> c <> "x"%char /\ c <> "X"%char)
  end ->
  (let '(r, l) :=
     match digits n ++ rest with
     | "0"%char :: x :: l' =>
         if match radix with None => true | Some r => r =? 16 end
            && (Ascii.eqb x "x" || Ascii.eqb x "X")
         then (16, l') else (from_option id 10 radix, digits n ++ rest)
     | _ => (from_option id 10 radix, digits n ++ rest)
     end in
   match read_digits r None l with
   | Some v => Some (if neg then - v else v)
   | None => None
   end) = Some (if neg then - n else n).
Proof.
  intros Hn Hradix Hrest.
  assert (Hno : no_digit rest) by (destruct rest; [exact I | apply Hrest]).
  assert (Hten : from_option id 10 radix = 10) by (destruct Hradix as [-> | ->]; reflexivity).
  assert (Hread : match read_digits (from_option id 10 radix) None (digits n ++ rest) with
                  | Some v => Some (if neg then - v else v)
                  | None => None
                  end = Some (if neg then - n else n)).
  { rewrite Hten, read_digits_numeral by assumption. reflexivity. }
  destruct (digits n ++ rest) as [| c0 [| x l']] eqn:Hl; try exact Hread;
    destruct c0 as [[] [] [] [] [] [] [] []]; try exact Hread.
  change (Ascii false false false false true true false false) with "0"%char in *.
  cbv beta iota.
  - destruct (match radix with None => true | Some r => r =? 16 end
              && (Ascii.eqb x "x" || Ascii.eqb x "X")) eqn:Hstrip; [| exact Hread].
    exfalso. apply andb_prop in Hstrip as [Hnone Hx].
    assert (Hradix_none : radix = None).
    { destruct Hradix as [-> | ->]; [reflexivity | discriminate Hnone]. }
    assert (Hx' : x = "x"%char \/ x = "X"%char).
    { apply orb_prop in Hx as [Hx | Hx]; apply Ascii.eqb_eq in Hx; tauto. }
    destruct (digits_spec n Hn) as (Hds & Hval & c & ds & Heq & Hlead).
    rewrite Heq in Hl, Hds, Hval. cbn [app] in Hl. injection Hl as -> Hl.
    apply Forall_cons in Hds as [_ Hds'].
    destruct ds as [| d ds].
    + cbn [app] in Hl. subst rest.
      assert (Hzero : n = 0) by (rewrite <- Hval; reflexivity).
      destruct Hrest as (_ & Hprefix).
      destruct (Hprefix Hzero Hradix_none) as [Hx1 Hx2].
      destruct Hx'; contradiction.
    + cbn [app] in Hl. injection Hl as -> _.
      apply Forall_cons in Hds' as [Hd _].
      unfold is_digit_char in Hd. destruct Hx' as [-> | ->]; vm_compute in Hd;
        destruct Hd as [H1 H2]; apply H2; reflexivity.
Qed.

Lemma trimStart_digits (n : Z) (rest : list ascii) :
  0 <= n -> trimStart_chars (digits n ++ rest) = digits n ++ rest.
Proof.
  intros Hn. destruct (digits_spec n Hn) as (Hds & _ & c & ds & Heq & _).
  rewrite Heq in Hds |- *. apply Forall_cons in Hds as [Hc _].
  cbn [app trimStart_chars]. rewrite (digit_not_space c Hc). reflexivity.
Qed.

Lemma parseInt_natural (n : Z) (rest : list ascii) (radix : option Z) :
  0 <= n ->
  radix = None \/ radix = Some 10 ->
  match rest with
  | [] => True
  | c :: _ =>
      ~ is_digit_char c
      /\ (n = 0 -> radix = None -> c <> "x"%char /\ c <> "X"%char)
  end ->
  parseInt (str (digits n ++ rest)) radix = Some n.
Proof.
  intros Hn Hradix Hrest. unfold parseInt. rewrite chars_str, trimStart_digits by exact Hn.
  pose proof (parseInt_digits n rest radix false Hn Hradix Hrest) as Hread.
  destruct (digits_spec n Hn) as (Hds & _ & c & ds & Heq & _).
  rewrite Heq in Hds. apply Forall_cons in Hds as [Hc _].
  destruct (digit_not_sign c Hc) as [Hminus Hplus].
  rewrite Heq in Hread |- *. cbn [app] in Hread |- *.
  destruct c as [[] [] [] [] [] [] [] []]; try exact Hread.
  - exfalso. apply Hplus. reflexivity.
  - exfalso. apply Hminus. reflexivity.
Qed.

Lemma parseInt_negative (n : Z) (rest : list ascii) (radix : option Z) :
  0 <= n ->
  radix = None \/ radix = Some 10 ->
  match rest with
  | [] => True
  | c :: _ =>
      ~ is_digit_char c
      /\ (n = 0 -> radix = None -> c <> "x"%char /\ c <> "X"%char)
  end ->
  parseInt (str ("-"%char :: digits n ++ rest)) radix = Some (- n).
Proof.
  intros Hn Hradix Hrest. unfold parseInt. rewrite chars_str.
  cbn [trimStart_chars]. change (is_js_space "-") with false. cbv beta iota.
  exact (parseInt_digits n rest radix true Hn Hradix Hrest).
Qed.

Lemma str_app (l1 l2 : list ascii) : str (l1 ++ l2) = str l1 +:+ str l2.
Proof.
  unfold str. induction l1 as [| c l1 IH]; [reflexivity |].
  cbn [app string_of_list_ascii]. rewrite IH. reflexivity.
Qed.



(** Where [numeral_end] stops: without a radix, [0x] starts a hexadecimal
    numeral, and with nothing after it there is no number. *)
Example parseInt_hexadecimal :
  parseInt "0x1f" None = Some 31
  /\ parseInt "0x" None = None
  /\ parseInt "0X1F" None = Some 31
  /\ parseInt "0x1f" (Some 10) = Some 0
  /\ parseInt "12x3" None = Some 12
  /\ parseInt "123abc" (Some 10) = Some 123.
Proof. repeat split. Qed.

(** ** Comma-separated options *)

Lemma split_go_length (sep : ascii) (cur l : list ascii) :
  length (split_go sep cur l) = S (count_occ ascii_dec l sep).
Proof.
  revert cur. induction l as [| c l IH]; intros cur; cbn [split_go count_occ].
  - reflexivity.
  - destruct (Ascii.eqb_spec c sep) as [-> | Hne].
    + destruct (ascii_dec sep sep) as [_ | Hne]; [| contradiction].
      cbn [length]. rewrite IH. reflexivity.
    + destruct (ascii_dec c sep) as [Heq | _]; [contradiction |]. apply IH.
Qed.

Lemma split_go_no_sep (sep : ascii) (cur l : list ascii) :
  ~ In sep cur ->
  Forall (fun x => ~ In sep (chars x)) (split_go sep cur l).
Proof.
  revert cur. induction l as [| c l IH]; intros cur Hcur; cbn [split_go].
  - constructor; [| constructor]. rewrite chars_str. rewrite <- in_rev. exact Hcur.
  - destruct (Ascii.eqb_spec c sep) as [-> | Hne].
    + constructor.
      * rewrite chars_str. rewrite <- in_rev. exact Hcur.
      * apply IH. intros [].
    + apply IH. intros [Heq | Hin]; [congruence | exact (Hcur Hin)].
Qed.

Lemma split_go_app (sep : ascii) (cur l1 l2 : list ascii) :
  ~ In sep l1 ->
  split_go sep cur (l1 ++ l2) = split_go sep (rev l1 ++ cur) l2.
Proof.
  revert cur. induction l1 as [| c l1 IH]; intros cur Hl1; [reflexivity |].
  cbn [app split_go]. destruct (Ascii.eqb_spec c sep) as [-> | Hne].
  - exfalso. apply Hl1. left. reflexivity.
  - rewrite IH by (intros Hin; apply Hl1; right; exact Hin).
    cbn [rev]. rewrite <- app_assoc. reflexivity.
Qed.

Lemma trimStart_In (c : ascii) (l : list ascii) : In c (trimStart_chars l) -> In c l.
Proof.
  induction l as [| x l IH]; cbn [trimStart_chars]; [tauto |].
  destruct (is_js_space x); [intros Hin; right; exact (IH Hin) | tauto].
Qed.

Lemma trimStart_idem (l : list ascii) :
  trimStart_chars (trimStart_chars l) = trimStart_chars l.
Proof.
  induction l as [| x l IH]; [reflexivity |]. cbn [trimStart_chars].
  destruct (is_js_space x) eqn:Hx; [exact IH |].
  cbn [trimStart_chars]. rewrite Hx. reflexivity.
Qed.

Lemma trimStart_spaces (pad l : list ascii) :
  Forall (fun c => is_js_space c = true) pad ->
  trimStart_chars (pad ++ l) = trimStart_chars l.
Proof.
  intros Hpad. induction Hpad as [| c pad Hc _ IH]; [reflexivity |].
  cbn [app trimStart_chars]. rewrite Hc. exact IH.
Qed.

(** A list that does not start with white space keeps its start when white
    space is taken from its end. *)
Lemma trimStart_rev_head (l : list ascii) :
  trimStart_chars l = l ->
  trimStart_chars (rev (trimStart_chars (rev l))) = rev (trimStart_chars (rev l)).
Proof.
  intros Hl. destruct l as [| c l]; [reflexivity |].
  cbn [trimStart_chars] in Hl. destruct (is_js_space c) eqn:Hc.
  - exfalso. assert (Hlen : length (trimStart_chars l) = length (c :: l)) by (rewrite Hl; reflexivity).
    assert (Hle : forall l0, (length (trimStart_chars l0) <= length l0)%nat).
    { induction l0 as [| x l0 IH]; cbn [trimStart_chars length]; [lia |].
      destruct (is_js_space x); cbn [length]; lia. }
    specialize (Hle l). cbn [length] in Hlen. lia.
  - clear Hl. cbn [rev].
    assert (Hgen : forall l0 : list ascii,
               exists t, trimStart_chars (l0 ++ [c]) = t ++ [c]).
    { induction l0 as [| x l0 IH]; cbn [app trimStart_chars].
      - rewrite Hc. exists []. reflexivity.
      - destruct (is_js_space x); [exact IH |]. exists (x :: l0). reflexivity. }
    destruct (Hgen (rev l)) as [t ->]. rewrite rev_app_distr. cbn [rev app trimStart_chars].
    rewrite Hc. reflexivity.
Qed.

Lemma trim_idem (s : string) : trim (trim s) = trim s.
Proof.
  unfold trim. rewrite chars_str.
  rewrite trimStart_rev_head by apply trimStart_idem.
  rewrite rev_involutive.
  rewrite trimStart_rev_head by apply trimStart_idem. reflexivity.
Qed.

Lemma trim_In (c : ascii) (s : string) : In c (chars (trim s)) -> In c (chars s).
Proof.
  unfold trim. rewrite chars_str. intros Hin.
  apply in_rev in Hin. apply trimStart_In in Hin. apply in_rev in Hin.
  apply trimStart_In in Hin. exact Hin.
Qed.

Lemma trim_pad (pad : list ascii) (x : string) :
  Forall (fun c => is_js_space c = true) pad ->
  trim (str (pad ++ chars x)) = trim x.
Proof.
  intros Hpad. unfold trim. rewrite chars_str, trimStart_spaces by exact Hpad.
  reflexivity.
Qed.

(** X14.  A comma-separated option is never read as the empty list: it gives
    one element more than it has commas, so the empty string gives one empty
    element.  No element contains a comma, and none starts or ends with white
    space. *)
Theorem comma_list_elements (s : string) :
  length (comma_list s) = S (count_occ ascii_dec (chars s) ","%char)
  /\ Forall clean (comma_list s)
  /\ comma_list "" = [""].
Proof.
  unfold comma_list, split. split; [| split; [| reflexivity]].
  - rewrite length_map. apply split_go_length.
  - apply Forall_map.
    pose proof (split_go_no_sep ","%char [] (chars s) (fun H => H)) as Hno.
    induction Hno as [| x l Hx _ IH]; constructor; [| exact IH].
    split; [apply trim_idem |]. intros Hin. apply Hx. apply trim_In. exact Hin.
Qed.

Lemma chars_join_cons (sep x y : string) (l : list string) :
  chars (join sep (x :: y :: l)) = chars x ++ chars sep ++ chars (join sep (y :: l)).
Proof.
  change (join sep (x :: y :: l)) with (x +:+ sep +:+ join sep (y :: l)).
  rewrite !chars_app. reflexivity.
Qed.

Lemma comma_list_join_pad (pad pre : list ascii) (l : list string) :
  Forall (fun c => is_js_space c = true) pad ->
  Forall (fun c => is_js_space c = true) pre ->
  l <> [] ->
  Forall clean l ->
  map trim (split_go ","%char [] (pre ++ chars (join (str (","%char :: pad)) l))) = l.
Proof.
  intros Hpad Hpre Hne Hl. revert pre Hpre.
  assert (Hcomma : forall p, Forall (fun c => is_js_space c = true) p -> ~ In ","%char p).
  { intros p Hp Hin. rewrite List.Forall_forall in Hp. specialize (Hp _ Hin).
    discriminate Hp. }
  induction Hl as [| x l [Htrim Hno] Hl IH]; [contradiction |].
  intros pre Hpre. destruct l as [| y l].
  - cbn [join]. rewrite <- (app_nil_r (pre ++ chars x)).
    rewrite split_go_app.
    + cbn [split_go map]. rewrite app_nil_r, rev_involutive.
      rewrite trim_pad by exact Hpre. rewrite Htrim. reflexivity.
    + intros Hin. apply in_app_or in Hin as [Hin | Hin]; [exact (Hcomma _ Hpre Hin) | exact (Hno Hin)].
  - rewrite chars_join_cons, chars_str. rewrite app_assoc. cbn [app].
    rewrite split_go_app.
    + cbn [split_go]. change (Ascii.eqb "," ",") with true. cbv beta iota.
      cbn [map]. rewrite app_nil_r, rev_involutive.
      rewrite trim_pad by exact Hpre. rewrite Htrim. f_equal.
      apply IH; [discriminate | exact Hpad].
    + intros Hin. apply in_app_or in Hin as [Hin | Hin]; [exact (Hcomma _ Hpre Hin) | exact (Hno Hin)].
Qed.

(** X15.  A list that the program prints, its elements joined with a comma and
    a space, is read back as the same list when it is given as a
    comma-separated option, and so is the list joined with commas alone,
    provided the list is not empty and its elements are clean. *)
Theorem comma_list_reads_join (l : list string) :
  l <> [] ->
  Forall clean l ->
  comma_list (join ", " l) = l /\ comma_list (join "," l) = l.
Proof.
  intros Hne Hl. unfold comma_list, split. split.
  - apply (comma_list_join_pad [" "%char] [] l); try assumption; repeat constructor.
  - apply (comma_list_join_pad [] [] l); try assumption; repeat constructor.
Qed.

Lemma comma_list_reads_join_witness :
  comma_list (join ", " ["incident.created"; "incident.resolved"])
  = ["incident.created"; "incident.resolved"]
  /\ comma_list (join "," ["incident.created"; "incident.resolved"])
     = ["incident.created"; "incident.resolved"].
Proof.
  apply (comma_list_reads_join ["incident.created"; "incident.resolved"]).
  - discriminate.
  - repeat constructor; vm_compute; intuition discriminate.
Defined.

(** ** The name of a file *)

Lemma until_slash_no_slash (l : list ascii) : ~ In "/"%char (until_slash l).
Proof.
  induction l as [| c l IH]; cbn [until_slash]; [tauto |].
  destruct (Ascii.eqb_spec c "/"%char) as [-> | Hne]; [tauto |].
  intros [Heq | Hin]; [congruence | exact (IH Hin)].
Qed.

Lemma until_slash_app (l rest : list ascii) :
  ~ In "/"%char l -> until_slash (l ++ "/"%char :: rest) = l.
Proof.
  induction l as [| c l IH]; intros Hl; cbn [app until_slash].
  - reflexivity.
  - destruct (Ascii.eqb_spec c "/"%char) as [-> | Hne].
    + exfalso. apply Hl. left. reflexivity.
    + rewrite IH by (intros Hin; apply Hl; right; exact Hin). reflexivity.
Qed.

Lemma until_slash_all (l : list ascii) : ~ In "/"%char l -> until_slash l = l.
Proof.
  induction l as [| c l IH]; intros Hl; cbn [until_slash]; [reflexivity |].
  destruct (Ascii.eqb_spec c "/"%char) as [-> | Hne].
  - exfalso. apply Hl. left. reflexivity.
  - rewrite IH by (intros Hin; apply Hl; right; exact Hin). reflexivity.
Qed.

Lemma drop_slashes_keep (l : list ascii) :
  l <> [] -> ~ In "/"%char l -> drop_slashes (rev l ++ []) = rev l /\ drop_slashes (rev l) = rev l.
Proof.
  intros Hne Hl. rewrite app_nil_r.
  assert (Hrev : ~ In "/"%char (rev l)) by (rewrite <- in_rev; exact Hl).
  assert (Hnil : rev l <> []).
  { intros Heq. apply Hne. rewrite <- (rev_involutive l), Heq. reflexivity. }
  destruct (rev l) as [| c r]; [contradiction |].
  cbn [drop_slashes]. destruct (Ascii.eqb_spec c "/"%char) as [-> | _].
  - exfalso. apply Hrev. left. reflexivity.
  - split; reflexivity.
Qed.

(** X16.  The file name sent with an audio or image file never contains a
    slash.  It is the part of the path after the last slash: for a name
    without a slash, the name itself, the name after a directory, and the name
    before a trailing slash. *)
Theorem basename_is_last_segment (p : string) :
  ~ In "/"%char (chars (basename p))
  /\ (forall dir name : string,
        name <> "" ->
        ~ In "/"%char (chars name) ->
        basename name = name
        /\ basename (dir +:+ "/" +:+ name) = name
        /\ basename (name +:+ "/") = name).
Proof.
  split.
  - unfold basename. rewrite chars_str, <- in_rev. apply until_slash_no_slash.
  - intros dir name Hne Hname.
    assert (Hne' : chars name <> []).
    { intros Heq. apply Hne. rewrite <- (str_chars name), Heq. reflexivity. }
    destruct (drop_slashes_keep (chars name) Hne' Hname) as [_ Hkeep].
    assert (Hrev : ~ In "/"%char (rev (chars name))) by (rewrite <- in_rev; exact Hname).
    unfold basename. split; [| split].
    + rewrite Hkeep, until_slash_all by exact Hrev.
      rewrite rev_involutive. apply str_chars.
    + rewrite !chars_app. change (chars "/") with ["/"%char].
      rewrite rev_app_distr. cbn [app rev].
      rewrite <- app_assoc. cbn [app].
      assert (Hdrop : forall rest, drop_slashes (rev (chars name) ++ rest)
                                   = rev (chars name) ++ rest).
      { intros rest. destruct (rev (chars name)) as [| c r] eqn:Hr.
        - exfalso. apply Hne'. rewrite <- (rev_involutive (chars name)), Hr. reflexivity.
        - cbn [app drop_slashes]. destruct (Ascii.eqb_spec c "/"%char) as [-> | _].
          + exfalso. apply Hrev. left. reflexivity.
          + reflexivity. }
      rewrite Hdrop, until_slash_app by exact Hrev.
      rewrite rev_involutive. apply str_chars.
    + rewrite chars_app. change (chars "/") with ["/"%char].
      rewrite rev_app_distr. cbn [rev app drop_slashes].
      change (Ascii.eqb "/" "/") with true. cbv beta iota.
      rewrite Hkeep, until_slash_all by exact Hrev.
      rewrite rev_involutive. apply str_chars.
Qed.

(** ** One decimal place *)

Lemma digits_fuel_enough (fuel fuel' : nat) (n : Z) (acc : list ascii) :
  0 <= n < 2 ^ Z.of_nat fuel -> 0 <= n < 2 ^ Z.of_nat fuel' ->
  (0 < fuel)%nat -> (0 < fuel')%nat ->
  digits_fuel fuel n acc = digits_fuel fuel' n acc.
Proof.
  revert fuel' n acc. induction fuel as [| fuel IH]; intros fuel' n acc Hn Hn' Hf Hf'; [lia |].
  destruct fuel' as [| fuel']; [lia |]. cbn [digits_fuel].
  destruct (Z.ltb_spec n 10) as [Hlt | Hge]; [reflexivity |].
  rewrite Nat2Z.inj_succ, Z.pow_succ_r in Hn, Hn' by lia.
  assert (Hdiv : 0 <= n / 10) by (apply Z.div_pos; lia).
  assert (Hle : n / 10 <= n / 2) by (apply Z.div_le_compat_l; lia).
  assert (Hhalf : n / 2 < 2 ^ Z.of_nat fuel) by (apply Z.div_lt_upper_bound; lia).
  assert (Hhalf' : n / 2 < 2 ^ Z.of_nat fuel') by (apply Z.div_lt_upper_bound; lia).
  apply IH; try lia.
  - destruct fuel; [cbn in Hn; lia | lia].
  - destruct fuel'; [cbn in Hn'; lia | lia].
Qed.

Lemma log2_fuel (n : Z) : 0 <= n -> 0 <= n < 2 ^ Z.of_nat (S (Z.to_nat (Z.log2 n))).
Proof.
  intros Hn. split; [exact Hn |].
  destruct (Z.eq_dec n 0) as [-> | Hne]; [cbn; lia |].
  rewrite Nat2Z.inj_succ, Z2Nat.id by apply Z.log2_nonneg.
  apply Z.log2_spec. lia.
Qed.

Lemma digits_small (n : Z) : 0 <= n < 10 -> digits n = [digit_char n].
Proof.
  intros Hn. unfold digits. cbn [digits_fuel].
  destruct (Z.ltb_spec n 10); [reflexivity | lia].
Qed.

Lemma digits_snoc (n : Z) :
  10 <= n -> digits n = digits (n / 10) ++ [digit_char (n mod 10)].
Proof.
  intros Hn. unfold digits at 1. cbn [digits_fuel].
  destruct (Z.ltb_spec n 10) as [Hlt | _]; [lia |].
  rewrite digits_fuel_acc. f_equal. unfold digits.
  assert (Hdiv : 0 <= n / 10) by (apply Z.div_pos; lia).
  assert (Hlog : 1 <= Z.log2 n) by (apply Z.log2_le_pow2; lia).
  apply digits_fuel_enough.
  - split; [exact Hdiv |].
    rewrite Z2Nat.id by lia.
    pose proof (Z.log2_spec n ltac:(lia)) as [_ Hup].
    replace (Z.succ (Z.log2 n)) with (Z.log2 n + 1) in Hup by lia.
    rewrite Z.pow_add_r in Hup by lia.
    apply Z.div_lt_upper_bound; lia.
  - apply log2_fuel. exact Hdiv.
  - lia.
  - lia.
Qed.

Lemma strlen_str (l : list ascii) : strlen (str l) = length l.
Proof. unfold strlen. rewrite chars_str. reflexivity. Qed.

Lemma digits_length (n : Z) : 10 <= n -> (2 <= length (digits n))%nat.
Proof.
  intros Hn. rewrite digits_snoc by exact Hn. rewrite length_app. cbn [length].
  destruct (digits_spec (n / 10) ltac:(apply Z.div_pos; lia)) as (_ & _ & c & ds & -> & _).
  cbn [length]. lia.
Qed.

(** The numeral of [n] with a point before its last digit. *)
Lemma place_point_1 (n : Z) :
  0 <= n ->
  place_point (str (digits n)) 1
  = Z_to_string (n / 10) +:+ "." +:+ Z_to_string (n mod 10).
Proof.
  intros Hn.
  assert (Hmod : 0 <= n mod 10 < 10) by (apply Z.mod_pos_bound; lia).
  assert (Hdiv : 0 <= n / 10) by (apply Z.div_pos; lia).
  unfold Z_to_string.
  destruct (Z.ltb_spec (n / 10) 0); [lia |]. destruct (Z.ltb_spec (n mod 10) 0); [lia |].
  rewrite (digits_small (n mod 10)) by exact Hmod.
  unfold place_point. rewrite strlen_str.
  destruct (Z.lt_ge_cases n 10) as [Hlt | Hge].
  - rewrite Z.div_small, Z.mod_small by lia. rewrite digits_small by lia.
    reflexivity.
  - pose proof (digits_length n Hge) as Hlen.
    replace (2 - length (digits n))%nat with 0%nat by lia.
    cbn [repeat_string]. change ("" +:+ str (digits n)) with (str (digits n)).
    rewrite strlen_str, chars_str. rewrite digits_snoc by exact Hge.
    rewrite length_app. cbn [length].
    replace (length (digits (n / 10)) + 1 - 1)%nat with (length (digits (n / 10))) by lia.
    rewrite take_app_length, drop_app_length. reflexivity.
Qed.

(** The magnitude of a double as a rational. *)
Lemma SF2Q_magnitude (m : positive) (e : Z) :
  (SF2Q (S754_finite false m e)
   == fst (magnitude m e) # Z.to_pos (snd (magnitude m e)))%Q.
Proof.
  unfold magnitude. destruct (Z.leb_spec 0 e) as [Hpos | Hneg]; cbn [fst snd].
  - unfold SF2Q. change (Qpower 2 e) with (Qpower (inject_Z 2) e).
    rewrite <- Zpower_Qpower by exact Hpos.
    unfold Qeq, Qmult, inject_Z. cbn [Qnum Qden Z.to_pos]. lia.
  - rewrite SF2Q_fraction by exact Hneg. reflexivity.
Qed.

Section Tenths.
Context `{Host}.

(** X17.  [x.toFixed(1)] for a finite double below 10^21 in magnitude: the
    sign, then the decimal numeral of an integer [n] with a point before its
    last digit, where [n] is the integer nearest to ten times the magnitude of
    [x], the larger one when two are equally near. *)
Theorem toFixed_1_rounds_to_tenths (s : bool) (m : positive) (e : Z) :
  (SF2Q (S754_finite false m e) < inject_Z (10 ^ 21))%Q ->
  exists n : Z,
    0 <= n
    /\ toFixed (S754_finite s m e) 1
       = (if s then "-" else "") +:+ Z_to_string (n / 10) +:+ "."
           +:+ Z_to_string (n mod 10)
    /\ 0 <= n mod 10 < 10
    /\ (inject_Z n - (1 # 2) <= (10 # 1) * SF2Q (S754_finite false m e))%Q
    /\ ((10 # 1) * SF2Q (S754_finite false m e) < inject_Z n + (1 # 2))%Q.
Proof.
  intros Hsmall. pose proof (SF2Q_magnitude m e) as Hq.
  unfold toFixed. destruct (magnitude m e) as [num den] eqn:Hmag. cbn [fst snd] in *.
  assert (Hden : 0 < den /\ 0 <= num).
  { unfold magnitude in Hmag. destruct (0 <=? e) eqn:He; injection Hmag as <- <-.
    - split; [lia |]. apply Z.mul_nonneg_nonneg; [lia |]. apply Z.pow_nonneg. lia.
    - split; [| lia]. apply Z.pow_pos_nonneg; [lia |]. apply Z.leb_gt in He. lia. }
  destruct Hden as [Hden Hnum].
  assert (Hlt : num < 10 ^ 21 * den).
  { rewrite Hq in Hsmall. destruct den as [| d | d]; try lia.
    unfold Qlt, inject_Z in Hsmall. cbn [Qnum Qden Z.to_pos] in Hsmall. lia. }
  destruct (Z.leb_spec (10 ^ 21 * den) num) as [Hbig | _]; [lia |].
  change (10 ^ Z.of_nat 1) with 10.
  set (n := nearest_int (num * 10) den).
  pose proof (nearest_int_bounds (num * 10) den Hden) as [Hlo Hhi]. fold n in Hlo, Hhi.
  assert (Hn : 0 <= n) by nia.
  exists n. split; [exact Hn |]. split; [| split; [apply Z.mod_pos_bound; lia |]].
  - rewrite place_point_1 by exact Hn. reflexivity.
  - destruct den as [| d | d]; try lia. cbn [Z.to_pos] in Hq.
    split; rewrite Hq;
      unfold Qle, Qlt, Qminus, Qplus, Qmult, Qopp, inject_Z; cbn [Qnum Qden]; nia.
Qed.

End Tenths.

Lemma toFixed_1_rounds_to_tenths_witness :
  exists n : Z,
    0 <= n
    /\ @toFixed offline_host (S754_finite false 4503599627370496 (-54)) 1
       = "" +:+ Z_to_string (n / 10) +:+ "." +:+ Z_to_string (n mod 10)
    /\ 0 <= n mod 10 < 10
    /\ (inject_Z n - (1 # 2)
        <= (10 # 1) * SF2Q (S754_finite false 4503599627370496 (-54)))%Q
    /\ ((10 # 1) * SF2Q (S754_finite false 4503599627370496 (-54))
        < inject_Z n + (1 # 2))%Q.
Proof.
  apply (@toFixed_1_rounds_to_tenths offline_host false 4503599627370496 (-54)).
  vm_compute. reflexivity.
Defined.

(** A quarter is printed as 0.3, and 12.34 as 12.3. *)
Example toFixed_1_samples :
  @toFixed offline_host (S754_finite false 4503599627370496 (-54)) 1 = "0.3"
  /\ @toFixed offline_host (S754_finite false 6946802425218990 (-49)) 1 = "12.3"
  /\ @toFixed offline_host (S754_zero false) 1 = "0.0".
Proof. repeat split; vm_compute; reflexivity. Qed.

(** * The spinner, and options without a number *)

Section Spinner.
Context `{Host}.

Lemma quiet_logs (lines : list Text) (rest : list Event) :
  quiet_while_spinning false (map Log lines ++ rest) = quiet_while_spinning false rest.
Proof. induction lines as [| line lines IH]; [reflexivity | exact IH]. Qed.

(** X18.  The spinner and the output.  With a usable key in the store, and in
    the commands without a spinner, nothing is printed while the spinner
    runs: it is stopped before the first line.  With no usable key the
    authentication error is printed while the spinner still runs. *)
Theorem spinner_stopped_before_output (c : Command) (w : World) :
  exists es : list Event,
    trace (snd (run c w)) = trace w ++ es
    /\ (given (config w !! "apiKey") <> None -> quiet_while_spinning false es = true)
    /\ (uses_spinner c = false -> quiet_while_spinning false es = true)
    /\ (uses_spinner c = true ->
        given (config w !! "apiKey") = None ->
        quiet_while_spinning false es = false).
Proof.
  destruct (uses_spinner c) eqn:Huses.
  - destruct (spinner_trace c w Huses) as (code & es & _ & _ & Htrace & Hshape).
    exists es. split; [exact Htrace |].
    destruct Hshape as [text Hg | text key e Hg | text key R req e Hg Hr
                        | text key R req r lines Hg Hr
                        | text key R req r lines e Hg Hr Hlate].
    + split; [intros Hno; contradiction |]. split; [discriminate |]. reflexivity.
    + split; [reflexivity |]. split; [discriminate |]. intros _ Hnone. congruence.
    + split; [reflexivity |]. split; [discriminate |]. intros _ Hnone. congruence.
    + assert (Hq : quiet_while_spinning false
                     (SpinnerStart text :: Remote R key req :: SpinnerStop :: map Log lines)
                   = true).
      { cbn [quiet_while_spinning]. rewrite <- (app_nil_r (map Log lines)).
        apply quiet_logs. }
      split; [intros _; exact Hq |]. split; [discriminate |]. intros _ Hnone. congruence.
    + assert (Hq : quiet_while_spinning false
                     (SpinnerStart text :: Remote R key req :: SpinnerStop
                        :: map Log lines ++ [SpinnerStop; LogError (error_line e)])
                   = true).
      { cbn [quiet_while_spinning]. apply quiet_logs. }
      split; [intros _; exact Hq |]. split; [discriminate |]. intros _ Hnone. congruence.
  - destruct (local_run c w Huses) as (lines & _ & _ & Htrace).
    exists (map Log lines). split; [exact Htrace |].
    assert (Hq : quiet_while_spinning false (map Log lines) = true).
    { rewrite <- (app_nil_r (map Log lines)). apply quiet_logs. }
    split; [intros _; exact Hq |]. split; [intros _; exact Hq | discriminate].
Qed.

End Spinner.


